(** * SpecStory wrapper: timestamp ledger, watcher pass and merge engine

    A shallow embedding of [tools/specstory/specstory_cli/specstory_wrapper.py].
    Files are modelled by their decoded text, a [string] whose characters
    stand for code points below 256; the clock is a parameter of every
    operation that reads it ([time.strftime] in the source). *)

From Stdlib Require Import Ascii.
From Stdlib Require String.
From stdpp Require Import gmap strings list fin_maps.

(** ** Python [str] operations used by the wrapper *)

Module PyStr.

Definition LF : ascii := "010"%char.
Definition CR : ascii := "013"%char.

(** The one-character string ['\n']. *)
Definition newline : string := String LF EmptyString.

(** [str.isspace] on one character, for code points below 256. *)
Definition isspace (c : ascii) : bool :=
  let n := nat_of_ascii c in
  ((9 <=? n) && (n <=? 13)) || ((28 <=? n) && (n <=? 32))
  || (n =? 133) || (n =? 160).

Fixpoint lstrip (s : string) : string :=
  match s with
  | EmptyString => EmptyString
  | String c s' => if isspace c then lstrip s' else s
  end.

Fixpoint rstrip (s : string) : string :=
  match s with
  | EmptyString => EmptyString
  | String c s' =>
      match rstrip s' with
      | EmptyString => if isspace c then EmptyString else String c EmptyString
      | r => String c r
      end
  end.

(** [s.strip()] *)
Definition strip (s : string) : string := lstrip (rstrip s).

(** [s.rstrip('\n')] *)
Fixpoint rstrip_nl (s : string) : string :=
  match s with
  | EmptyString => EmptyString
  | String c s' =>
      match rstrip_nl s' with
      | EmptyString => if Ascii.eqb c LF then EmptyString else String c EmptyString
      | r => String c r
      end
  end.

(** [s.startswith(p)] *)
Fixpoint startswith (p s : string) : bool :=
  match p, s with
  | EmptyString, _ => true
  | String a p', String b s' => Ascii.eqb a b && startswith p' s'
  | String _ _, EmptyString => false
  end.

(** [s.endswith(q)] *)
Fixpoint endswith (q s : string) : bool :=
  if String.eqb s q then true
  else match s with
       | EmptyString => false
       | String _ s' => endswith q s'
       end.

(** [sub in s] *)
Fixpoint contains (sub s : string) : bool :=
  if startswith sub s then true
  else match s with
       | EmptyString => false
       | String _ s' => contains sub s'
       end.

(** [s.replace('\r\n', '\n')] *)
Fixpoint replace_crlf (s : string) : string :=
  match s with
  | EmptyString => EmptyString
  | String c s' =>
      match s' with
      | String d s'' =>
          if Ascii.eqb c CR && Ascii.eqb d LF
          then String LF (replace_crlf s'')
          else String c (replace_crlf s')
      | EmptyString => String c EmptyString
      end
  end.

(** [s.replace('\r', '\n')] *)
Fixpoint replace_cr (s : string) : string :=
  match s with
  | EmptyString => EmptyString
  | String c s' => String (if Ascii.eqb c CR then LF else c) (replace_cr s')
  end.

(** [s.split(sep)] for a one-character separator. *)
Fixpoint split (sep : ascii) (s : string) : list string :=
  match s with
  | EmptyString => [EmptyString]
  | String c s' =>
      if Ascii.eqb c sep then EmptyString :: split sep s'
      else match split sep s' with
           | h :: t => String c h :: t
           | [] => [String c EmptyString]
           end
  end.

(** [s.split(sep, 1)] for a one-character separator. *)
Fixpoint split1 (sep : ascii) (s : string) : list string :=
  match s with
  | EmptyString => [EmptyString]
  | String c s' =>
      if Ascii.eqb c sep then [EmptyString; s']
      else match split1 sep s' with
           | h :: t => String c h :: t
           | [] => [String c EmptyString]
           end
  end.

(** [s[3:-3]] *)
Definition slice_3_m3 (s : string) : string :=
  String.substring 3 (String.length s - 6) s.

(** Iterating over a text file yields its lines with their terminators. *)
Fixpoint file_lines (s : string) : list string :=
  match s with
  | EmptyString => []
  | String c s' =>
      if Ascii.eqb c LF then String LF EmptyString :: file_lines s'
      else match file_lines s' with
           | h :: t => String c h :: t
           | [] => [String c EmptyString]
           end
  end.

(** Text-mode reading with universal newlines: [\r\n] and [\r] arrive
    as [\n]. *)
Definition read_text (raw : string) : string := replace_cr (replace_crlf raw).

(** [''.join(l + '\n' for l in lines)]: what a sequence of
    [out.write(line + '\n')] leaves in the file. *)
Fixpoint write_lines (lines : list string) : string :=
  match lines with
  | [] => EmptyString
  | l :: rest => l +:+ String LF (write_lines rest)
  end.

End PyStr.

(** ** Header detection and snippet extraction *)

Import PyStr.

(** [read_lines_text]: the file is read in text mode, normalised to LF and
    split on LF. *)
Definition read_lines_text (raw : string) : list string :=
  split LF (replace_cr (replace_crlf (read_text raw))).

(** The test of [find_conversation_header_indices]. *)
Definition is_conversation_header (line : string) : bool :=
  startswith "_**" line && endswith "**_" line
  && (contains "User" line || contains "Agent" line).

Fixpoint header_indices_from (i : nat) (lines : list string) : list nat :=
  match lines with
  | [] => []
  | line :: rest =>
      if is_conversation_header line
      then i :: header_indices_from (S i) rest
      else header_indices_from (S i) rest
  end.

Definition find_conversation_header_indices (lines : list string) : list nat :=
  header_indices_from 0 lines.

(** A stripped line that the scan of [first_meaningful_line_after] skips. *)
Definition skipped (content : string) : bool :=
  String.eqb content "" || String.eqb content "---".

Fixpoint first_meaningful (rest : list string) : option string :=
  match rest with
  | [] => None
  | l :: rest' =>
      let content := strip l in
      if skipped content then first_meaningful rest' else Some content
  end.

Definition first_meaningful_line_after (lines : list string) (start_idx : nat)
  : string :=
  match first_meaningful (drop (S start_idx) lines) with
  | Some content => content
  | None => match lines !! start_idx with
            | Some l => strip l
            | None => ""
            end
  end.

(** The body of the loop that the watcher and the merge both run over the
    header indices: the snippet kept for header [idx], if any. *)
Definition snippet_for (lines : list string) (idx : nat) : option string :=
  let header_txt := match lines !! idx with Some l => strip l | None => "" end in
  let snippet := first_meaningful_line_after lines idx in
  if negb (String.eqb snippet "") && negb (String.eqb snippet header_txt)
     && negb (String.eqb snippet "---")
  then Some snippet else None.

(** [header_snippet_map], in insertion order (increasing header index). *)
Definition header_snippet_map (lines : list string) : list (nat * string) :=
  omap (λ h_idx, (λ s, (h_idx, s)) <$> snippet_for lines h_idx)
       (find_conversation_header_indices lines).

(** [line_idx in header_snippet_map] and [header_snippet_map[line_idx]]. *)
Fixpoint snippet_lookup (line_idx : nat) (m : list (nat * string))
  : option string :=
  match m with
  | [] => None
  | (h, s) :: m' => if Nat.eqb h line_idx then Some s else snippet_lookup line_idx m'
  end.

(** ** The timestamp ledger *)

(** [[ln.strip() for ln in f if ln.strip()]] *)
Definition existing_entries (ledger : string) : list string :=
  filter (λ ln, ln ≠ "") (strip <$> file_lines (read_text ledger)).

(** One ledger record as written by the watcher and by the backfill. *)
Definition ledger_line (ts snippet : string) : string :=
  ts +:+ "|" +:+ snippet.

(** [parts = ts_line.split('|', 1)] and, when there are two parts, the
    stripped timestamp and snippet. *)
Definition parse_entry (ts_line : string) : option (string * string) :=
  match split1 "|" ts_line with
  | [a; b] => Some (strip a, strip b)
  | _ => None
  end.

(** One iteration of the loop that fills [timestamp_map]. *)
Definition record_entry (m : gmap string string) (ts_line : string)
  : gmap string string :=
  match parse_entry ts_line with
  | Some (ts, snippet) => <[snippet := ts]> m
  | None => m
  end.

Definition timestamp_map (existing : list string) : gmap string string :=
  foldl record_entry ∅ existing.

(** ** One watcher pass over one history file *)

Definition watcher_snippets (lines : list string) : list string :=
  omap (snippet_for lines) (find_conversation_header_indices lines).

Definition watcher_pass (ts_now md ledger : string) : string :=
  let existing := existing_entries ledger in
  let snippets := watcher_snippets (read_lines_text md) in
  if length existing <? length snippets
  then ledger +:+ write_lines (ledger_line ts_now <$> drop (length existing) snippets)
  else ledger.

(** ** Header rewriting *)

Definition isdigit (c : ascii) : bool :=
  let n := nat_of_ascii c in (48 <=? n) && (n <=? 57).

Inductive pat_item := PChar (c : ascii) | PDigit.

Fixpoint match_here (pat : list pat_item) (s : string) : bool :=
  match pat, s with
  | [], _ => true
  | PChar c :: pat', String d s' => Ascii.eqb c d && match_here pat' s'
  | PDigit :: pat', String d s' => isdigit d && match_here pat' s'
  | _ :: _, EmptyString => false
  end.

(** [re.search] for a pattern made of literal characters and [\d]. *)
Fixpoint re_search (pat : list pat_item) (s : string) : bool :=
  if match_here pat s then true
  else match s with
       | EmptyString => false
       | String _ s' => re_search pat s'
       end.

(** [\(\d{4}-\d{2}-\d{2}T\d{2}:\d{2}:\d{2}Z\)] *)
Definition timestamp_pattern : list pat_item :=
  [PChar "("; PDigit; PDigit; PDigit; PDigit; PChar "-"; PDigit; PDigit;
   PChar "-"; PDigit; PDigit; PChar "T"; PDigit; PDigit; PChar ":";
   PDigit; PDigit; PChar ":"; PDigit; PDigit; PChar "Z"; PChar ")"]%char.

Definition header_has_timestamp (header_line : string) : bool :=
  let content :=
    if startswith "_**" header_line && endswith "**_" header_line
    then slice_3_m3 header_line else header_line in
  re_search timestamp_pattern content.

Definition extract_base_role (header_line : string) : string :=
  let content := slice_3_m3 header_line in
  if contains "(" content && contains ")" content
  then strip (hd "" (split "(" content))
  else strip content.

(** ** The merge *)

(** The block-marker test of the eligibility scan. *)
Definition is_marker (line : string) : bool :=
  startswith "_**" line && endswith "**_" line.

(** The eligibility scan: [in_user_block] is the loop variable, the
    result is [has_user_content]. *)
Fixpoint user_content_scan (in_user_block : bool) (raw_lines : list string)
  : bool :=
  match raw_lines with
  | [] => false
  | raw_line :: rest =>
      let line := rstrip_nl raw_line in
      if is_marker line
      then user_content_scan (startswith "_**User" line) rest
      else if in_user_block && negb (skipped (strip line)) then true
      else user_content_scan in_user_block rest
  end.

Definition has_user_content (md : string) : bool :=
  user_content_scan false (file_lines (read_text md)).

Definition missing_timestamps (hsm : list (nat * string))
    (tsmap : gmap string string) : list (nat * string) :=
  filter (λ p, tsmap !! p.2 = None) hsm.

(** The text the backfill appends to the ledger. *)
Definition backfill_text (now_ts : string) (missing : list (nat * string))
  : string :=
  write_lines ((λ p, ledger_line now_ts p.2) <$> missing).

(** [timestamp_map] after the backfill loop. *)
Definition backfill_map (now_ts : string) (missing : list (nat * string))
    (tsmap : gmap string string) : gmap string string :=
  foldl (λ m p, <[p.2 := now_ts]> m) tsmap missing.

(** The header test of the rewriting loop. *)
Definition is_rewrite_header (line : string) : bool :=
  startswith "_**" line && (contains "User" line || contains "Agent" line)
  && endswith "**_" line.

(** The line written for [md_lines[line_idx]]. *)
Definition rewrite_line (hsm : list (nat * string))
    (tsmap : gmap string string) (line_idx : nat) (line : string) : string :=
  if is_rewrite_header line
  then
    if header_has_timestamp line then line
    else match snippet_lookup line_idx hsm with
         | Some snippet =>
             match tsmap !! snippet with
             | Some ts_display =>
                 "_**" +:+ extract_base_role line +:+ " (" +:+ ts_display +:+ ")**_"
             | None => line
             end
         | None => line
         end
  else line.

(** The lines an eligible merge writes, in order. *)
Definition merged_lines (now_ts md ledger : string) : list string :=
  let md_lines := read_lines_text md in
  let hsm := header_snippet_map md_lines in
  let tsmap := timestamp_map (existing_entries ledger) in
  let missing := missing_timestamps hsm tsmap in
  imap (rewrite_line hsm (backfill_map now_ts missing tsmap)) md_lines.

(** The ledger after an eligible merge. *)
Definition merged_ledger (now_ts md ledger : string) : string :=
  let hsm := header_snippet_map (read_lines_text md) in
  let tsmap := timestamp_map (existing_entries ledger) in
  ledger +:+ backfill_text now_ts (missing_timestamps hsm tsmap).

(** [merge_timestamps] on one history file: the new contents of the
    markdown file and of its ledger. A ledger that does not exist yet is
    created empty before anything is read, so the empty text stands for it. *)
Definition merge_timestamps (now_ts md ledger : string) : string * string :=
  if has_user_content md
  then (write_lines (merged_lines now_ts md ledger),
        merged_ledger now_ts md ledger)
  else (md, "").

(** ** Runs of operations on one history file and its ledger *)

Record files := { md_text : string; ledger_text : string }.

(** What can happen to the pair between two observations: a watcher pass,
    a merge, or the wrapped tool writing a new version of the log. *)
Inductive operation :=
| WatcherPass (ts_now : string)
| Merge (now_ts : string)
| ToolWrites (new_md : string).

Definition apply_op (o : operation) (fs : files) : files :=
  match o with
  | WatcherPass ts_now =>
      {| md_text := md_text fs;
         ledger_text := watcher_pass ts_now (md_text fs) (ledger_text fs) |}
  | Merge now_ts =>
      let r := merge_timestamps now_ts (md_text fs) (ledger_text fs) in
      {| md_text := r.1; ledger_text := r.2 |}
  | ToolWrites new_md => {| md_text := new_md; ledger_text := ledger_text fs |}
  end.

Fixpoint run (ops : list operation) (fs : files) : files :=
  match ops with
  | [] => fs
  | o :: rest => run rest (apply_op o fs)
  end.

(** The operation is a merge that finds the log ineligible. *)
Definition clears_ledger (o : operation) (fs : files) : bool :=
  match o with
  | Merge _ => negb (has_user_content (md_text fs))
  | _ => false
  end.

Fixpoint never_clears (ops : list operation) (fs : files) : bool :=
  match ops with
  | [] => true
  | o :: rest => negb (clears_ledger o fs) && never_clears rest (apply_op o fs)
  end.

(** ** Stopping the watcher *)

Module Supervisor.

Inductive exn :=
| ValueError | TypeError | AttributeError | OverflowError | PermissionError.

(** How a call ends: a normal return, or an exception that escapes it. *)
Inductive outcome := Returned | Raised (e : exn).

Inductive pyfloat := FFinite (trunc : Z) | FNan | FInf.

(** The values [json.loads] produces. *)
#[warnings="-register-all"] Inductive json :=
| JNull | JBool (b : bool) | JInt (z : Z) | JFloat (f : pyfloat)
| JString (s : string) | JArray (items : list json)
| JObject (fields : list (string * json)).

(** [int(s)] for a [str]: surrounding whitespace, an optional sign, then
    decimal digits with single underscores between them. *)
Fixpoint digits_value (acc : Z) (after_digit : bool) (s : string) : option Z :=
  match s with
  | EmptyString => if after_digit then Some acc else None
  | String c s' =>
      if isdigit c
      then digits_value (10 * acc + Z.of_nat (nat_of_ascii c - 48)) true s'
      else if Ascii.eqb c "_" && after_digit then digits_value acc false s'
      else None
  end.

Definition int_of_str (s : string) : option Z :=
  match strip s with
  | String "+" r => digits_value 0 false r
  | String "-" r => Z.opp <$> digits_value 0 false r
  | t => digits_value 0 false t
  end.

(** [d.get(key)] on a decoded object (the last duplicate key wins in
    [json.loads]); [None] is Python's [None]. *)
Fixpoint dict_get (key : string) (fields : list (string * json)) : option json :=
  match fields with
  | [] => None
  | (k, v) :: rest =>
      match dict_get key rest with
      | Some v' => Some v'
      | None => if String.eqb k key then Some v else None
      end
  end.

(** [int(x)] for what [meta.get("pid")] returned. *)
Definition py_int (x : option json) : Z + exn :=
  match x with
  | None | Some JNull => inr TypeError
  | Some (JBool b) => inl (if b then 1 else 0)%Z
  | Some (JInt z) => inl z
  | Some (JFloat (FFinite z)) => inl z
  | Some (JFloat FNan) => inr ValueError
  | Some (JFloat FInf) => inr OverflowError
  | Some (JString s) =>
      match int_of_str s with Some z => inl z | None => inr ValueError end
  | Some (JArray _) | Some (JObject _) => inr TypeError
  end.

(** What the operating system answers to one signal call. *)
Inductive os_result := Delivered | ProcessLookupError | OsPermissionError.

(** The answers to the calls [stop_watcher] can make, in program order. *)
Record os_answers := {
  term_group : os_result;   (* os.killpg(pid, SIGTERM) *)
  term_direct : os_result;  (* os.kill(pid, SIGTERM) *)
  probe : os_result;        (* os.kill(pid, 0) *)
  kill_group : os_result;   (* os.killpg(pid, SIGKILL) *)
  kill_direct : os_result   (* os.kill(pid, SIGKILL) *)
}.

Definition _try_kill_process (group direct : os_result) : outcome :=
  match group with
  | Delivered => Returned
  | ProcessLookupError | OsPermissionError =>
      match direct with
      | Delivered | ProcessLookupError => Returned
      | OsPermissionError => Raised PermissionError
      end
  end.

(** The polling loop: each element is what one iteration finds at the
    pidfile path ([None]: no file). The result is [pid_text] after the
    loop. *)
Fixpoint poll (pid_text : option string) (observations : list (option string))
  : option string :=
  match observations with
  | [] => pid_text
  | None :: rest => poll pid_text rest
  | Some content :: rest =>
      let t := strip (read_text content) in
      if String.eqb t "" then poll (Some t) rest else Some t
  end.

Section StopWatcher.

(** [json.loads]; [None] stands for [JSONDecodeError]. *)
Variable json_loads : string → option json.

(** The [try]/[except] block that computes [pid]. *)
Definition parse_pid (pid_text : string) : Z + exn :=
  let fallback :=
    match int_of_str pid_text with
    | Some z => inl z
    | None => inr ValueError
    end in
  match json_loads pid_text with
  | None => fallback
  | Some (JObject fields) =>
      match py_int (dict_get "pid" fields) with
      | inl z => inl z
      | inr ValueError => fallback
      | inr e => inr e
      end
  | Some _ => inr AttributeError
  end.

Definition stop_watcher (os : os_answers)
    (observations : list (option string)) : outcome :=
  match poll None observations with
  | None => Returned
  | Some pid_text =>
      if String.eqb pid_text "" then Returned
      else match parse_pid pid_text with
           | inr e => Raised e
           | inl pid =>
               match _try_kill_process (term_group os) (term_direct os) with
               | Raised e => Raised e
               | Returned =>
                   match probe os with
                   | ProcessLookupError => Returned
                   | OsPermissionError => Raised PermissionError
                   | Delivered =>
                       _try_kill_process (kill_group os) (kill_direct os)
                   end
               end
           end
  end.

End StopWatcher.

End Supervisor.

(** ** Specification-side predicates *)

(** Number of line feeds in a text. *)
Fixpoint count_lf (s : string) : nat :=
  match s with
  | EmptyString => 0
  | String c s' => (if Ascii.eqb c LF then 1 else 0) + count_lf s'
  end.

(** The eligibility rule in the words of the specification, over the raw
    lines of the log: some header of role [User] is followed, with no other
    block marker in between, by a line that is neither empty nor a
    separator. *)
Definition marker_line (raw : string) : Prop :=
  is_marker (rstrip_nl raw) = true.

Definition user_header (raw : string) : Prop :=
  marker_line raw ∧ startswith "_**User" (rstrip_nl raw) = true.

Definition content_line (raw : string) : Prop :=
  ¬ marker_line raw ∧ skipped (strip (rstrip_nl raw)) = false.

Definition open_block_with_content (raw_lines : list string) : Prop :=
  ∃ gap body post,
    raw_lines = gap ++ body :: post ∧
    Forall (λ l, ¬ marker_line l) gap ∧ content_line body.

Definition user_turn_with_content (raw_lines : list string) : Prop :=
  ∃ pre hdr rest,
    raw_lines = pre ++ hdr :: rest ∧ user_header hdr ∧
    open_block_with_content rest.

(** What one poll of [stop_watcher] sees when there is no pidfile or an
    empty one. *)
Definition nothing_recorded (observation : option string) : Prop :=
  match observation with
  | None => True
  | Some content => strip (read_text content) = ""
  end.

(** A role word occurs in the text between the two markers. *)
Definition role_word_in (s : string) : Prop :=
  contains "User" s = true ∨ contains "Agent" s = true.

(** ** Concrete logs and ledgers *)

Module Scenario.

(** A [User] turn and an [Agent] turn, both recorded by the watcher. *)
Definition two_turns : string :=
  write_lines ["_**User**_"; "Hello"; "_**Agent**_"; "Hi there"].
Definition two_records : string :=
  write_lines ["2024-01-01T00:00:00Z|Hello"; "2024-01-01T00:00:05Z|Hi there"].

(** One turn and its record. *)
Definition one_turn : string := write_lines ["_**User**_"; "Hello"].
Definition one_record : string := write_lines ["2024-01-01T00:00:00Z|Hello"].

(** The second header is followed by a separator and nothing else. *)
Definition separator_only : string :=
  write_lines ["_**User**_"; "Hello"; "_**Agent**_"; "---"].

(** A log whose only header is a [User] header without content. *)
Definition bare_user_header : string := write_lines ["_**User**_"].

(** A log with an [Agent] turn only. *)
Definition agent_only : files :=
  {| md_text := write_lines ["_**Agent**_"; "Hi there"]; ledger_text := "" |}.

(** Two ledger records for the same snippet. *)
Definition duplicate_records : string :=
  write_lines ["2024-01-01T00:00:00Z|Hello"; "2024-01-01T00:00:07Z|Hello"].

(** An [Agent] header that names the model. *)
Definition with_model_name : string :=
  write_lines ["_**User**_"; "Hello"; "_**Agent (claude-sonnet-4)**_"; "Hi there"].

Definition later : string := "2024-01-02T09:30:00Z".

Definition no_signal_needed : Supervisor.os_answers :=
  {| Supervisor.term_group := Supervisor.ProcessLookupError;
     Supervisor.term_direct := Supervisor.ProcessLookupError;
     Supervisor.probe := Supervisor.ProcessLookupError;
     Supervisor.kill_group := Supervisor.ProcessLookupError;
     Supervisor.kill_direct := Supervisor.ProcessLookupError |}.

(** A decoder that rejects every text, as [json.loads] rejects the text
    used with it below. *)
Definition rejects_all : string → option Supervisor.json := λ _, None.

End Scenario.

(** ** Shapes of texts and timestamps *)

(** Every character of the text passes the test. *)
Fixpoint all_chars (p : ascii → bool) (s : string) : bool :=
  match s with
  | EmptyString => true
  | String c s' => p c && all_chars p s'
  end.

Definition lf_free (s : string) : bool :=
  all_chars (λ c, negb (Ascii.eqb c LF)) s.

Definition cr_free (s : string) : bool :=
  all_chars (λ c, negb (Ascii.eqb c CR)) s.

(** A text that fits on one line of a file. *)
Definition one_line (s : string) : bool := lf_free s && cr_free s.

(** [YYYY-MM-DDTHH:MM:SSZ], the shape of what
    [time.strftime('%Y-%m-%dT%H:%M:%SZ', time.gmtime())] returns. *)
Definition utc_pattern : list pat_item :=
  [PDigit; PDigit; PDigit; PDigit; PChar "-"; PDigit; PDigit;
   PChar "-"; PDigit; PDigit; PChar "T"; PDigit; PDigit; PChar ":";
   PDigit; PDigit; PChar ":"; PDigit; PDigit; PChar "Z"]%char.

Definition is_utc_timestamp (ts : string) : bool :=
  match_here utc_pattern ts && (String.length ts =? 20).

(** Every character a pattern item admits passes the test [q]. *)
Definition pat_item_sat (q : ascii → bool) (it : pat_item) : Prop :=
  match it with
  | PChar c => q c = true
  | PDigit => ∀ d, isdigit d = true → q d = true
  end.

(** ** Choosing a history file by modification time *)

Section Selection.

(** Modification times are compared, never computed with: their type and
    their order are parameters. *)
Context {A K : Type} (key : A → K) (ltb : K → K → bool).

(** The loop of [max(items, key=key)]: a later item replaces the best one
    only when its key is strictly greater. *)
Fixpoint max_from (best : A) (rest : list A) : A :=
  match rest with
  | [] => best
  | x :: rest' =>
      if ltb (key best) (key x) then max_from x rest' else max_from best rest'
  end.

(** [max(items, key=key)] for a non-empty list; callers test for the empty
    list first. *)
Definition py_max (items : list A) : option A :=
  match items with
  | [] => None
  | x :: rest => Some (max_from x rest)
  end.

(** [items.sort(key=key, reverse=True)]: the sort is stable, also in
    reverse, so items with equal keys keep their order. *)
Fixpoint insert_desc (x : A) (sorted : list A) : list A :=
  match sorted with
  | [] => [x]
  | y :: rest =>
      if ltb (key x) (key y) then y :: insert_desc x rest else x :: sorted
  end.

Definition sort_desc (items : list A) : list A := foldr insert_desc [] items.

End Selection.

(** [get_most_recent_md_file], given what [glob] lists, the path functions
    and the modification times. *)
Definition get_most_recent_md_file {K : Type} (ltb : K → K → bool)
    (abspath normpath : string → string) (getmtime : string → K)
    (md_files : list string) : option string :=
  match md_files with
  | [] => None
  | _ => normpath <$> py_max getmtime ltb ((λ f, abspath (normpath f)) <$> md_files)
  end.

(** The choice of [start_watcher] among the candidates of one poll: pairs
    of a path and its modification time, in listing order. *)
Definition choose_target {K : Type} (ltb : K → K → bool)
    (candidates : list (string * K)) : option string :=
  match sort_desc snd ltb candidates with
  | [] => None
  | c :: _ => Some c.1
  end.

(** An item of the list that no item exceeds and that every earlier item
    is strictly below. *)
Definition first_maximal {A K : Type} (key : A → K) (ltb : K → K → bool)
    (items : list A) (m : A) : Prop :=
  ∃ pre post,
    items = pre ++ m :: post ∧
    (∀ x, x ∈ pre → ltb (key x) (key m) = true) ∧
    (∀ x, x ∈ post → ltb (key m) (key x) = false).

(** ** Handoff records for the examples *)

Module Handoff.

Definition dquote : string := String (ascii_of_nat 34) EmptyString.

(** The text [json.dumps] gives for a pid and a target. *)
Definition record_text : string :=
  "{" +:+ dquote +:+ "pid" +:+ dquote +:+ ": 4242, "
  +:+ dquote +:+ "target" +:+ dquote +:+ ": "
  +:+ dquote +:+ "/p/.specstory/history/a.md" +:+ dquote +:+ "}".

(** The same record without its pid. *)
Definition no_pid_text : string :=
  "{" +:+ dquote +:+ "target" +:+ dquote +:+ ": "
  +:+ dquote +:+ "/p/.specstory/history/a.md" +:+ dquote +:+ "}".

(** A decoder that agrees with [json.loads] on the texts used with it. *)
Definition decode (text : string) : option Supervisor.json :=
  if String.eqb text record_text
  then Some (Supervisor.JObject
               [("pid", Supervisor.JInt 4242);
                ("target", Supervisor.JString "/p/.specstory/history/a.md")])
  else if String.eqb text no_pid_text
  then Some (Supervisor.JObject
               [("target", Supervisor.JString "/p/.specstory/history/a.md")])
  else if String.eqb text "4242" then Some (Supervisor.JInt 4242)
  else None.

(** The watcher's process is in another user's session: signalling its
    group and the process itself is refused. *)
Definition refused : Supervisor.os_answers :=
  {| Supervisor.term_group := Supervisor.OsPermissionError;
     Supervisor.term_direct := Supervisor.OsPermissionError;
     Supervisor.probe := Supervisor.OsPermissionError;
     Supervisor.kill_group := Supervisor.OsPermissionError;
     Supervisor.kill_direct := Supervisor.OsPermissionError |}.

End Handoff.


(** ** The verifier of [verify_specstory.py] *)

Module Verifier.

(** Regular expressions, as far as the verifier's two patterns need them.
    Only whether a line has a match is used, so groups and the order in
    which alternatives are tried play no part. *)
Inductive regex : Type :=
| Never
| Empty
| Class (p : ascii → bool)
| Seq (r1 r2 : regex)
| Alt (r1 r2 : regex)
| Star (r : regex).

(** The texts a pattern matches from their first to their last character. *)
Inductive lang : regex → string → Prop :=
| lang_Empty : lang Empty ""
| lang_Class p c : p c = true → lang (Class p) (String c "")
| lang_Seq r1 r2 s1 s2 : lang r1 s1 → lang r2 s2 → lang (Seq r1 r2) (s1 +:+ s2)
| lang_Alt_l r1 r2 s : lang r1 s → lang (Alt r1 r2) s
| lang_Alt_r r1 r2 s : lang r2 s → lang (Alt r1 r2) s
| lang_Star_nil r : lang (Star r) ""
| lang_Star_cons r s1 s2 :
    lang r s1 → lang (Star r) s2 → lang (Star r) (s1 +:+ s2).

Fixpoint nullable (r : regex) : bool :=
  match r with
  | Never => false
  | Empty => true
  | Class _ => false
  | Seq r1 r2 => nullable r1 && nullable r2
  | Alt r1 r2 => nullable r1 || nullable r2
  | Star _ => true
  end.

(** What is left of the pattern after the character [c]. *)
Fixpoint deriv (c : ascii) (r : regex) : regex :=
  match r with
  | Never => Never
  | Empty => Never
  | Class p => if p c then Empty else Never
  | Seq r1 r2 =>
      if nullable r1
      then Alt (Seq (deriv c r1) r2) (deriv c r2)
      else Seq (deriv c r1) r2
  | Alt r1 r2 => Alt (deriv c r1) (deriv c r2)
  | Star r' => Seq (deriv c r') (Star r')
  end.

Fixpoint fullmatch (r : regex) (s : string) : bool :=
  match s with
  | EmptyString => nullable r
  | String c s' => fullmatch (deriv c r) s'
  end.

Definition anything : regex := Star (Class (λ _, true)).

(** [bool(pattern.search(s))]: some part of [s] matches. *)
Definition search (r : regex) (s : string) : bool :=
  fullmatch (Seq anything (Seq r anything)) s.

Definition chr (c : ascii) : regex := Class (Ascii.eqb c).

Fixpoint lit (s : string) : regex :=
  match s with
  | EmptyString => Empty
  | String c s' => Seq (chr c) (lit s')
  end.

(** [(?:r)?], [r+] and [r{n}]. *)
Definition opt (r : regex) : regex := Alt r Empty.

Definition plus (r : regex) : regex := Seq r (Star r).

Fixpoint times (n : nat) (r : regex) : regex :=
  match n with
  | 0 => Empty
  | S n' => Seq r (times n' r)
  end.

Definition seq (rs : list regex) : regex := foldr Seq Empty rs.

(** [\d] and [\s] on the characters of these strings, and [.], which
    matches everything but a line feed. *)
Definition digit : regex := Class isdigit.

Definition space : regex := Class isspace.

Definition dot : regex := Class (λ c, negb (Ascii.eqb c LF)).

(** The bullet of the model-name suffix is U+2022: no character of the
    strings modelled here is one. *)
Definition bullet : regex := Never.

(** [\(\d{4}-\d{2}-\d{2}[T ]\d{2}:\d{2}(?::\d{2})?Z?(?:\s+•\s+[^)]+)?\)] *)
Definition TIMESTAMP_PATTERN : regex :=
  seq [chr "("; times 4 digit; chr "-"; times 2 digit; chr "-"; times 2 digit;
       Class (λ c, Ascii.eqb c "T" || Ascii.eqb c " ");
       times 2 digit; chr ":"; times 2 digit;
       opt (seq [chr ":"; times 2 digit]);
       opt (chr "Z");
       opt (seq [plus space; bullet; plus space;
                 plus (Class (λ c, negb (Ascii.eqb c ")")))]);
       chr ")"].

(** [_\*\*((?:User|Agent|Assistant).*?)\*\*_] *)
Definition HEADER_PATTERN : regex :=
  seq [lit "_**";
       Alt (lit "User") (Alt (lit "Agent") (lit "Assistant"));
       Star dot;
       lit "**_"].

(** A character of a pattern compiled with [re.IGNORECASE]: a letter
    matches in either case. *)
Definition to_lower (c : ascii) : ascii :=
  let n := nat_of_ascii c in
  if (65 <=? n) && (n <=? 90) then ascii_of_nat (n + 32) else c.

Definition ichr (c : ascii) : regex :=
  Class (λ d, Ascii.eqb (to_lower c) (to_lower d)).

Fixpoint ilit (s : string) : regex :=
  match s with
  | EmptyString => Empty
  | String c s' => Seq (ichr c) (ilit s')
  end.

(** [<!--\s*cursor\s+Session] and [<!--\s*claude\s+Session], both with
    [re.IGNORECASE]. *)
Definition CURSOR_PATTERN : regex :=
  seq [ilit "<!--"; Star space; ilit "cursor"; plus space; ilit "Session"].

Definition CLAUDE_PATTERN : regex :=
  seq [ilit "<!--"; Star space; ilit "claude"; plus space; ilit "Session"].

(** [read_lines_text] of the verifier: a file that cannot be read gives no
    line at all. *)
Definition read_lines_text (content : option string) : list string :=
  match content with
  | Some raw => split LF (replace_cr (replace_crlf (read_text raw)))
  | None => []
  end.

(** [find_conversation_headers]: for every line with a header, its index
    and whether the line has a timestamp. The header text, which only the
    report prints, is left out. *)
Fixpoint headers_from (i : nat) (lines : list string) : list (nat * bool) :=
  match lines with
  | [] => []
  | line :: rest =>
      if search HEADER_PATTERN line
      then (i, search TIMESTAMP_PATTERN line) :: headers_from (S i) rest
      else headers_from (S i) rest
  end.

Definition find_conversation_headers (lines : list string) : list (nat * bool) :=
  headers_from 0 lines.

(** The one-based line numbers [verify_file] collects. *)
Definition missing_timestamps (lines : list string) : list nat :=
  omap (λ h : nat * bool, if h.2 then None else Some (S h.1))
       (find_conversation_headers lines).

(** [verify_file]: the line numbers of the headers without a timestamp and
    whether the file is valid. The session source does not enter either. *)
Definition verify_file (content : option string) : list nat * bool :=
  match read_lines_text content with
  | [] => ([], false)
  | lines =>
      let missing := missing_timestamps lines in
      (missing, Nat.eqb (length missing) 0)
  end.

(** The two session sources [identify_session_source] tells apart. *)
Inductive source : Type := claude | cursor.

(** The loop over [lines[:10]]: the first line with a session comment
    decides, and on one line the Cursor comment is looked for first. *)
Fixpoint comment_source (lines : list string) : option source :=
  match lines with
  | [] => None
  | line :: rest =>
      if search CURSOR_PATTERN line then Some cursor
      else if search CLAUDE_PATTERN line then Some claude
      else comment_source rest
  end.

(** [identify_session_source]. What the file system says enters as
    [has_timestamp_file], whether the ledger of the log exists and is not
    empty, and [filename], the base name of the log in lower case. The test
    [headers_with_timestamps / total_headers > 0.8] is made on floats and
    enters as [mostly]. *)
Definition identify_session_source (mostly : nat → nat → bool)
    (has_timestamp_file : bool) (filename : string) (lines : list string)
  : option source :=
  match comment_source (take 10 lines) with
  | Some s => Some s
  | None =>
      let headers := find_conversation_headers lines in
      let headers_with_timestamps := length (filter (λ h, h.2 = true) headers) in
      let headers_without_timestamps :=
        length (filter (λ h, h.2 = false) headers) in
      let total_headers := headers_with_timestamps + headers_without_timestamps in
      if has_timestamp_file && (0 <? headers_with_timestamps)
         && (0 <? total_headers) && mostly headers_with_timestamps total_headers
      then Some claude
      else if negb has_timestamp_file && (0 <? headers_with_timestamps)
      then Some cursor
      else if contains "cursor" filename then Some cursor
      else if contains "claude" filename then Some claude
      else if has_timestamp_file then Some claude
      else if (0 <? headers_with_timestamps) || (0 <? headers_without_timestamps)
      then Some cursor
      else None
  end.

End Verifier.

(** The wrapper's patterns of literal characters and [\d], written as
    regular expressions. *)
Definition pat_regex (pat : list pat_item) : Verifier.regex :=
  Verifier.seq
    ((λ it, match it with
            | PChar c => Verifier.chr c
            | PDigit => Verifier.digit
            end) <$> pat).

(** ** A log with an [Assistant] turn *)

Module Transcript.

Definition with_assistant : string :=
  write_lines ["_**User**_"; "Hello"; "_**Assistant**_"; "Hi there"].

End Transcript.

(** ** The string operations on small inputs *)

Example strip_example : strip "  a b	 " = "a b".
Proof. reflexivity. Qed.

Example split_example : split "|" "a|b|" = ["a"; "b"; ""].
Proof. reflexivity. Qed.

Example split1_example : split1 "|" "a|b|c" = ["a"; "b|c"].
Proof. reflexivity. Qed.

Example slice_example :
  slice_3_m3 "_**User**_" = "User" ∧ slice_3_m3 "_**_" = "".
Proof. split; reflexivity. Qed.

Example file_lines_example :
  file_lines (write_lines ["a"; ""; "b"]) = [write_lines ["a"]; newline; write_lines ["b"]].
Proof. reflexivity. Qed.

Example read_lines_text_example :
  read_lines_text (write_lines ["a"; "b"]) = ["a"; "b"; ""].
Proof. reflexivity. Qed.

Example header_has_timestamp_example :
  header_has_timestamp "_**User (2024-01-01T00:00:00Z)**_" = true ∧
  header_has_timestamp "_**User (2024-01-01 00:00Z)**_" = false.
Proof. split; reflexivity. Qed.

Example int_of_str_example :
  Supervisor.int_of_str " 4242 " = Some 4242%Z ∧
  Supervisor.int_of_str "garbage" = None.
Proof. split; reflexivity. Qed.

(** ** Facts about the string operations *)

Section StringFacts.

#[local] Arguments String.append : simpl nomatch.

Lemma app_cons a s t : String a s +:+ t = String a (s +:+ t).
Proof. reflexivity. Qed.

Lemma app_empty_r s : s +:+ "" = s.
Proof. induction s as [|a s IH]; simpl; [done | by rewrite IH]. Qed.

Lemma app_assoc' s t u : (s +:+ t) +:+ u = s +:+ t +:+ u.
Proof. induction s as [|a s IH]; simpl; [done | by rewrite IH]. Qed.

Lemma app_length s t :
  String.length (s +:+ t) = String.length s + String.length t.
Proof. induction s as [|a s IH]; simpl; [done | by rewrite IH]. Qed.

Lemma startswith_spec p s :
  startswith p s = true ↔ ∃ r, s = p +:+ r.
Proof.
  revert s; induction p as [|a p IH]; intros s; simpl.
  - split; eauto.
  - destruct s as [|b s].
    + split; [done | intros [r Hr]; discriminate].
    + rewrite andb_true_iff, IH. split.
      * intros [Hab [r ->]]. apply Ascii.eqb_eq in Hab as ->. eauto.
      * intros [r Hr]. injection Hr as -> ->. split; [apply Ascii.eqb_refl | eauto].
Qed.

Lemma endswith_unfold q s :
  endswith q s =
    if String.eqb s q then true
    else match s with EmptyString => false | String _ s' => endswith q s' end.
Proof. by destruct s. Qed.

Lemma endswith_spec q s :
  endswith q s = true ↔ ∃ p, s = p +:+ q.
Proof.
  induction s as [|a s IH]; rewrite endswith_unfold.
  - destruct (String.eqb_spec "" q) as [<-|Hne].
    + split; [by exists "" | done].
    + split; [done |]. intros [[|b p] Hp]; simpl in Hp; [done | discriminate].
  - destruct (String.eqb_spec (String a s) q) as [<-|Hne].
    + split; [by exists "" | done].
    + rewrite IH. split.
      * intros [p ->]. by exists (String a p).
      * intros [[|b p] Hp]; simpl in Hp; [done |].
        injection Hp as -> ->. eauto.
Qed.

Lemma contains_spec sub s :
  contains sub s = true ↔ ∃ a b, s = a +:+ sub +:+ b.
Proof.
  induction s as [|c s IH]; simpl.
  - destruct (startswith sub "") eqn:Hp.
    + apply startswith_spec in Hp as [r Hr]. split; [|done].
      intros _. by exists "", r.
    + split; [done |]. intros [[|x a] [b Hb]]; simpl in Hb; [|discriminate].
      assert (startswith sub "" = true) by (apply startswith_spec; eauto).
      congruence.
  - destruct (startswith sub (String c s)) eqn:Hp.
    + apply startswith_spec in Hp as [r Hr]. split; [|done].
      intros _. by exists "", r.
    + rewrite IH. split.
      * intros (a & b & ->). by exists (String c a), b.
      * intros ([|x a] & b & Hb); simpl in Hb.
        -- assert (startswith sub (String c s) = true)
             by (apply startswith_spec; eauto).
           congruence.
        -- injection Hb as -> ->. eauto.
Qed.

Lemma endswith_app_r q p r :
  String.length q ≤ String.length r →
  endswith q (p +:+ r) = true → endswith q r = true.
Proof.
  intros Hlen. induction p as [|a p IH]; [done |].
  rewrite app_cons, endswith_unfold.
  destruct (String.eqb_spec (String a (p +:+ r)) q) as [<-|Hne]; [|exact IH].
  simpl in Hlen. rewrite app_length in Hlen. lia.
Qed.

Lemma contains_unfold sub s :
  contains sub s =
    if startswith sub s then true
    else match s with EmptyString => false | String _ s' => contains sub s' end.
Proof. by destruct s. Qed.

(** A role word cannot straddle the closing marker. *)
Lemma startswith_user_tail x :
  startswith "User" (x +:+ "**_") = true → startswith "User" x = true.
Proof.
  destruct x as [|a [|b [|c [|d x]]]]; simpl; try done;
    repeat (match goal with
            | |- context [Ascii.eqb ?u ?v] => destruct (Ascii.eqb u v); simpl
            end); done.
Qed.

Lemma startswith_agent_tail x :
  startswith "Agent" (x +:+ "**_") = true → startswith "Agent" x = true.
Proof.
  destruct x as [|a [|b [|c [|d [|e x]]]]]; simpl; try done;
    repeat (match goal with
            | |- context [Ascii.eqb ?u ?v] => destruct (Ascii.eqb u v); simpl
            end); done.
Qed.

Lemma contains_tail (w : string) mid :
  (∀ x, startswith w (x +:+ "**_") = true → startswith w x = true) →
  contains w ("**_") = false →
  contains w (mid +:+ "**_") = true → contains w mid = true.
Proof.
  intros Hw Hbase. induction mid as [|a mid IH].
  - intros H. change (contains w "**_" = true) in H. congruence.
  - rewrite app_cons, (contains_unfold w (String a mid)), contains_unfold.
    destruct (startswith w (String a (mid +:+ "**_"))) eqn:Hs.
    + rewrite <- app_cons in Hs. by rewrite (Hw _ Hs).
    + intros H. rewrite (IH H). by destruct (startswith w (String a mid)).
Qed.

Lemma contains_app (w a b : string) :
  contains w b = true → contains w (a +:+ b) = true.
Proof.
  rewrite !contains_spec. intros (x & y & ->).
  exists (a +:+ x), y. by rewrite app_assoc'.
Qed.

Lemma contains_app_l (w a b : string) :
  contains w a = true → contains w (a +:+ b) = true.
Proof.
  rewrite !contains_spec. intros (x & y & ->).
  exists x, (y +:+ b). by rewrite !app_assoc'.
Qed.

End StringFacts.

Lemma is_conversation_header_spec line :
  is_conversation_header line = true ↔
  ∃ mid, line = "_**" +:+ mid +:+ "**_" ∧ role_word_in mid.
Proof.
  unfold is_conversation_header, role_word_in.
  rewrite !andb_true_iff, orb_true_iff. split.
  - intros [[Hs He] Hc]. apply startswith_spec in Hs as [r ->].
    change (contains "User" r = true ∨ contains "Agent" r = true) in Hc.
    assert (3 ≤ String.length r) as Hlen.
    { destruct Hc as [Hc|Hc]; apply contains_spec in Hc as (a & b & Hab);
        apply (f_equal String.length) in Hab;
        rewrite !app_length in Hab; simpl in Hab; lia. }
    apply endswith_app_r in He; [|done].
    apply endswith_spec in He as [mid ->]. exists mid. split; [done |].
    destruct Hc as [Hc|Hc]; [left|right].
    + apply contains_tail; [apply startswith_user_tail | done | exact Hc].
    + apply contains_tail; [apply startswith_agent_tail | done | exact Hc].
  - intros (mid & -> & Hc). split; [split |].
    + apply startswith_spec. eauto.
    + apply endswith_spec. exists ("_**" +:+ mid). by rewrite app_assoc'.
    + destruct Hc as [Hc|Hc]; [left|right];
        apply (contains_app _ "_**"), contains_app_l, Hc.
Qed.

Lemma is_rewrite_header_eq line :
  is_rewrite_header line = is_conversation_header line.
Proof.
  unfold is_rewrite_header, is_conversation_header.
  destruct (startswith "_**" line), (endswith "**_" line),
    (contains "User" line || contains "Agent" line); done.
Qed.


(** ** Facts about the ledger map *)

Section LedgerFacts.

Implicit Types (m : gmap string string) (existing : list string).

Lemma timestamp_map_snoc existing e :
  timestamp_map (existing ++ [e]) = record_entry (timestamp_map existing) e.
Proof. unfold timestamp_map. by rewrite foldl_snoc. Qed.

Lemma record_entry_lookup m e s :
  record_entry m e !! s =
    match parse_entry e with
    | Some (ts, s') => if decide (s' = s) then Some ts else m !! s
    | None => m !! s
    end.
Proof.
  unfold record_entry. destruct (parse_entry e) as [[ts s']|]; [|done].
  by rewrite lookup_insert.
Qed.

(** The map holds, for each snippet, the timestamp of the last entry
    that carries it. *)
Lemma timestamp_map_last pre e post ts s :
  parse_entry e = Some (ts, s) →
  (∀ e' ts', e' ∈ post → parse_entry e' ≠ Some (ts', s)) →
  timestamp_map (pre ++ e :: post) !! s = Some ts.
Proof.
  intros He. induction post as [|x post IH] using rev_ind; intros Hpost.
  - rewrite timestamp_map_snoc, record_entry_lookup, He.
    by rewrite decide_True.
  - replace (pre ++ e :: post ++ [x]) with ((pre ++ e :: post) ++ [x])
      by (by rewrite <- app_assoc).
    rewrite timestamp_map_snoc, record_entry_lookup.
    assert (timestamp_map (pre ++ e :: post) !! s = Some ts) as Hrec.
    { apply IH. intros e' ts' Hin. apply Hpost, elem_of_app. by left. }
    destruct (parse_entry x) as [[ts' s']|] eqn:Hx; [|done].
    destruct (decide (s' = s)) as [->|]; [|done].
    exfalso. eapply (Hpost x ts'); [|done]. apply elem_of_app. right.
    apply list_elem_of_singleton. done.
Qed.

Lemma timestamp_map_lookup_Some existing s ts :
  timestamp_map existing !! s = Some ts →
  ∃ e, e ∈ existing ∧ parse_entry e = Some (ts, s).
Proof.
  induction existing as [|x existing IH] using rev_ind.
  - unfold timestamp_map. simpl. by rewrite lookup_empty.
  - rewrite timestamp_map_snoc, record_entry_lookup.
    destruct (parse_entry x) as [[ts' s']|] eqn:Hx.
    + destruct (decide (s' = s)) as [->|].
      * intros [= ->]. exists x. split; [|done].
        apply elem_of_app. right. by apply list_elem_of_singleton.
      * intros (e & Hin & He)%IH. exists e. split; [|done].
        apply elem_of_app. by left.
    + intros (e & Hin & He)%IH. exists e. split; [|done].
      apply elem_of_app. by left.
Qed.

Lemma timestamp_map_lookup_is_Some existing e ts s :
  e ∈ existing → parse_entry e = Some (ts, s) →
  is_Some (timestamp_map existing !! s).
Proof.
  intros Hin He. apply list_elem_of_split in Hin as (pre & post & ->).
  induction post as [|x post IH] using rev_ind.
  - rewrite timestamp_map_snoc, record_entry_lookup, He.
    rewrite decide_True by done. eauto.
  - replace (pre ++ e :: post ++ [x]) with ((pre ++ e :: post) ++ [x])
      by (by rewrite <- app_assoc).
    rewrite timestamp_map_snoc, record_entry_lookup.
    destruct (parse_entry x) as [[ts' s']|]; [|done].
    destruct (decide (s' = s)); eauto.
Qed.

Lemma timestamp_map_lookup_None existing s :
  (∀ e ts, e ∈ existing → parse_entry e ≠ Some (ts, s)) →
  timestamp_map existing !! s = None.
Proof.
  intros Hno. destruct (timestamp_map existing !! s) as [ts|] eqn:Hl; [|done].
  apply timestamp_map_lookup_Some in Hl as (e & Hin & He).
  by destruct (Hno e ts Hin).
Qed.

Lemma backfill_map_snoc now_ts missing p m :
  backfill_map now_ts (missing ++ [p]) m
  = <[p.2 := now_ts]> (backfill_map now_ts missing m).
Proof. unfold backfill_map. by rewrite foldl_snoc. Qed.

Lemma backfill_map_other now_ts missing m s :
  (∀ p, p ∈ missing → p.2 ≠ s) →
  backfill_map now_ts missing m !! s = m !! s.
Proof.
  induction missing as [|x missing IH] using rev_ind; intros Hno; [done |].
  rewrite backfill_map_snoc, lookup_insert_ne.
  - apply IH. intros p Hp. apply Hno, elem_of_app. by left.
  - apply Hno, elem_of_app. right. by apply list_elem_of_singleton.
Qed.

Lemma backfill_map_in now_ts missing m p :
  p ∈ missing → backfill_map now_ts missing m !! p.2 = Some now_ts.
Proof.
  induction missing as [|x missing IH] using rev_ind; intros Hin.
  - by apply elem_of_nil in Hin.
  - rewrite backfill_map_snoc. apply elem_of_app in Hin as [Hin|Hin].
    + destruct (decide (x.2 = p.2)) as [->|Hne].
      * apply lookup_insert_eq.
      * rewrite lookup_insert_ne by done. by apply IH.
    + apply list_elem_of_singleton in Hin as ->. apply lookup_insert_eq.
Qed.

Lemma backfill_map_recorded now_ts hsm m s ts :
  m !! s = Some ts →
  backfill_map now_ts (missing_timestamps hsm m) m !! s = Some ts.
Proof.
  intros Hs. rewrite backfill_map_other; [done |].
  intros p [Hp _]%list_elem_of_filter Heq. rewrite Heq in Hp. congruence.
Qed.

End LedgerFacts.

(** ** Facts about header indices and the header/snippet map *)

Section SnippetFacts.

Implicit Types (lines : list string) (hsm : list (nat * string)).

Lemma elem_of_header_indices_from k lines i :
  i ∈ header_indices_from k lines ↔
  k ≤ i ∧ ∃ l, lines !! (i - k) = Some l ∧ is_conversation_header l = true.
Proof.
  revert k. induction lines as [|line rest IH]; intros k; simpl.
  - split; [by intros ?%elem_of_nil | by intros [_ (l & ? & _)]].
  - assert (i ∈ header_indices_from (S k) rest ↔
            k < i ∧ ∃ l, (line :: rest) !! (i - k) = Some l
                         ∧ is_conversation_header l = true) as Hrest.
    { rewrite IH. split.
      - intros [Hle (l & Hl & Hh)]. split; [lia |]. exists l. split; [|done].
        replace (i - k) with (S (i - S k)) by lia. done.
      - intros [Hlt (l & Hl & Hh)]. split; [lia |]. exists l. split; [|done].
        replace (i - k) with (S (i - S k)) in Hl by lia. done. }
    destruct (is_conversation_header line) eqn:Hline.
    + rewrite elem_of_cons, Hrest. split.
      * intros [->|[Hlt H]]; [|split; [lia | done]].
        split; [done |]. exists line. by rewrite Nat.sub_diag.
      * intros [Hle H]. destruct (decide (i = k)) as [->|]; [by left |].
        right. split; [lia | done].
    + rewrite Hrest. split.
      * intros [Hlt H]. split; [lia | done].
      * intros [Hle (l & Hl & Hh)]. split; [|eauto].
        destruct (decide (i = k)) as [->|]; [|lia].
        rewrite Nat.sub_diag in Hl. simpl in Hl. congruence.
Qed.

Lemma NoDup_header_indices_from k lines : NoDup (header_indices_from k lines).
Proof.
  revert k. induction lines as [|line rest IH]; intros k; simpl.
  - constructor.
  - destruct (is_conversation_header line); [|apply IH].
    constructor; [|apply IH].
    rewrite elem_of_header_indices_from. lia.
Qed.

Lemma elem_of_header_snippet_map lines i s :
  (i, s) ∈ header_snippet_map lines ↔
  ∃ l, lines !! i = Some l ∧ is_conversation_header l = true
       ∧ snippet_for lines i = Some s.
Proof.
  unfold header_snippet_map, find_conversation_header_indices.
  rewrite list_elem_of_omap. split.
  - intros (h & Hh & Hs). destruct (snippet_for lines h) as [s'|] eqn:Hf;
      simplify_eq/=.
    apply elem_of_header_indices_from in Hh as [_ (l & Hl & Hhdr)].
    rewrite Nat.sub_0_r in Hl. eauto.
  - intros (l & Hl & Hhdr & Hs). exists i. split.
    + apply elem_of_header_indices_from. split; [lia |].
      rewrite Nat.sub_0_r. eauto.
    + by rewrite Hs.
Qed.

Lemma header_snippet_map_keys lines :
  (header_snippet_map lines).*1
  = filter (λ h, is_Some (snippet_for lines h))
           (find_conversation_header_indices lines).
Proof.
  unfold header_snippet_map.
  induction (find_conversation_header_indices lines) as [|h idxs IH]; [done |].
  rewrite filter_cons. simpl.
  destruct (snippet_for lines h) as [s|] eqn:Hs; simpl; [f_equal |]; exact IH.
Qed.

Lemma NoDup_header_snippet_map_keys lines :
  NoDup (header_snippet_map lines).*1.
Proof.
  rewrite header_snippet_map_keys. apply NoDup_filter.
  apply NoDup_header_indices_from.
Qed.

Lemma NoDup_fst_filter (P : nat * string → Prop) `{!∀ p, Decision (P p)} hsm :
  NoDup hsm.*1 → NoDup (filter P hsm).*1.
Proof.
  induction hsm as [|p hsm IH]; [done |].
  rewrite fmap_cons, NoDup_cons, filter_cons. intros [Hp Hnd].
  destruct (decide (P p)); [|by apply IH].
  rewrite fmap_cons, NoDup_cons. split; [|by apply IH].
  intros (q & Hq & [_ Hin]%list_elem_of_filter)%list_elem_of_fmap.
  apply Hp, list_elem_of_fmap. eauto.
Qed.

(** With distinct keys, the lookup finds exactly the members. *)
Lemma snippet_lookup_Some hsm i s :
  NoDup hsm.*1 → snippet_lookup i hsm = Some s ↔ (i, s) ∈ hsm.
Proof.
  induction hsm as [|[h t] hsm IH]; simpl.
  - intros _. split; [done | by intros ?%elem_of_nil].
  - rewrite NoDup_cons. intros [Hh Hnd]. rewrite elem_of_cons.
    destruct (Nat.eqb_spec h i) as [->|Hne].
    + split; [intros [= ->]; by left |].
      intros [[= ->]|Hin]; [done |]. destruct Hh.
      apply list_elem_of_fmap. by exists (i, s).
    + rewrite IH by done. split; [by right |].
      intros [[= -> ->]|Hin]; done.
Qed.

Lemma snippet_lookup_header_snippet_map lines i s :
  snippet_lookup i (header_snippet_map lines) = Some s ↔
  ∃ l, lines !! i = Some l ∧ is_conversation_header l = true
       ∧ snippet_for lines i = Some s.
Proof.
  rewrite snippet_lookup_Some by apply NoDup_header_snippet_map_keys.
  apply elem_of_header_snippet_map.
Qed.

Lemma snippet_lookup_None hsm i :
  snippet_lookup i hsm = None ↔ ∀ s, (i, s) ∉ hsm.
Proof.
  induction hsm as [|[h t] hsm IH]; simpl.
  - split; [intros _ s; apply not_elem_of_nil | done].
  - destruct (Nat.eqb_spec h i) as [->|Hne].
    + split; [done |]. intros H. destruct (H t). by left.
    + rewrite IH. split.
      * intros H s [[= -> ->]|Hin]%elem_of_cons; [done |]. by apply (H s).
      * intros H s Hin. apply (H s). by right.
Qed.

Lemma first_meaningful_None rest :
  Forall (λ l, skipped (strip l) = true) rest → first_meaningful rest = None.
Proof.
  induction 1 as [|l rest Hl _ IH]; simpl; [done |]. by rewrite Hl.
Qed.

(** A header with nothing but blank and separator lines after it has no
    snippet: the scan falls back to the header's own text. *)
Lemma snippet_for_no_content lines i :
  Forall (λ l, skipped (strip l) = true) (drop (S i) lines) →
  snippet_for lines i = None.
Proof.
  intros Hall. unfold snippet_for, first_meaningful_line_after.
  rewrite (first_meaningful_None _ Hall).
  destruct (lines !! i) as [l|]; [|done].
  rewrite String.eqb_refl, andb_false_r. done.
Qed.

End SnippetFacts.

(** ** The merge, line by line *)

Section MergeFacts.

Lemma merge_eligible now_ts md ledger :
  has_user_content md = true →
  merge_timestamps now_ts md ledger
  = (write_lines (merged_lines now_ts md ledger), merged_ledger now_ts md ledger).
Proof. unfold merge_timestamps. by intros ->. Qed.

Lemma merged_lines_lookup now_ts md ledger i :
  merged_lines now_ts md ledger !! i
  = rewrite_line
      (header_snippet_map (read_lines_text md))
      (backfill_map now_ts
         (missing_timestamps (header_snippet_map (read_lines_text md))
            (timestamp_map (existing_entries ledger)))
         (timestamp_map (existing_entries ledger))) i
    <$> read_lines_text md !! i.
Proof. unfold merged_lines. apply list_lookup_imap. Qed.

(** The rewriting branch that embeds a timestamp. *)
Lemma rewrite_line_embeds hsm (tsmap : gmap string string) i line snippet ts :
  is_conversation_header line = true →
  header_has_timestamp line = false →
  snippet_lookup i hsm = Some snippet →
  tsmap !! snippet = Some ts →
  rewrite_line hsm tsmap i line
  = "_**" +:+ extract_base_role line +:+ " (" +:+ ts +:+ ")**_".
Proof.
  intros Hh Hts Hs Hm. unfold rewrite_line.
  by rewrite is_rewrite_header_eq, Hh, Hts, Hs, Hm.
Qed.

(** The branches that write the line through. *)
Lemma rewrite_line_keeps hsm (tsmap : gmap string string) i line :
  snippet_lookup i hsm = None → rewrite_line hsm tsmap i line = line.
Proof.
  intros Hs. unfold rewrite_line. rewrite Hs.
  by destruct (is_rewrite_header line), (header_has_timestamp line).
Qed.

Lemma write_lines_app l1 l2 :
  write_lines (l1 ++ l2) = write_lines l1 +:+ write_lines l2.
Proof.
  induction l1 as [|l l1 IH]; simpl; [done |].
  by rewrite IH, app_assoc'.
Qed.

Lemma backfill_text_app now_ts m1 m2 :
  backfill_text now_ts (m1 ++ m2)
  = backfill_text now_ts m1 +:+ backfill_text now_ts m2.
Proof. unfold backfill_text. by rewrite fmap_app, write_lines_app. Qed.

End MergeFacts.

(** C2 (exact correlation). In an eligible log, a header that carries no
    timestamp yet and whose content snippet is recorded in the ledger is
    rewritten to the canonical form with the timestamp of a ledger entry
    recorded for exactly that snippet; the file is the rewritten lines, each
    followed by a line feed. *)
Theorem merge_embeds_recorded_timestamp
    (now_ts md ledger : string) (i : nat) (line snippet e ts0 : string) :
  has_user_content md = true →
  read_lines_text md !! i = Some line →
  is_conversation_header line = true →
  header_has_timestamp line = false →
  snippet_for (read_lines_text md) i = Some snippet →
  e ∈ existing_entries ledger →
  parse_entry e = Some (ts0, snippet) →
  ∃ e' ts,
    e' ∈ existing_entries ledger ∧ parse_entry e' = Some (ts, snippet) ∧
    (merge_timestamps now_ts md ledger).1
      = write_lines (merged_lines now_ts md ledger) ∧
    merged_lines now_ts md ledger !! i
      = Some ("_**" +:+ extract_base_role line +:+ " (" +:+ ts +:+ ")**_").
Proof.
  intros Hel Hline Hhdr Hts Hsn Hin He.
  destruct (timestamp_map_lookup_is_Some _ _ _ _ Hin He) as [ts Hm].
  destruct (timestamp_map_lookup_Some _ _ _ Hm) as (e' & Hin' & He').
  exists e', ts. split; [done |]. split; [done |].
  rewrite merge_eligible by done. split; [done |].
  rewrite merged_lines_lookup, Hline. simpl. f_equal.
  apply rewrite_line_embeds with snippet; [done | done | |].
  - apply snippet_lookup_header_snippet_map. eauto.
  - by apply backfill_map_recorded.
Qed.

(** C7, as the code has it: when several ledger entries carry the snippet
    of a header, the timestamp embedded into the header is the one of the
    last such entry. *)
Theorem merge_uses_last_entry
    (now_ts md ledger : string) (i : nat) (line snippet : string)
    (pre : list string) (e : string) (post : list string) (ts : string) :
  has_user_content md = true →
  read_lines_text md !! i = Some line →
  is_conversation_header line = true →
  header_has_timestamp line = false →
  snippet_for (read_lines_text md) i = Some snippet →
  existing_entries ledger = pre ++ e :: post →
  parse_entry e = Some (ts, snippet) →
  (∀ e' ts', e' ∈ post → parse_entry e' ≠ Some (ts', snippet)) →
  merged_lines now_ts md ledger !! i
    = Some ("_**" +:+ extract_base_role line +:+ " (" +:+ ts +:+ ")**_").
Proof.
  intros Hel Hline Hhdr Hts Hsn Hex He Hpost.
  rewrite merged_lines_lookup, Hline. simpl. f_equal.
  apply rewrite_line_embeds with snippet; [done | done | |].
  - apply snippet_lookup_header_snippet_map. eauto.
  - apply backfill_map_recorded. rewrite Hex. by apply timestamp_map_last.
Qed.

(** C4 (no content, no timestamp). A header from which no content snippet
    can be derived, that is, one after which every line is blank or a
    separator, gets no entry in the header/snippet map and no backfill
    record, and the merge, which either leaves the file alone or writes the
    rewritten lines, writes it through unchanged, whatever the ledger
    holds. *)
Theorem no_content_no_timestamp
    (now_ts md ledger : string) (i : nat) (line : string) :
  read_lines_text md !! i = Some line →
  Forall (λ l, skipped (strip l) = true) (drop (S i) (read_lines_text md)) →
  snippet_lookup i (header_snippet_map (read_lines_text md)) = None ∧
  (∀ s, (i, s) ∉ missing_timestamps (header_snippet_map (read_lines_text md))
                   (timestamp_map (existing_entries ledger))) ∧
  merged_lines now_ts md ledger !! i = Some line ∧
  ((merge_timestamps now_ts md ledger).1 = md ∨
   (merge_timestamps now_ts md ledger).1
     = write_lines (merged_lines now_ts md ledger)).
Proof.
  intros Hline Hall.
  assert (snippet_lookup i (header_snippet_map (read_lines_text md)) = None)
    as Hnone.
  { apply snippet_lookup_None. intros s Hin.
    apply elem_of_header_snippet_map in Hin as (l & _ & _ & Hs).
    by rewrite snippet_for_no_content in Hs. }
  split; [done |]. split.
  - intros s [_ Hin]%list_elem_of_filter.
    by apply (proj1 (snippet_lookup_None _ _) Hnone s).
  - split.
    + rewrite merged_lines_lookup, Hline. simpl. f_equal.
      by apply rewrite_line_keeps.
    + unfold merge_timestamps. destruct (has_user_content md); auto.
Qed.

(** C6 (backfill). In an eligible log, a header with a content snippet that
    no ledger entry records is one of the unmatched headers, exactly once;
    the ledger after the merge is the old ledger followed by one record per
    unmatched header, all stamped with the current time, and the record of
    this header reads [now|snippet]; when no other header has the same
    snippet, no other new record carries it; the header itself, unless it
    already carries a timestamp, is rewritten with that same time. *)
Theorem merge_backfills_unmatched
    (now_ts md ledger : string) (i : nat) (line snippet : string) :
  has_user_content md = true →
  read_lines_text md !! i = Some line →
  is_conversation_header line = true →
  snippet_for (read_lines_text md) i = Some snippet →
  (∀ e ts, e ∈ existing_entries ledger → parse_entry e ≠ Some (ts, snippet)) →
  ∃ before after,
    missing_timestamps (header_snippet_map (read_lines_text md))
      (timestamp_map (existing_entries ledger))
      = before ++ (i, snippet) :: after ∧
    (i ∉ before.*1) ∧ (i ∉ after.*1) ∧
    (merge_timestamps now_ts md ledger).2
      = ledger +:+ backfill_text now_ts before
        +:+ (now_ts +:+ "|" +:+ snippet) +:+ newline
        +:+ backfill_text now_ts after ∧
    ((∀ j, snippet_for (read_lines_text md) j = Some snippet → j = i) →
     ∀ p, p ∈ before ++ after → p.2 ≠ snippet) ∧
    (header_has_timestamp line = false →
     merged_lines now_ts md ledger !! i
       = Some ("_**" +:+ extract_base_role line +:+ " (" +:+ now_ts +:+ ")**_")).
Proof.
  intros Hel Hline Hhdr Hsn Hno.
  set (hsm := header_snippet_map (read_lines_text md)).
  set (tsmap := timestamp_map (existing_entries ledger)).
  assert ((i, snippet) ∈ missing_timestamps hsm tsmap) as Hin.
  { apply list_elem_of_filter. split.
    - by apply timestamp_map_lookup_None.
    - apply elem_of_header_snippet_map. eauto. }
  destruct (list_elem_of_split _ _ Hin) as (before & after & Hsplit).
  assert (NoDup (missing_timestamps hsm tsmap).*1) as Hnd.
  { apply NoDup_fst_filter, NoDup_header_snippet_map_keys. }
  rewrite Hsplit, fmap_app, fmap_cons in Hnd.
  apply NoDup_app in Hnd as (_ & Hbefore & [Hafter _]%NoDup_cons).
  exists before, after. split; [done |]. split.
  { intros Hb. apply (Hbefore _ Hb). by left. }
  split; [done |]. split.
  - rewrite merge_eligible by done. simpl. unfold merged_ledger.
    fold hsm tsmap. rewrite Hsplit, backfill_text_app.
    unfold backfill_text at 2. simpl. unfold ledger_line.
    by rewrite !app_assoc'.
  - split.
    + intros Huniq [j s] Hp Hs. simpl in Hs. subst s.
      assert ((j, snippet) ∈ missing_timestamps hsm tsmap) as Hj.
      { rewrite Hsplit. apply elem_of_app in Hp as [Hp|Hp];
          apply elem_of_app; [by left | right; by right]. }
      apply list_elem_of_filter in Hj as [_ Hj].
      apply elem_of_header_snippet_map in Hj as (l & _ & _ & Hsj).
      apply Huniq in Hsj as ->.
      apply elem_of_app in Hp as [Hp|Hp].
      * apply Hbefore with i; [|by left].
        apply list_elem_of_fmap. by exists (i, snippet).
      * apply Hafter, list_elem_of_fmap. by exists (i, snippet).
    + intros Hts. rewrite merged_lines_lookup, Hline. simpl. f_equal.
      apply rewrite_line_embeds with snippet; [done | done | |].
      * apply snippet_lookup_header_snippet_map. eauto.
      * apply (backfill_map_in now_ts _ _ (i, snippet)). exact Hin.
Qed.

(** ** The ledger along a run *)

Section RunFacts.

Lemma watcher_pass_appends ts_now md ledger :
  ∃ new_lines, watcher_pass ts_now md ledger = ledger +:+ write_lines new_lines.
Proof.
  unfold watcher_pass. case_match.
  - eauto.
  - exists []. by rewrite app_empty_r.
Qed.

Lemma eligible_merge_appends now_ts md ledger :
  has_user_content md = true →
  ∃ new_lines,
    (merge_timestamps now_ts md ledger).2 = ledger +:+ write_lines new_lines.
Proof.
  intros Hel. rewrite merge_eligible by done. simpl.
  unfold merged_ledger, backfill_text. eauto.
Qed.

Lemma apply_op_appends o fs :
  clears_ledger o fs = false →
  ∃ new_lines,
    ledger_text (apply_op o fs) = ledger_text fs +:+ write_lines new_lines.
Proof.
  destruct o as [ts_now|now_ts|new_md]; simpl; intros Hc.
  - apply watcher_pass_appends.
  - apply eligible_merge_appends. by apply negb_false_iff.
  - exists []. by rewrite app_empty_r.
Qed.

End RunFacts.

(** C3, as the code has it: along a run of watcher passes, merges and
    writes of the wrapped tool in which no merge finds the log ineligible,
    the ledger only grows at its end, by whole newline-terminated lines. *)
Theorem ledger_append_only (ops : list operation) (fs : files) :
  never_clears ops fs = true →
  ∃ new_lines,
    ledger_text (run ops fs) = ledger_text fs +:+ write_lines new_lines.
Proof.
  revert fs. induction ops as [|o ops IH]; intros fs; simpl.
  - intros _. exists []. by rewrite app_empty_r.
  - intros [Hc Hrest]%andb_true_iff. apply negb_true_iff in Hc.
    destruct (apply_op_appends o fs Hc) as [l1 H1].
    destruct (IH _ Hrest) as [l2 H2].
    exists (l1 ++ l2). by rewrite H2, H1, write_lines_app, app_assoc'.
Qed.

(** ** Eligibility *)

Section EligibilityFacts.

Lemma scan_cons b l rest :
  user_content_scan b (l :: rest) =
    if is_marker (rstrip_nl l)
    then user_content_scan (startswith "_**User" (rstrip_nl l)) rest
    else if b && negb (skipped (strip (rstrip_nl l))) then true
    else user_content_scan b rest.
Proof. reflexivity. Qed.

Lemma scan_open_block raw_lines :
  open_block_with_content raw_lines → user_content_scan true raw_lines = true.
Proof.
  intros (gap & body & post & -> & Hgap & Hnm & Hc).
  induction Hgap as [|g gap Hg _ IH].
  - apply not_true_is_false in Hnm. unfold marker_line in Hnm.
    by rewrite app_nil_l, scan_cons, Hnm, Hc.
  - apply not_true_is_false in Hg.
    rewrite <- app_comm_cons, scan_cons, Hg.
    by destruct (skipped (strip (rstrip_nl g))).
Qed.

Lemma scan_user_turn b raw_lines :
  user_turn_with_content raw_lines → user_content_scan b raw_lines = true.
Proof.
  intros (pre & hdr & rest & -> & [Hm Hu] & Hopen). revert b.
  induction pre as [|p pre IH]; intros b.
  - unfold marker_line in Hm.
    rewrite app_nil_l, scan_cons, Hm, Hu. by apply scan_open_block.
  - rewrite <- app_comm_cons, scan_cons.
    destruct (is_marker (rstrip_nl p)); [apply IH |].
    destruct (b && negb (skipped (strip (rstrip_nl p)))); [done | apply IH].
Qed.

Lemma scan_true b raw_lines :
  user_content_scan b raw_lines = true →
  (b = true ∧ open_block_with_content raw_lines)
  ∨ user_turn_with_content raw_lines.
Proof.
  revert b. induction raw_lines as [|l rest IH]; intros b; [done |].
  rewrite scan_cons.
  destruct (is_marker (rstrip_nl l)) eqn:Hm.
  - intros [[Hu Hopen]|(pre & hdr & rest' & -> & Hh & Hopen)]%IH; right.
    + by exists [], l, rest.
    + by exists (l :: pre), hdr, rest'.
  - destruct (b && negb (skipped (strip (rstrip_nl l)))) eqn:Hb.
    + intros _. apply andb_true_iff in Hb as [-> Hs%negb_true_iff]. left.
      split; [done |]. exists [], l, rest. split; [done |].
      split; [constructor |]. split; [|done].
      unfold marker_line. congruence.
    + intros [[-> (gap & body & post & -> & Hgap & Hc)]
             |(pre & hdr & rest' & -> & Hh & Hopen)]%IH.
      * left. split; [done |]. exists (l :: gap), body, post.
        split; [done |]. split; [|done]. constructor; [|done].
        unfold marker_line. congruence.
      * right. by exists (l :: pre), hdr, rest'.
Qed.

(** The scan of [merge_timestamps] decides the rule of the specification. *)
Lemma has_user_content_spec md :
  has_user_content md = true ↔
  user_turn_with_content (file_lines (read_text md)).
Proof.
  unfold has_user_content. split.
  - intros [[? _]|H]%scan_true; done.
  - apply scan_user_turn.
Qed.

End EligibilityFacts.

(** C5 (ineligible logs). A log without a [User] header followed by
    non-empty, non-separator content is left as it is, and its ledger is
    emptied. *)
Theorem ineligible_merge_clears (now_ts md ledger : string) :
  ¬ user_turn_with_content (file_lines (read_text md)) →
  merge_timestamps now_ts md ledger = (md, "").
Proof.
  intros Hno. unfold merge_timestamps.
  destruct (has_user_content md) eqn:Hel; [|done].
  by apply has_user_content_spec in Hel.
Qed.

(** ** The base role of a header *)

Section RoleFacts.

#[local] Arguments String.append : simpl nomatch.

Lemma substring_0_app a b : String.substring 0 (String.length a) (a +:+ b) = a.
Proof.
  induction a as [|c a IH]; simpl; [by destruct b | by rewrite IH].
Qed.

Lemma slice_3_m3_markers content :
  slice_3_m3 ("_**" +:+ content +:+ "**_") = content.
Proof.
  unfold slice_3_m3. simpl. rewrite app_length. simpl.
  replace (String.length content + 3 - 3) with (String.length content) by lia.
  apply substring_0_app.
Qed.

Lemma contains_char_cons (c d : ascii) s :
  contains (String c "") (String d s) = Ascii.eqb c d || contains (String c "") s.
Proof.
  rewrite contains_unfold. simpl. rewrite andb_true_r.
  by destruct (Ascii.eqb c d).
Qed.

(** [content.split('(')[0]] is the text before the first parenthesis. *)
Lemma split_hd_before (sep : ascii) role suffix :
  contains (String sep "") role = false →
  hd "" (split sep (role +:+ String sep suffix)) = role.
Proof.
  induction role as [|c role IH]; simpl.
  - intros _. by rewrite Ascii.eqb_refl.
  - change (contains (String sep "") (String c role) = false
            → hd "" (split sep (String c (role +:+ String sep suffix)))
              = String c role).
    rewrite contains_char_cons, orb_false_iff. intros [Hc Hrole].
    simpl. rewrite Ascii.eqb_sym, Hc. specialize (IH Hrole).
    destruct (split sep (role +:+ String sep suffix)); simpl in *; by subst.
Qed.

Lemma extract_base_role_plain content :
  contains "(" content && contains ")" content = false →
  extract_base_role ("_**" +:+ content +:+ "**_") = strip content.
Proof.
  intros H. unfold extract_base_role. by rewrite slice_3_m3_markers, H.
Qed.

Lemma extract_base_role_parenthesis role suffix :
  contains "(" role = false →
  contains ")" (role +:+ "(" +:+ suffix) = true →
  extract_base_role ("_**" +:+ (role +:+ "(" +:+ suffix) +:+ "**_") = strip role.
Proof.
  intros Hrole Hclose. unfold extract_base_role.
  rewrite slice_3_m3_markers, Hclose, andb_true_r.
  assert (contains "(" (role +:+ "(" +:+ suffix) = true) as ->.
  { apply contains_spec. by exists role, suffix. }
  change ("(" +:+ suffix) with (String "(" suffix).
  by rewrite (split_hd_before "(" role suffix Hrole).
Qed.

End RoleFacts.

(** C8, as the code has it: the rewritten header keeps the text between
    the markers, stripped, when that text does not hold both an opening and
    a closing parenthesis; otherwise it keeps only what precedes the first
    opening parenthesis, so a parenthesised suffix is replaced by the
    timestamp. *)
Theorem rewrite_keeps_text_before_parenthesis
    (hsm : list (nat * string)) (tsmap : gmap string string) (i : nat)
    (content snippet ts : string) :
  role_word_in content →
  header_has_timestamp ("_**" +:+ content +:+ "**_") = false →
  snippet_lookup i hsm = Some snippet →
  tsmap !! snippet = Some ts →
  (contains "(" content && contains ")" content = false →
   rewrite_line hsm tsmap i ("_**" +:+ content +:+ "**_")
   = "_**" +:+ strip content +:+ " (" +:+ ts +:+ ")**_") ∧
  (∀ role suffix,
     content = role +:+ "(" +:+ suffix →
     contains "(" role = false →
     contains ")" content = true →
     rewrite_line hsm tsmap i ("_**" +:+ content +:+ "**_")
     = "_**" +:+ strip role +:+ " (" +:+ ts +:+ ")**_").
Proof.
  intros Hrole Hts Hs Hm.
  assert (is_conversation_header ("_**" +:+ content +:+ "**_") = true) as Hhdr.
  { apply is_conversation_header_spec. eauto. }
  split.
  - intros Hplain.
    rewrite (rewrite_line_embeds _ _ _ _ _ _ Hhdr Hts Hs Hm).
    by rewrite extract_base_role_plain.
  - intros role suffix -> Hopen Hclose.
    rewrite (rewrite_line_embeds _ _ _ _ _ _ Hhdr Hts Hs Hm).
    by rewrite extract_base_role_parenthesis.
Qed.

(** ** Line feeds written by a merge *)

Section LineFeedFacts.

#[local] Arguments String.append : simpl nomatch.

Lemma count_lf_app a b : count_lf (a +:+ b) = count_lf a + count_lf b.
Proof. induction a as [|c a IH]; simpl; [done | rewrite IH; lia]. Qed.

Lemma count_lf_write_lines ls : length ls ≤ count_lf (write_lines ls).
Proof.
  induction ls as [|l ls IH]; simpl; [done |].
  rewrite count_lf_app. simpl. lia.
Qed.

Lemma length_split_lf s : length (split LF s) = S (count_lf s).
Proof.
  induction s as [|c s IH]; simpl; [done |].
  destruct (Ascii.eqb c LF); simpl; [by rewrite IH |].
  destruct (split LF s); simpl in *; [done | lia].
Qed.

Lemma count_lf_replace_cr s : count_lf s ≤ count_lf (replace_cr s).
Proof.
  induction s as [|c s IH]; simpl; [done |].
  destruct (Ascii.eqb_spec c CR) as [->|]; simpl; lia.
Qed.

Lemma replace_crlf_cons c d s :
  replace_crlf (String c (String d s)) =
    if Ascii.eqb c CR && Ascii.eqb d LF
    then String LF (replace_crlf s)
    else String c (replace_crlf (String d s)).
Proof. reflexivity. Qed.

Lemma count_lf_replace_crlf_bounded n s :
  String.length s ≤ n → count_lf (replace_crlf s) = count_lf s.
Proof.
  revert s. induction n as [|n IH]; intros [|c [|d s]] Hlen;
    try done; try (simpl in Hlen; lia).
  rewrite replace_crlf_cons.
  destruct (Ascii.eqb c CR && Ascii.eqb d LF) eqn:Hcd.
  - apply andb_true_iff in Hcd as [->%Ascii.eqb_eq ->%Ascii.eqb_eq].
    cbn [count_lf]. rewrite IH by (simpl in Hlen; lia). done.
  - cbn [count_lf]. rewrite (IH (String d s)) by (simpl in Hlen |- *; lia).
    done.
Qed.

Lemma count_lf_replace_crlf s : count_lf (replace_crlf s) = count_lf s.
Proof. by apply (count_lf_replace_crlf_bounded (String.length s)). Qed.

Lemma count_lf_normalise s : count_lf s ≤ count_lf (replace_cr (replace_crlf s)).
Proof.
  etrans; [|apply count_lf_replace_cr]. by rewrite count_lf_replace_crlf.
Qed.

Lemma length_read_lines_text md : count_lf md < length (read_lines_text md).
Proof.
  unfold read_lines_text. rewrite length_split_lf.
  pose proof (count_lf_normalise (read_text md)).
  pose proof (count_lf_normalise md : count_lf md ≤ count_lf (read_text md)).
  lia.
Qed.

(** Every eligible merge leaves more line feeds in the log than it found:
    the last piece of the split text is written with a terminator of its
    own. *)
Lemma eligible_merge_adds_line_feed now_ts md ledger :
  has_user_content md = true →
  count_lf md < count_lf (merge_timestamps now_ts md ledger).1.
Proof.
  intros Hel. rewrite merge_eligible by done. simpl.
  eapply Nat.lt_le_trans; [|apply count_lf_write_lines].
  unfold merged_lines. rewrite length_imap. apply length_read_lines_text.
Qed.

End LineFeedFacts.

(** C1 (idempotence), what the code does: whenever the log written by one
    merge is still eligible, merging it again changes it. *)
Theorem second_merge_changes_the_log (now1 now2 md ledger : string) :
  has_user_content (merge_timestamps now1 md ledger).1 = true →
  (merge_timestamps now2 (merge_timestamps now1 md ledger).1
                         (merge_timestamps now1 md ledger).2).1
  ≠ (merge_timestamps now1 md ledger).1.
Proof.
  intros Hel Heq.
  pose proof (eligible_merge_adds_line_feed now2 _
                (merge_timestamps now1 md ledger).2 Hel) as Hlt.
  rewrite Heq in Hlt. lia.
Qed.

(** ** Stopping the watcher *)

Section StopFacts.

Import Supervisor.

Variable json_loads : string → option json.

Lemma poll_nothing pid_text observations :
  Forall nothing_recorded observations →
  pid_text = None ∨ pid_text = Some "" →
  poll pid_text observations = None ∨ poll pid_text observations = Some "".
Proof.
  intros Hall. revert pid_text.
  induction Hall as [|[content|] rest Hobs _ IH]; intros pid_text Hp; simpl;
    [done | | by apply IH].
  simpl in Hobs. rewrite Hobs. simpl. apply IH. by right.
Qed.

(** A missing or empty pidfile is nothing to stop. *)
Lemma stop_watcher_nothing_to_stop os observations :
  Forall nothing_recorded observations →
  stop_watcher json_loads os observations = Returned.
Proof.
  intros Hall. unfold stop_watcher.
  destruct (poll_nothing None observations Hall) as [-> | ->]; auto.
Qed.

End StopFacts.

(** C9, what the code does on a corrupted pidfile: when the text read from
    the pidfile is neither JSON nor a decimal number, the fallback
    [int(pid_text)] raises [ValueError] out of [stop_watcher]. *)
Theorem stop_watcher_raises_on_corrupt_pidfile
    (json_loads : string → option Supervisor.json) (os : Supervisor.os_answers)
    (observations : list (option string)) (pid_text : string) :
  Supervisor.poll None observations = Some pid_text →
  pid_text ≠ "" →
  json_loads pid_text = None →
  Supervisor.int_of_str pid_text = None →
  Supervisor.stop_watcher json_loads os observations
  = Supervisor.Raised Supervisor.ValueError.
Proof.
  intros Hpoll Hne Hjson Hint. unfold Supervisor.stop_watcher.
  rewrite Hpoll. apply String.eqb_neq in Hne. rewrite Hne.
  unfold Supervisor.parse_pid. by rewrite Hjson, Hint.
Qed.

(** C10 (what counts as a header). The header test of the snippet
    extraction holds exactly for the lines that start with [_**], end with
    [**_] and have [User] or [Agent] somewhere in between; the rewriting
    loop applies the same test; so [_**Agents overview**_] is a header, and
    a merge stamps it. *)
Theorem header_detection_is_syntactic :
  (∀ line,
     (is_conversation_header line = true ↔
      ∃ mid, line = "_**" +:+ mid +:+ "**_" ∧ role_word_in mid) ∧
     is_rewrite_header line = is_conversation_header line) ∧
  is_conversation_header "_**Agents overview**_" = true ∧
  (∀ now_ts,
     merged_lines now_ts
       (write_lines ["_**User**_"; "Hello"; "_**Agents overview**_"; "Three agents."])
       "" !! 2
     = Some ("_**Agents overview (" +:+ now_ts +:+ ")**_")).
Proof.
  split; [|split].
  - intros line. split.
    + apply is_conversation_header_spec.
    + apply is_rewrite_header_eq.
  - reflexivity.
  - intros now_ts. vm_compute. reflexivity.
Qed.

(** ** The scenarios of the specification, and concrete runs *)

Import Scenario.

(** Scenario A, whole files: both headers receive the recorded timestamps
    and the ledger is left as it was. *)
Example scenario_A (now_ts : string) :
  merge_timestamps now_ts two_turns two_records
  = (write_lines ["_**User (2024-01-01T00:00:00Z)**_"; "Hello";
                  "_**Agent (2024-01-01T00:00:05Z)**_"; "Hi there"; ""],
     two_records).
Proof. vm_compute. reflexivity. Qed.

(** Scenario A, through the general statement, for the [Agent] header. *)
Lemma merge_embeds_recorded_timestamp_witness :
  has_user_content two_turns = true ∧
  read_lines_text two_turns !! 2 = Some "_**Agent**_" ∧
  is_conversation_header "_**Agent**_" = true ∧
  header_has_timestamp "_**Agent**_" = false ∧
  snippet_for (read_lines_text two_turns) 2 = Some "Hi there" ∧
  "2024-01-01T00:00:05Z|Hi there" ∈ existing_entries two_records ∧
  parse_entry "2024-01-01T00:00:05Z|Hi there"
    = Some ("2024-01-01T00:00:05Z", "Hi there") ∧
  ∃ e' ts,
    e' ∈ existing_entries two_records ∧ parse_entry e' = Some (ts, "Hi there") ∧
    (merge_timestamps later two_turns two_records).1
      = write_lines (merged_lines later two_turns two_records) ∧
    merged_lines later two_turns two_records !! 2
      = Some ("_**" +:+ extract_base_role "_**Agent**_" +:+ " (" +:+ ts +:+ ")**_").
Proof.
  assert ("2024-01-01T00:00:05Z|Hi there" ∈ existing_entries two_records) as Hin.
  { vm_compute. do 2 constructor. }
  repeat (split; [first [reflexivity | exact Hin] |]).
  apply (merge_embeds_recorded_timestamp later two_turns two_records 2
           "_**Agent**_" "Hi there" "2024-01-01T00:00:05Z|Hi there"
           "2024-01-01T00:00:05Z");
    first [reflexivity | exact Hin].
Defined.

(** The failing run behind C1: the second merge adds one more empty line. *)
Example merge_twice_example :
  merge_timestamps later one_turn one_record
  = (write_lines ["_**User (2024-01-01T00:00:00Z)**_"; "Hello"; ""], one_record) ∧
  merge_timestamps later
    (write_lines ["_**User (2024-01-01T00:00:00Z)**_"; "Hello"; ""]) one_record
  = (write_lines ["_**User (2024-01-01T00:00:00Z)**_"; "Hello"; ""; ""], one_record).
Proof. split; vm_compute; reflexivity. Qed.

Lemma second_merge_changes_the_log_witness :
  has_user_content (merge_timestamps later one_turn one_record).1 = true ∧
  (merge_timestamps later (merge_timestamps later one_turn one_record).1
                          (merge_timestamps later one_turn one_record).2).1
  ≠ (merge_timestamps later one_turn one_record).1.
Proof.
  split; [reflexivity |].
  apply (second_merge_changes_the_log later later one_turn one_record).
  reflexivity.
Defined.

(** The run that refutes C3 as stated: the watcher records the [Agent]
    turn, then the merge finds no [User] content and empties the ledger. *)
Lemma ineligible_merge_shrinks_ledger :
  ledger_text (run [WatcherPass "2024-01-01T00:00:05Z"] agent_only)
    = write_lines ["2024-01-01T00:00:05Z|Hi there"] ∧
  ledger_text (run [WatcherPass "2024-01-01T00:00:05Z"; Merge later] agent_only)
    = "" ∧
  ¬ ∃ appended,
      ledger_text (run [WatcherPass "2024-01-01T00:00:05Z"; Merge later] agent_only)
      = ledger_text (run [WatcherPass "2024-01-01T00:00:05Z"] agent_only)
        +:+ appended.
Proof.
  split; [reflexivity |]. split; [reflexivity |].
  intros [appended H]. vm_compute in H. discriminate H.
Defined.

Lemma ledger_append_only_witness :
  never_clears [WatcherPass "2024-01-01T00:00:05Z"; Merge later]
    {| md_text := two_turns; ledger_text := one_record |} = true ∧
  ∃ new_lines,
    ledger_text (run [WatcherPass "2024-01-01T00:00:05Z"; Merge later]
                   {| md_text := two_turns; ledger_text := one_record |})
    = one_record +:+ write_lines new_lines.
Proof.
  split; [reflexivity |].
  apply (ledger_append_only [WatcherPass "2024-01-01T00:00:05Z"; Merge later]
           {| md_text := two_turns; ledger_text := one_record |}).
  reflexivity.
Defined.

(** Scenario B: the header followed by a separator only is written through
    and gets no ledger record. *)
Example scenario_B :
  merge_timestamps later separator_only ""
  = (write_lines ["_**User (2024-01-02T09:30:00Z)**_"; "Hello"; "_**Agent**_";
                  "---"; ""],
     write_lines ["2024-01-02T09:30:00Z|Hello"]).
Proof. vm_compute. reflexivity. Qed.

Lemma no_content_no_timestamp_witness :
  read_lines_text separator_only !! 2 = Some "_**Agent**_" ∧
  Forall (λ l, skipped (strip l) = true) (drop 3 (read_lines_text separator_only)) ∧
  snippet_lookup 2 (header_snippet_map (read_lines_text separator_only)) = None ∧
  (∀ s, (2, s) ∉ missing_timestamps
                   (header_snippet_map (read_lines_text separator_only))
                   (timestamp_map (existing_entries ""))) ∧
  merged_lines later separator_only "" !! 2 = Some "_**Agent**_" ∧
  ((merge_timestamps later separator_only "").1 = separator_only ∨
   (merge_timestamps later separator_only "").1
     = write_lines (merged_lines later separator_only "")).
Proof.
  assert (Forall (λ l, skipped (strip l) = true)
            (drop 3 (read_lines_text separator_only))) as Hall.
  { vm_compute. repeat constructor. }
  split; [reflexivity |]. split; [exact Hall |].
  apply (no_content_no_timestamp later separator_only "" 2 "_**Agent**_");
    [reflexivity | exact Hall].
Defined.

(** Scenario D: the bare [User] header. *)
Lemma ineligible_merge_clears_witness :
  ¬ user_turn_with_content (file_lines (read_text bare_user_header)) ∧
  merge_timestamps later bare_user_header two_records = (bare_user_header, "").
Proof.
  assert (¬ user_turn_with_content (file_lines (read_text bare_user_header)))
    as Hno.
  { intros H%has_user_content_spec. vm_compute in H. discriminate H. }
  split; [exact Hno |].
  apply (ineligible_merge_clears later bare_user_header two_records Hno).
Defined.

(** Scenario C: a turn the watcher did not record. *)
Example scenario_C :
  merge_timestamps later one_turn ""
  = (write_lines ["_**User (2024-01-02T09:30:00Z)**_"; "Hello"; ""],
     write_lines ["2024-01-02T09:30:00Z|Hello"]).
Proof. vm_compute. reflexivity. Qed.

Lemma merge_backfills_unmatched_witness :
  has_user_content one_turn = true ∧
  read_lines_text one_turn !! 0 = Some "_**User**_" ∧
  is_conversation_header "_**User**_" = true ∧
  snippet_for (read_lines_text one_turn) 0 = Some "Hello" ∧
  (∀ e ts, e ∈ existing_entries "" → parse_entry e ≠ Some (ts, "Hello")) ∧
  ∃ before after,
    missing_timestamps (header_snippet_map (read_lines_text one_turn))
      (timestamp_map (existing_entries ""))
      = before ++ (0, "Hello") :: after ∧
    (0 ∉ before.*1) ∧ (0 ∉ after.*1) ∧
    (merge_timestamps later one_turn "").2
      = "" +:+ backfill_text later before
        +:+ (later +:+ "|" +:+ "Hello") +:+ newline
        +:+ backfill_text later after ∧
    ((∀ j, snippet_for (read_lines_text one_turn) j = Some "Hello" → j = 0) →
     ∀ p, p ∈ before ++ after → p.2 ≠ "Hello") ∧
    (header_has_timestamp "_**User**_" = false →
     merged_lines later one_turn "" !! 0
       = Some ("_**" +:+ extract_base_role "_**User**_" +:+ " (" +:+ later +:+ ")**_")).
Proof.
  assert (∀ e ts, e ∈ existing_entries "" → parse_entry e ≠ Some (ts, "Hello"))
    as Hno.
  { intros e ts Hin. vm_compute in Hin. by apply elem_of_nil in Hin. }
  repeat (split; [first [reflexivity | exact Hno] |]).
  apply (merge_backfills_unmatched later one_turn "" 0 "_**User**_" "Hello");
    first [reflexivity | exact Hno].
Defined.

(** The input that refutes C7 as stated: of two records for [Hello], the
    header receives the timestamp of the second. *)
Lemma first_entry_is_not_used :
  existing_entries duplicate_records
    = ["2024-01-01T00:00:00Z|Hello"; "2024-01-01T00:00:07Z|Hello"] ∧
  snippet_for (read_lines_text one_turn) 0 = Some "Hello" ∧
  merged_lines later one_turn duplicate_records !! 0
    = Some "_**User (2024-01-01T00:00:07Z)**_" ∧
  merged_lines later one_turn duplicate_records !! 0
    ≠ Some "_**User (2024-01-01T00:00:00Z)**_".
Proof.
  split; [reflexivity |]. split; [reflexivity |]. split; [reflexivity |].
  intros H. vm_compute in H. discriminate H.
Defined.

Lemma merge_uses_last_entry_witness :
  has_user_content one_turn = true ∧
  read_lines_text one_turn !! 0 = Some "_**User**_" ∧
  is_conversation_header "_**User**_" = true ∧
  header_has_timestamp "_**User**_" = false ∧
  snippet_for (read_lines_text one_turn) 0 = Some "Hello" ∧
  existing_entries duplicate_records
    = ["2024-01-01T00:00:00Z|Hello"] ++ "2024-01-01T00:00:07Z|Hello" :: [] ∧
  parse_entry "2024-01-01T00:00:07Z|Hello" = Some ("2024-01-01T00:00:07Z", "Hello") ∧
  (∀ e' ts', e' ∈ @nil string → parse_entry e' ≠ Some (ts', "Hello")) ∧
  merged_lines later one_turn duplicate_records !! 0
    = Some ("_**" +:+ extract_base_role "_**User**_"
            +:+ " (" +:+ "2024-01-01T00:00:07Z" +:+ ")**_").
Proof.
  assert (∀ e' ts', e' ∈ @nil string → parse_entry e' ≠ Some (ts', "Hello"))
    as Hpost.
  { intros e' ts' Hin. by apply elem_of_nil in Hin. }
  repeat (split; [first [reflexivity | exact Hpost] |]).
  apply (merge_uses_last_entry later one_turn duplicate_records 0 "_**User**_"
           "Hello" ["2024-01-01T00:00:00Z|Hello"] "2024-01-01T00:00:07Z|Hello" []
           "2024-01-01T00:00:07Z");
    first [reflexivity | exact Hpost].
Defined.

(** The input that refutes C8 as stated: the model name in parentheses is
    gone from the rewritten header. *)
Lemma model_name_suffix_is_dropped :
  read_lines_text with_model_name !! 2 = Some "_**Agent (claude-sonnet-4)**_" ∧
  merged_lines later with_model_name two_records !! 2
    = Some "_**Agent (2024-01-01T00:00:05Z)**_" ∧
  contains "claude-sonnet-4" "_**Agent (2024-01-01T00:00:05Z)**_" = false.
Proof. split; [reflexivity |]. split; reflexivity. Defined.

Lemma rewrite_keeps_text_before_parenthesis_witness :
  role_word_in "Agent (claude-sonnet-4)" ∧
  header_has_timestamp ("_**" +:+ "Agent (claude-sonnet-4)" +:+ "**_") = false ∧
  snippet_lookup 2 [(0, "Hello"); (2, "Hi there")] = Some "Hi there" ∧
  ({["Hi there" := "2024-01-01T00:00:05Z"]} : gmap string string) !! "Hi there"
    = Some "2024-01-01T00:00:05Z" ∧
  (contains "(" "Agent (claude-sonnet-4)" && contains ")" "Agent (claude-sonnet-4)"
   = false →
   rewrite_line [(0, "Hello"); (2, "Hi there")]
     {["Hi there" := "2024-01-01T00:00:05Z"]} 2
     ("_**" +:+ "Agent (claude-sonnet-4)" +:+ "**_")
   = "_**" +:+ strip "Agent (claude-sonnet-4)"
     +:+ " (" +:+ "2024-01-01T00:00:05Z" +:+ ")**_") ∧
  (∀ role suffix,
     "Agent (claude-sonnet-4)" = role +:+ "(" +:+ suffix →
     contains "(" role = false →
     contains ")" "Agent (claude-sonnet-4)" = true →
     rewrite_line [(0, "Hello"); (2, "Hi there")]
       {["Hi there" := "2024-01-01T00:00:05Z"]} 2
       ("_**" +:+ "Agent (claude-sonnet-4)" +:+ "**_")
     = "_**" +:+ strip role +:+ " (" +:+ "2024-01-01T00:00:05Z" +:+ ")**_").
Proof.
  assert (role_word_in "Agent (claude-sonnet-4)") as Hrole
    by (right; reflexivity).
  split; [exact Hrole |]. repeat (split; [reflexivity |]).
  apply (rewrite_keeps_text_before_parenthesis [(0, "Hello"); (2, "Hi there")]
           {["Hi there" := "2024-01-01T00:00:05Z"]} 2
           "Agent (claude-sonnet-4)" "Hi there" "2024-01-01T00:00:05Z");
    first [exact Hrole | reflexivity].
Defined.

(** The failing call behind C9: a pidfile that holds [garbage]. *)
Lemma stop_watcher_raises_on_corrupt_pidfile_witness :
  Supervisor.poll None [Some "garbage"] = Some "garbage" ∧
  "garbage" ≠ "" ∧
  rejects_all "garbage" = None ∧
  Supervisor.int_of_str "garbage" = None ∧
  Supervisor.stop_watcher rejects_all no_signal_needed [Some "garbage"]
  = Supervisor.Raised Supervisor.ValueError.
Proof.
  assert ("garbage" ≠ "") as Hne by discriminate.
  repeat (split; [first [reflexivity | exact Hne] |]).
  apply (stop_watcher_raises_on_corrupt_pidfile rejects_all no_signal_needed
           [Some "garbage"] "garbage");
    first [reflexivity | exact Hne].
Defined.

(** The scan for a snippet does not stop at the next header: a header
    followed directly by another header takes that header's text as its
    snippet, and is stamped. *)
Example next_header_counts_as_content :
  snippet_for ["_**User**_"; "Hello"; "_**Agent**_"; ""; "_**User**_"; "Bye"] 2
    = Some "_**User**_" ∧
  merged_lines later
    (write_lines ["_**User**_"; "Hello"; "_**Agent**_"; ""; "_**User**_"; "Bye"])
    "" !! 2
  = Some "_**Agent (2024-01-02T09:30:00Z)**_".
Proof. split; reflexivity. Qed.

(** * Further properties of the wrapper *)

(** ** Characters, lines and stripping *)

Section TextFacts.

#[local] Arguments String.append : simpl nomatch.

Lemma all_chars_app p a b : all_chars p (a +:+ b) = all_chars p a && all_chars p b.
Proof.
  induction a as [|c a IH]; simpl; [done |]. by rewrite IH, andb_assoc.
Qed.

Lemma all_chars_impl (p q : ascii → bool) s :
  (∀ c, p c = true → q c = true) → all_chars p s = true → all_chars q s = true.
Proof.
  intros Hpq. induction s as [|c s IH]; simpl; [done |].
  intros [Hc Hs]%andb_true_iff. by rewrite (Hpq _ Hc), IH.
Qed.

Lemma all_chars_lstrip p s : all_chars p s = true → all_chars p (lstrip s) = true.
Proof.
  induction s as [|c s IH]; simpl; [done |].
  intros H. destruct (isspace c); [|done].
  apply andb_true_iff in H as [_ H]. by apply IH.
Qed.

Lemma all_chars_rstrip p s : all_chars p s = true → all_chars p (rstrip s) = true.
Proof.
  induction s as [|c s IH]; simpl; [done |].
  intros [Hc Hs]%andb_true_iff. specialize (IH Hs).
  destruct (rstrip s) as [|d r]; simpl in *.
  - destruct (isspace c); simpl; [done | by rewrite Hc].
  - by rewrite Hc, IH.
Qed.

Lemma all_chars_strip p s : all_chars p s = true → all_chars p (strip s) = true.
Proof. intros H. by apply all_chars_lstrip, all_chars_rstrip. Qed.

Lemma one_line_strip s : one_line s = true → one_line (strip s) = true.
Proof.
  unfold one_line, lf_free, cr_free. intros [H1 H2]%andb_true_iff.
  by rewrite !all_chars_strip.
Qed.

(** The pieces of [split] hold no separator and keep what held of the text. *)
Lemma split_pieces p sep s :
  all_chars p s = true →
  Forall (λ l, all_chars p l = true ∧ all_chars (λ c, negb (Ascii.eqb c sep)) l = true)
         (split sep s).
Proof.
  induction s as [|c s IH]; simpl.
  - intros _. by repeat constructor.
  - intros [Hc Hs]%andb_true_iff. specialize (IH Hs).
    destruct (Ascii.eqb c sep) eqn:Hsep.
    + constructor; [done | exact IH].
    + destruct (split sep s) as [|h t]; [by repeat constructor; simpl; rewrite ?Hc, ?Hsep |].
      inversion IH as [|? ? [Hh1 Hh2] Ht]; subst. constructor; [|done].
      simpl. by rewrite Hc, Hsep, Hh1, Hh2.
Qed.

Lemma cr_free_replace_cr s : cr_free (replace_cr s) = true.
Proof.
  unfold cr_free. induction s as [|c s IH]; simpl; [done |].
  rewrite IH, andb_true_r. by destruct (Ascii.eqb_spec c CR) as [->|Hc%Ascii.eqb_neq]; [|rewrite Hc].
Qed.

Lemma replace_cr_id s : cr_free s = true → replace_cr s = s.
Proof.
  unfold cr_free. induction s as [|c s IH]; simpl; [done |].
  intros [Hc Hs]%andb_true_iff. rewrite IH by done.
  apply negb_true_iff in Hc. by rewrite Hc.
Qed.

Lemma replace_crlf_id s : cr_free s = true → replace_crlf s = s.
Proof.
  unfold cr_free. induction s as [|c s IH]; [done |].
  intros [Hc Hs]%andb_true_iff. apply negb_true_iff in Hc.
  destruct s as [|d s]; [done |].
  rewrite replace_crlf_cons, Hc. simpl andb. by rewrite (IH Hs).
Qed.

Lemma read_text_id s : cr_free s = true → read_text s = s.
Proof.
  intros H. unfold read_text. by rewrite replace_crlf_id, replace_cr_id.
Qed.

(** The lines of [read_lines_text] hold neither LF nor CR. *)
Lemma read_lines_text_one_line md :
  Forall (λ l, one_line l = true) (read_lines_text md).
Proof.
  unfold read_lines_text.
  pose proof (split_pieces _ LF _ (cr_free_replace_cr (replace_crlf (read_text md))))
    as H.
  eapply Forall_impl; [exact H |]. intros l [H1 H2].
  unfold one_line, lf_free, cr_free. by rewrite H2, H1.
Qed.

Lemma split_lf_line l rest :
  lf_free l = true → split LF (l +:+ String LF rest) = l :: split LF rest.
Proof.
  unfold lf_free. induction l as [|c l IH]; simpl.
  - by intros _.
  - intros [Hc Hl]%andb_true_iff. apply negb_true_iff in Hc.
    by rewrite Hc, (IH Hl).
Qed.

Lemma split_lf_write_lines ls :
  Forall (λ l, lf_free l = true) ls → split LF (write_lines ls) = ls ++ [""].
Proof.
  induction 1 as [|l ls Hl _ IH]; [done |].
  simpl write_lines. by rewrite split_lf_line, IH.
Qed.

Lemma file_lines_line l rest :
  lf_free l = true →
  file_lines (l +:+ String LF rest) = (l +:+ newline) :: file_lines rest.
Proof.
  unfold lf_free. induction l as [|c l IH]; simpl.
  - by intros _.
  - intros [Hc Hl]%andb_true_iff. apply negb_true_iff in Hc.
    by rewrite Hc, (IH Hl).
Qed.

Lemma file_lines_write_lines ls :
  Forall (λ l, lf_free l = true) ls →
  file_lines (write_lines ls) = (λ l, l +:+ newline) <$> ls.
Proof.
  induction 1 as [|l ls Hl _ IH]; [done |].
  simpl write_lines. rewrite file_lines_line by done. by rewrite IH.
Qed.

Lemma cr_free_write_lines ls :
  Forall (λ l, cr_free l = true) ls → cr_free (write_lines ls) = true.
Proof.
  unfold cr_free. induction 1 as [|l ls Hl _ IH]; [done |].
  simpl write_lines. rewrite all_chars_app, Hl. simpl. by rewrite IH.
Qed.


Lemma write_lines_split s : write_lines (split LF s) = s +:+ newline.
Proof.
  induction s as [|c s IH]; [done |]. simpl split.
  destruct (Ascii.eqb_spec c LF) as [->|Hc].
  - simpl. by rewrite IH.
  - destruct (split LF s) as [|h t].
    + exfalso. destruct s; discriminate IH.
    + simpl in *. by rewrite IH.
Qed.

Lemma rstrip_app_spaces s t :
  all_chars isspace t = true → rstrip (s +:+ t) = rstrip s.
Proof.
  intros Ht. induction s as [|c s IH]; simpl.
  - induction t as [|d t IHt]; simpl in *; [done |].
    apply andb_true_iff in Ht as [Hd Ht]. by rewrite (IHt Ht), Hd.
  - by rewrite IH.
Qed.

Lemma strip_line l : strip (l +:+ newline) = strip l.
Proof. unfold strip. by rewrite rstrip_app_spaces. Qed.

Lemma rstrip_idemp s : rstrip (rstrip s) = rstrip s.
Proof.
  induction s as [|c s IH]; simpl; [done |].
  destruct (rstrip s) as [|d r] eqn:Hr; simpl.
  - destruct (isspace c) eqn:Hc; simpl; [done | by rewrite Hc].
  - simpl in IH. by rewrite IH.
Qed.

Lemma lstrip_idemp s : lstrip (lstrip s) = lstrip s.
Proof.
  induction s as [|c s IH]; simpl; [done |].
  destruct (isspace c) eqn:Hc; simpl; [done | by rewrite Hc].
Qed.

Lemma rstrip_lstrip s : rstrip (lstrip s) = lstrip (rstrip s).
Proof.
  induction s as [|c s IH]; [done |]. simpl lstrip. simpl rstrip.
  destruct (isspace c) eqn:Hc.
  - rewrite IH. destruct (rstrip s) as [|d r]; simpl; [done | by rewrite Hc].
  - simpl rstrip. destruct (rstrip s) as [|d r]; simpl; by rewrite Hc.
Qed.

Lemma strip_idemp s : strip (strip s) = strip s.
Proof.
  unfold strip. by rewrite rstrip_lstrip, rstrip_idemp, lstrip_idemp.
Qed.

Lemma strip_lstrip s : strip (lstrip s) = strip s.
Proof. unfold strip. by rewrite rstrip_lstrip, lstrip_idemp. Qed.

Lemma strip_rstrip s : strip (rstrip s) = strip s.
Proof. unfold strip. by rewrite rstrip_idemp. Qed.

End TextFacts.

(** X1. Reading back what the rewriting loop wrote: the lines come back
    as written, followed by one empty piece for the text after the last
    line feed. *)
Theorem read_lines_text_write_lines (ls : list string) :
  Forall (λ l, one_line l = true) ls →
  read_lines_text (write_lines ls) = ls ++ [""].
Proof.
  intros Hls.
  assert (Forall (λ l, lf_free l = true) ls) as Hlf.
  { eapply Forall_impl; [exact Hls |]. by intros l [? _]%andb_true_iff. }
  assert (cr_free (write_lines ls) = true) as Hcr.
  { apply cr_free_write_lines. eapply Forall_impl; [exact Hls |].
    by intros l [_ ?]%andb_true_iff. }
  unfold read_lines_text.
  rewrite (read_text_id _ Hcr), (replace_crlf_id _ Hcr), (replace_cr_id _ Hcr).
  by apply split_lf_write_lines.
Qed.

Lemma read_lines_text_write_lines_witness :
  Forall (λ l, one_line l = true) ["_**User**_"; "Hello"] ∧
  read_lines_text (write_lines ["_**User**_"; "Hello"])
  = ["_**User**_"; "Hello"] ++ [""].
Proof.
  assert (Forall (λ l, one_line l = true) ["_**User**_"; "Hello"]) as H
    by (repeat constructor).
  split; [exact H |]. apply (read_lines_text_write_lines _ H).
Defined.

Section MergeShape.

Lemma imap_fixed {A} (f : nat → A → A) (l : list A) :
  (∀ i x, l !! i = Some x → f i x = x) → imap f l = l.
Proof.
  intros H. apply list_eq. intros i. rewrite list_lookup_imap.
  destruct (l !! i) as [x|] eqn:Hx; simpl; [|done]. by rewrite (H i x Hx).
Qed.

Lemma normalise_read_text md :
  replace_cr (replace_crlf (read_text md)) = read_text md.
Proof.
  assert (cr_free (read_text md) = true) as Hcr by apply cr_free_replace_cr.
  by rewrite (replace_crlf_id _ Hcr), (replace_cr_id _ Hcr).
Qed.

End MergeShape.

(** X2. An eligible log in which every header already carries a timestamp
    is rewritten as its text with line endings normalised to LF, plus one
    line feed; nothing else changes, whatever the ledger holds. *)
Theorem merge_of_stamped_log (now_ts md ledger : string) :
  has_user_content md = true →
  (∀ i line, read_lines_text md !! i = Some line →
             is_conversation_header line = true →
             header_has_timestamp line = true) →
  (merge_timestamps now_ts md ledger).1 = read_text md +:+ newline.
Proof.
  intros Hel Hall. rewrite merge_eligible by done. simpl.
  unfold merged_lines. rewrite imap_fixed.
  - unfold read_lines_text. by rewrite write_lines_split, normalise_read_text.
  - intros i line Hline. unfold rewrite_line. rewrite is_rewrite_header_eq.
    destruct (is_conversation_header line) eqn:Hh; [|done].
    by rewrite (Hall i line Hline Hh).
Qed.

Lemma merge_of_stamped_log_witness :
  has_user_content
    (write_lines ["_**User (2024-01-01T00:00:00Z)**_"; "Hello"]) = true ∧
  (∀ i line,
     read_lines_text
       (write_lines ["_**User (2024-01-01T00:00:00Z)**_"; "Hello"]) !! i
     = Some line →
     is_conversation_header line = true →
     header_has_timestamp line = true) ∧
  (merge_timestamps Scenario.later
     (write_lines ["_**User (2024-01-01T00:00:00Z)**_"; "Hello"])
     Scenario.one_record).1
  = read_text (write_lines ["_**User (2024-01-01T00:00:00Z)**_"; "Hello"])
    +:+ newline.
Proof.
  assert (∀ i line,
     read_lines_text
       (write_lines ["_**User (2024-01-01T00:00:00Z)**_"; "Hello"]) !! i
     = Some line →
     is_conversation_header line = true →
     header_has_timestamp line = true) as Hall.
  { intros [|[|[|i]]] line Hline Hh; vm_compute in Hline;
      try discriminate Hline; injection Hline as <-;
      first [reflexivity | discriminate Hh]. }
  split; [reflexivity |]. split; [exact Hall |].
  apply (merge_of_stamped_log Scenario.later _ Scenario.one_record);
    [reflexivity | exact Hall].
Defined.

(** ** Ledger records read back *)

Section RecordFacts.

#[local] Arguments String.append : simpl nomatch.

Lemma lstrip_app_nonspace a c b :
  isspace c = false → lstrip (a +:+ String c b) = lstrip a +:+ String c b.
Proof.
  intros Hc. induction a as [|x a IH]; simpl; [by rewrite Hc |].
  by destruct (isspace x).
Qed.

Lemma rstrip_cons_nonspace c b :
  isspace c = false → rstrip (String c b) = String c (rstrip b).
Proof. intros Hc. simpl. destruct (rstrip b); [by rewrite Hc | done]. Qed.

Lemma rstrip_app_nonspace a c b :
  isspace c = false → rstrip (a +:+ String c b) = a +:+ String c (rstrip b).
Proof.
  intros Hc. induction a as [|x a IH].
  - by apply rstrip_cons_nonspace.
  - rewrite app_cons. simpl rstrip. rewrite IH. by destruct a.
Qed.

Lemma split1_app sep a b :
  all_chars (λ c, negb (Ascii.eqb c sep)) a = true →
  split1 sep (a +:+ String sep b) = [a; b].
Proof.
  induction a as [|x a IH]; simpl.
  - intros _. by rewrite Ascii.eqb_refl.
  - intros [Hx Ha]%andb_true_iff. apply negb_true_iff in Hx.
    by rewrite Hx, (IH Ha).
Qed.

Lemma strip_ledger_line ts snippet :
  strip (ledger_line ts snippet) = lstrip ts +:+ "|" +:+ rstrip snippet.
Proof.
  unfold strip, ledger_line.
  change ("|" +:+ snippet) with (String "|" snippet).
  rewrite rstrip_app_nonspace by done. by rewrite lstrip_app_nonspace.
Qed.

Lemma strip_ledger_line_nonempty ts snippet : strip (ledger_line ts snippet) ≠ "".
Proof. rewrite strip_ledger_line. by destruct (lstrip ts). Qed.

Lemma parse_entry_strip_ledger_line ts snippet :
  all_chars (λ c, negb (Ascii.eqb c "|")) ts = true →
  parse_entry (strip (ledger_line ts snippet)) = Some (strip ts, strip snippet).
Proof.
  intros Hts. rewrite strip_ledger_line. unfold parse_entry.
  change ("|" +:+ rstrip snippet) with (String "|" (rstrip snippet)).
  rewrite split1_app by (by apply all_chars_lstrip).
  by rewrite strip_lstrip, strip_rstrip.
Qed.

Lemma one_line_ledger_line ts snippet :
  one_line ts = true → one_line snippet = true →
  one_line (ledger_line ts snippet) = true.
Proof.
  unfold one_line, lf_free, cr_free, ledger_line.
  intros [H1 H2]%andb_true_iff [H3 H4]%andb_true_iff.
  rewrite !all_chars_app, H1, H2, H3, H4. done.
Qed.

Lemma existing_entries_write_lines ls :
  Forall (λ l, one_line l = true) ls →
  existing_entries (write_lines ls) = filter (λ ln, ln ≠ "") (strip <$> ls).
Proof.
  intros Hls. unfold existing_entries.
  rewrite read_text_id.
  - rewrite file_lines_write_lines.
    + rewrite <- list_fmap_compose. f_equal. apply list_fmap_ext.
      intros _ l _. simpl. apply strip_line.
    + eapply Forall_impl; [exact Hls |]. by intros l [? _]%andb_true_iff.
  - apply cr_free_write_lines. eapply Forall_impl; [exact Hls |].
    by intros l [_ ?]%andb_true_iff.
Qed.

Lemma existing_entries_records ts snippets :
  one_line ts = true →
  Forall (λ s, one_line s = true) snippets →
  existing_entries (write_lines (ledger_line ts <$> snippets))
  = (λ s, strip (ledger_line ts s)) <$> snippets.
Proof.
  intros Hts Hsn. rewrite existing_entries_write_lines.
  - rewrite <- list_fmap_compose.
    induction snippets as [|s snippets IH]; [done |].
    inversion Hsn; subst. rewrite !fmap_cons, filter_cons.
    rewrite decide_True by apply strip_ledger_line_nonempty.
    by rewrite IH.
  - apply Forall_fmap. eapply Forall_impl; [exact Hsn |].
    intros s Hs. by apply one_line_ledger_line.
Qed.

End RecordFacts.

(** X3. A record written as [ts|snippet] on a line of its own is read back
    as one ledger entry that parses to the same timestamp and snippet (up to
    surrounding white space); the timestamp must not hold a bar, the
    snippet may. *)
Theorem ledger_record_round_trip (ts snippet : string) :
  one_line ts = true →
  one_line snippet = true →
  all_chars (λ c, negb (Ascii.eqb c "|")) ts = true →
  ∃ e, existing_entries (write_lines [ledger_line ts snippet]) = [e] ∧
       parse_entry e = Some (strip ts, strip snippet).
Proof.
  intros Hts Hsn Hbar. exists (strip (ledger_line ts snippet)). split.
  - apply (existing_entries_records ts [snippet] Hts). by constructor.
  - by apply parse_entry_strip_ledger_line.
Qed.

Lemma ledger_record_round_trip_witness :
  one_line "2024-01-01T00:00:00Z" = true ∧
  one_line "a | b" = true ∧
  all_chars (λ c, negb (Ascii.eqb c "|")) "2024-01-01T00:00:00Z" = true ∧
  ∃ e, existing_entries (write_lines [ledger_line "2024-01-01T00:00:00Z" "a | b"])
       = [e] ∧
       parse_entry e = Some (strip "2024-01-01T00:00:00Z", strip "a | b").
Proof.
  repeat (split; [reflexivity |]).
  apply (ledger_record_round_trip "2024-01-01T00:00:00Z" "a | b"); reflexivity.
Defined.

(** ** Snippet extraction *)

Section ExtractionFacts.

Lemma first_meaningful_Some rest s :
  first_meaningful rest = Some s ↔
  ∃ n l, rest !! n = Some l ∧ strip l = s ∧ skipped s = false ∧
         ∀ k l', k < n → rest !! k = Some l' → skipped (strip l') = true.
Proof.
  induction rest as [|x rest IH]; simpl.
  - split; [done | by intros (n & l & Hl & _)].
  - destruct (skipped (strip x)) eqn:Hx.
    + rewrite IH. split.
      * intros (n & l & Hl & Hs & Hns & Hbefore). exists (S n), l.
        repeat split; try done. intros [|k] l' Hk Hl'; simpl in Hl'.
        -- by injection Hl' as <-.
        -- apply (Hbefore k); [lia | done].
      * intros ([|n] & l & Hl & Hs & Hns & Hbefore); simpl in Hl.
        -- injection Hl as <-. congruence.
        -- exists n, l. repeat split; try done. intros k l' Hk Hl'.
           apply (Hbefore (S k)); [lia | done].
    + split.
      * intros [= <-]. exists 0, x. repeat split; try done. intros k l' Hk. lia.
      * intros ([|n] & l & Hl & Hs & Hns & Hbefore); simpl in Hl.
        -- by injection Hl as <-; subst.
        -- specialize (Hbefore 0 x). rewrite Hbefore in Hx; [done | lia | done].
Qed.

Lemma snippet_for_first_meaningful lines i s :
  snippet_for lines i = Some s ↔
  first_meaningful (drop (S i) lines) = Some s ∧
  s ≠ from_option strip "" (lines !! i).
Proof.
  unfold snippet_for, first_meaningful_line_after.
  destruct (first_meaningful (drop (S i) lines)) as [c|] eqn:Hf.
  - assert (skipped c = false) as Hc.
    { apply first_meaningful_Some in Hf as (n & l & _ & _ & H & _). done. }
    unfold skipped in Hc. apply orb_false_iff in Hc as [Hc1 Hc2].
    rewrite Hc1, Hc2. simpl.
    replace (match lines !! i with Some l => strip l | None => "" end)
      with (from_option strip "" (lines !! i)) by (by destruct (lines !! i)).
    destruct (String.eqb_spec c (from_option strip "" (lines !! i))) as [He|He];
      simpl; split.
    + done.
    + intros [[= <-] Hne]. done.
    + intros [= <-]. done.
    + intros [[= <-] _]. done.
  - split; [|by intros [? _]].
    destruct (lines !! i) as [l|]; simpl.
    + by rewrite String.eqb_refl, andb_false_r.
    + done.
Qed.

Lemma watcher_snippets_values lines :
  watcher_snippets lines = (header_snippet_map lines).*2.
Proof.
  unfold watcher_snippets, header_snippet_map.
  induction (find_conversation_header_indices lines) as [|h idxs IH]; [done |].
  simpl. destruct (snippet_for lines h) as [s|]; simpl; [f_equal |]; exact IH.
Qed.

Lemma header_indices_from_lower k lines j :
  j ∈ header_indices_from k lines → k ≤ j.
Proof. by intros [? _]%elem_of_header_indices_from. Qed.

Lemma header_indices_from_increasing k lines a b i j :
  header_indices_from k lines !! a = Some i →
  header_indices_from k lines !! b = Some j →
  a < b → i < j.
Proof.
  revert k a b. induction lines as [|line rest IH]; intros k a b; simpl; [done |].
  destruct (is_conversation_header line); [|apply IH].
  destruct a as [|a], b as [|b]; simpl; try lia.
  - intros [= <-] Hj _.
    assert (j ∈ header_indices_from (S k) rest) as Hin
      by (apply list_elem_of_lookup; eauto).
    apply header_indices_from_lower in Hin. lia.
  - intros Ha Hb Hab. apply (IH (S k) a b); [done | done | lia].
Qed.

End ExtractionFacts.

(** X4. [find_conversation_header_indices] returns exactly the indices of
    the lines that pass the header test, in increasing order and without
    repetition. *)
Theorem header_indices_exact (lines : list string) :
  (∀ a b i j,
     find_conversation_header_indices lines !! a = Some i →
     find_conversation_header_indices lines !! b = Some j →
     a < b → i < j) ∧
  NoDup (find_conversation_header_indices lines) ∧
  ∀ i, i ∈ find_conversation_header_indices lines ↔
       ∃ line, lines !! i = Some line ∧ is_conversation_header line = true.
Proof.
  split; [apply header_indices_from_increasing |].
  split; [apply NoDup_header_indices_from |].
  intros i. unfold find_conversation_header_indices.
  rewrite elem_of_header_indices_from, Nat.sub_0_r.
  split; [by intros [_ H] | intros H; split; [lia | done]].
Qed.

(** X5. The snippet kept for a header is the stripped text of the first
    line after it that is neither blank nor a separator, provided that text
    differs from the header's own stripped text; in every other case the
    header has no snippet. *)
Theorem snippet_for_spec (lines : list string) (i : nat) (s : string) :
  snippet_for lines i = Some s ↔
  ∃ j l, i < j ∧ lines !! j = Some l ∧ strip l = s ∧ skipped s = false ∧
         (∀ k l', i < k < j → lines !! k = Some l' → skipped (strip l') = true) ∧
         s ≠ from_option strip "" (lines !! i).
Proof.
  rewrite snippet_for_first_meaningful, first_meaningful_Some. split.
  - intros [(n & l & Hl & Hs & Hns & Hbefore) Hne].
    rewrite lookup_drop in Hl. exists (S i + n), l. repeat split; try done; [lia |].
    intros k l' [Hk1 Hk2] Hl'. apply (Hbefore (k - S i)); [lia |].
    rewrite lookup_drop. by replace (S i + (k - S i)) with k by lia.
  - intros (j & l & Hij & Hl & Hs & Hns & Hbefore & Hne). split; [|done].
    exists (j - S i), l. rewrite lookup_drop.
    replace (S i + (j - S i)) with j by lia. repeat split; try done.
    intros k l' Hk Hl'. rewrite lookup_drop in Hl'.
    apply (Hbefore (S i + k)); [lia | done].
Qed.

(** X6. The watcher and the merge extract the same snippets: the list the
    watcher counts against the ledger is the list of values of the merge's
    header/snippet map, in the same order. *)
Theorem watcher_and_merge_snippets_agree (lines : list string) :
  watcher_snippets lines = (header_snippet_map lines).*2 ∧
  ∀ n s, watcher_snippets lines !! n = Some s →
         ∃ i, header_snippet_map lines !! n = Some (i, s) ∧
              snippet_lookup i (header_snippet_map lines) = Some s.
Proof.
  split; [apply watcher_snippets_values |].
  intros n s Hn. rewrite watcher_snippets_values, list_lookup_fmap in Hn.
  destruct (header_snippet_map lines !! n) as [[i s']|] eqn:Hp;
    simpl in Hn; [|done].
  injection Hn as ->. exists i. split; [done |].
  apply snippet_lookup_Some; [apply NoDup_header_snippet_map_keys |].
  apply list_elem_of_lookup. eauto.
Qed.

(** ** Timestamps of the wrapper's own clock *)

Section TimestampFacts.

#[local] Arguments String.append : simpl nomatch.

Lemma match_here_all_chars q pat s :
  Forall (pat_item_sat q) pat →
  match_here pat s = true → String.length s = length pat →
  all_chars q s = true.
Proof.
  intros Hpat. revert s. induction Hpat as [|it pat Hit _ IH]; intros s.
  - by destruct s.
  - destruct s as [|d s]; [by destruct it |]. simpl length. intros Hm [= Hlen].
    destruct it as [c|]; simpl in *.
    + apply andb_true_iff in Hm as [->%Ascii.eqb_eq Hm]. by rewrite Hit, IH.
    + apply andb_true_iff in Hm as [Hd Hm]. by rewrite (Hit d Hd), IH.
Qed.

Lemma isdigit_plain d :
  isdigit d = true →
  negb (isspace d) && negb (Ascii.eqb d "|") && negb (Ascii.eqb d LF)
  && negb (Ascii.eqb d CR) = true.
Proof. by destruct d as [[] [] [] [] [] [] [] []]. Qed.

Lemma utc_timestamp_plain ts :
  is_utc_timestamp ts = true →
  all_chars (λ c, negb (isspace c) && negb (Ascii.eqb c "|")
                  && negb (Ascii.eqb c LF) && negb (Ascii.eqb c CR)) ts = true.
Proof.
  unfold is_utc_timestamp. intros [Hm Hlen%Nat.eqb_eq]%andb_true_iff.
  eapply match_here_all_chars; [|exact Hm | exact Hlen].
  repeat constructor; try done; intros d Hd; by apply isdigit_plain.
Qed.

Lemma utc_timestamp_one_line ts : is_utc_timestamp ts = true → one_line ts = true.
Proof.
  intros H%utc_timestamp_plain. unfold one_line, lf_free, cr_free.
  apply andb_true_iff. split; (eapply all_chars_impl; [|exact H]); intros c Hc;
    repeat (apply andb_true_iff in Hc as [Hc ?]); done.
Qed.

Lemma utc_timestamp_no_bar ts :
  is_utc_timestamp ts = true →
  all_chars (λ c, negb (Ascii.eqb c "|")) ts = true.
Proof.
  intros H%utc_timestamp_plain. eapply all_chars_impl; [|exact H]. intros c Hc.
  repeat (apply andb_true_iff in Hc as [Hc ?]); done.
Qed.

Lemma lstrip_no_space s : all_chars (λ c, negb (isspace c)) s = true → lstrip s = s.
Proof.
  destruct s as [|c s]; simpl; [done |].
  intros [Hc _]%andb_true_iff. apply negb_true_iff in Hc. by rewrite Hc.
Qed.

Lemma rstrip_no_space s : all_chars (λ c, negb (isspace c)) s = true → rstrip s = s.
Proof.
  induction s as [|c s IH]; simpl; [done |].
  intros [Hc Hs]%andb_true_iff. apply negb_true_iff in Hc.
  rewrite (IH Hs). destruct s; by rewrite ?Hc.
Qed.

Lemma utc_timestamp_stripped ts : is_utc_timestamp ts = true → strip ts = ts.
Proof.
  intros H%utc_timestamp_plain.
  assert (all_chars (λ c, negb (isspace c)) ts = true) as Hs.
  { eapply all_chars_impl; [|exact H]. intros c Hc.
    repeat (apply andb_true_iff in Hc as [Hc ?]); done. }
  unfold strip. by rewrite rstrip_no_space, lstrip_no_space.
Qed.

Lemma match_here_app p1 p2 s t :
  match_here p1 s = true → String.length s = length p1 →
  match_here (p1 ++ p2) (s +:+ t) = match_here p2 t.
Proof.
  revert s. induction p1 as [|it p1 IH]; intros s.
  - by destruct s.
  - destruct s as [|d s]; [by destruct it |]. simpl length. intros Hm [= Hlen].
    rewrite app_cons. destruct it as [c|]; simpl in *;
      apply andb_true_iff in Hm as [Hd Hm]; rewrite Hd; simpl; by apply IH.
Qed.

Lemma re_search_app pat a b : re_search pat b = true → re_search pat (a +:+ b) = true.
Proof.
  intros Hb. induction a as [|c a IH]; [done |].
  rewrite app_cons. simpl. rewrite IH. by destruct (match_here pat (String c (a +:+ b))).
Qed.

Lemma re_search_here pat s : match_here pat s = true → re_search pat s = true.
Proof. intros H. destruct s; simpl in *; by rewrite H. Qed.

Lemma header_has_timestamp_stamped role ts :
  is_utc_timestamp ts = true →
  header_has_timestamp ("_**" +:+ role +:+ " (" +:+ ts +:+ ")**_") = true.
Proof.
  intros Hts.
  replace ("_**" +:+ role +:+ " (" +:+ ts +:+ ")**_")
    with ("_**" +:+ (role +:+ " " +:+ (String "(" (ts +:+ ")"))) +:+ "**_").
  2:{ simpl. f_equal. f_equal. f_equal. rewrite !app_assoc'. simpl.
      f_equal. f_equal. by rewrite app_assoc'. }
  unfold header_has_timestamp.
  assert (startswith "_**" ("_**" +:+ (role +:+ " " +:+ String "(" (ts +:+ ")")) +:+ "**_")
          = true) as -> by (apply startswith_spec; eauto).
  assert (endswith "**_" ("_**" +:+ (role +:+ " " +:+ String "(" (ts +:+ ")")) +:+ "**_")
          = true) as ->.
  { apply endswith_spec. eexists. by rewrite <- app_assoc'. }
  simpl andb. cbv iota. rewrite slice_3_m3_markers.
  apply re_search_app, re_search_app, re_search_here.
  unfold is_utc_timestamp in Hts. apply andb_true_iff in Hts as [Hm Hlen%Nat.eqb_eq].
  change (match_here (utc_pattern ++ [PChar ")"%char]) (ts +:+ ")") = true).
  by rewrite (match_here_app utc_pattern [PChar ")"%char] ts ")" Hm Hlen).
Qed.

End TimestampFacts.

(** X7. Once the merge has rewritten a header with a timestamp of the
    wrapper's clock format, no later rewriting changes that line again,
    whatever snippets and ledger it is run with. *)
Theorem rewritten_header_is_final
    (hsm hsm' : list (nat * string)) (tsmap tsmap' : gmap string string)
    (i j : nat) (line : string) :
  (∀ s ts, tsmap !! s = Some ts → is_utc_timestamp ts = true) →
  rewrite_line hsm tsmap i line ≠ line →
  rewrite_line hsm' tsmap' j (rewrite_line hsm tsmap i line)
  = rewrite_line hsm tsmap i line.
Proof.
  intros Hshape Hne.
  assert (∃ role ts, is_utc_timestamp ts = true ∧
            rewrite_line hsm tsmap i line
            = "_**" +:+ role +:+ " (" +:+ ts +:+ ")**_") as (role & ts & Hts & ->).
  { unfold rewrite_line in *.
    destruct (is_rewrite_header line); [|by destruct Hne].
    destruct (header_has_timestamp line); [by destruct Hne |].
    destruct (snippet_lookup i hsm) as [snippet|]; [|by destruct Hne].
    destruct (tsmap !! snippet) as [ts|] eqn:Hts; [|by destruct Hne].
    eauto. }
  unfold rewrite_line. rewrite (header_has_timestamp_stamped role ts Hts).
  by destruct (is_rewrite_header _).
Qed.

Lemma rewritten_header_is_final_witness :
  (∀ s ts,
     ({["Hello" := "2024-01-01T00:00:00Z"]} : gmap string string) !! s = Some ts →
     is_utc_timestamp ts = true) ∧
  rewrite_line [(0, "Hello")] {["Hello" := "2024-01-01T00:00:00Z"]} 0 "_**User**_"
    ≠ "_**User**_" ∧
  rewrite_line [(0, "Hello")] {["Hello" := "2030-12-31T23:59:59Z"]} 0
    (rewrite_line [(0, "Hello")] {["Hello" := "2024-01-01T00:00:00Z"]} 0 "_**User**_")
  = rewrite_line [(0, "Hello")] {["Hello" := "2024-01-01T00:00:00Z"]} 0 "_**User**_".
Proof.
  assert (∀ s ts,
     ({["Hello" := "2024-01-01T00:00:00Z"]} : gmap string string) !! s = Some ts →
     is_utc_timestamp ts = true) as Hshape.
  { intros s ts [_ <-]%lookup_singleton_Some. reflexivity. }
  assert (rewrite_line [(0, "Hello")] {["Hello" := "2024-01-01T00:00:00Z"]} 0
            "_**User**_" ≠ "_**User**_") as Hne.
  { intros H. vm_compute in H. discriminate H. }
  split; [exact Hshape |]. split; [exact Hne |].
  apply (rewritten_header_is_final [(0, "Hello")] [(0, "Hello")]
           {["Hello" := "2024-01-01T00:00:00Z"]}
           {["Hello" := "2030-12-31T23:59:59Z"]} 0 0 "_**User**_" Hshape Hne).
Defined.

Section RoleRoundTrip.

#[local] Arguments String.append : simpl nomatch.

Lemma contains_char_app c a b :
  contains (String c "") (a +:+ b)
  = contains (String c "") a || contains (String c "") b.
Proof.
  induction a as [|x a IH].
  - reflexivity.
  - rewrite app_cons, !contains_char_cons, IH. by rewrite orb_assoc.
Qed.

End RoleRoundTrip.

(** X8. Reading the role back from a stamped header returns the role the
    stamp was built around: [extract_base_role] undoes the rewriting, for a
    role without an opening parenthesis. *)
Theorem extract_base_role_of_stamped (role ts : string) :
  contains "(" role = false →
  extract_base_role ("_**" +:+ role +:+ " (" +:+ ts +:+ ")**_") = strip role.
Proof.
  intros Hrole.
  replace ("_**" +:+ role +:+ " (" +:+ ts +:+ ")**_")
    with ("_**" +:+ ((role +:+ " ") +:+ "(" +:+ (ts +:+ ")")) +:+ "**_").
  2:{ rewrite !app_assoc'. done. }
  rewrite extract_base_role_parenthesis.
  - unfold strip. by rewrite rstrip_app_spaces.
  - rewrite contains_char_app, Hrole. done.
  - apply contains_spec. exists ((role +:+ " ") +:+ "(" +:+ ts), "".
    by rewrite !app_assoc'.
Qed.

Lemma extract_base_role_of_stamped_witness :
  contains "(" "User" = false ∧
  extract_base_role ("_**" +:+ "User" +:+ " (" +:+ "2024-01-01T12:00:00Z" +:+ ")**_")
  = strip "User".
Proof.
  split; [reflexivity |].
  apply (extract_base_role_of_stamped "User" "2024-01-01T12:00:00Z"). reflexivity.
Defined.

(** ** The watcher and the merge on whole-line ledgers *)

Section LedgerRuns.

#[local] Arguments String.append : simpl nomatch.

Lemma filter_none {A} (P : A → Prop) `{!∀ x, Decision (P x)} (l : list A) :
  (∀ x, x ∈ l → ¬ P x) → filter P l = [].
Proof.
  induction l as [|x l IH]; [done |]. intros Hl. rewrite filter_cons.
  rewrite decide_False by (apply Hl; by left). apply IH. intros y Hy.
  apply Hl. by right.
Qed.

Lemma existing_entries_app l1 l2 :
  Forall (λ l, one_line l = true) l1 →
  Forall (λ l, one_line l = true) l2 →
  existing_entries (write_lines (l1 ++ l2))
  = existing_entries (write_lines l1) ++ existing_entries (write_lines l2).
Proof.
  intros H1 H2. rewrite !existing_entries_write_lines; try done.
  - by rewrite fmap_app, filter_app.
  - by apply Forall_app.
Qed.

(** Snippets are whole, stripped, non-empty pieces of one line. *)
Lemma snippet_for_shape md i s :
  snippet_for (read_lines_text md) i = Some s →
  one_line s = true ∧ strip s = s ∧ s ≠ "".
Proof.
  intros (j & l & _ & Hl & <- & Hns & _)%snippet_for_spec.
  split; [|split].
  - apply one_line_strip.
    by apply (proj1 (Forall_lookup _ _) (read_lines_text_one_line md) j l).
  - apply strip_idemp.
  - intros He. rewrite He in Hns. done.
Qed.

Lemma watcher_snippets_shape md :
  Forall (λ s, one_line s = true ∧ strip s = s ∧ s ≠ "")
         (watcher_snippets (read_lines_text md)).
Proof.
  apply Forall_forall. intros s (h & _ & Hs)%list_elem_of_omap.
  by apply snippet_for_shape in Hs.
Qed.

Lemma header_snippet_map_shape md p :
  p ∈ header_snippet_map (read_lines_text md) →
  one_line p.2 = true ∧ strip p.2 = p.2.
Proof.
  destruct p as [i s]. intros (l & _ & _ & Hs)%elem_of_header_snippet_map.
  apply snippet_for_shape in Hs as (? & ? & _). done.
Qed.

Lemma watcher_pass_fresh ts_now md :
  watcher_pass ts_now md ""
  = write_lines (ledger_line ts_now <$> watcher_snippets (read_lines_text md)).
Proof.
  unfold watcher_pass. change (existing_entries "") with (@nil string).
  simpl length. rewrite drop_0.
  destruct (watcher_snippets (read_lines_text md)); done.
Qed.

End LedgerRuns.

(** X9. A watcher pass over an unchanged log appends nothing the second
    time: after one pass the ledger holds at least as many entries as the
    log has snippets. The ledger is taken to consist of whole lines. *)
Theorem watcher_pass_idempotent (ts1 ts2 md : string) (old : list string) :
  Forall (λ l, one_line l = true) old →
  one_line ts1 = true →
  watcher_pass ts2 md (watcher_pass ts1 md (write_lines old))
  = watcher_pass ts1 md (write_lines old).
Proof.
  intros Hold Hts.
  set (snippets := watcher_snippets (read_lines_text md)).
  set (n := length (existing_entries (write_lines old))).
  destruct (n <? length snippets) eqn:Hlt.
  - assert (Forall (λ s, one_line s = true) (drop n snippets)) as Hsn.
    { apply Forall_drop. eapply Forall_impl; [apply watcher_snippets_shape |].
      by intros s [? _]. }
    assert (Forall (λ l, one_line l = true) (ledger_line ts1 <$> drop n snippets))
      as Hrecs.
    { apply Forall_fmap. eapply Forall_impl; [exact Hsn |].
      intros s Hs. by apply one_line_ledger_line. }
    assert (watcher_pass ts1 md (write_lines old)
            = write_lines (old ++ (ledger_line ts1 <$> drop n snippets))) as ->.
    { unfold watcher_pass. fold snippets n. by rewrite Hlt, write_lines_app. }
    apply Nat.ltb_lt in Hlt.
    unfold watcher_pass. fold snippets.
    rewrite existing_entries_app by done.
    rewrite (existing_entries_records ts1 _ Hts Hsn).
    rewrite length_app, length_fmap, length_drop. fold n.
    replace (n + (length snippets - n)) with (length snippets) by lia.
    by rewrite Nat.ltb_irrefl.
  - assert (watcher_pass ts1 md (write_lines old) = write_lines old) as ->.
    { unfold watcher_pass. fold snippets n. by rewrite Hlt. }
    unfold watcher_pass. fold snippets n. by rewrite Hlt.
Qed.

Lemma watcher_pass_idempotent_witness :
  Forall (λ l, one_line l = true) ["2024-01-01T00:00:00Z|Hello"] ∧
  one_line "2024-01-01T00:00:05Z" = true ∧
  watcher_pass "2024-01-01T00:00:09Z" Scenario.two_turns
    (watcher_pass "2024-01-01T00:00:05Z" Scenario.two_turns
       (write_lines ["2024-01-01T00:00:00Z|Hello"]))
  = watcher_pass "2024-01-01T00:00:05Z" Scenario.two_turns
      (write_lines ["2024-01-01T00:00:00Z|Hello"]).
Proof.
  assert (Forall (λ l, one_line l = true) ["2024-01-01T00:00:00Z|Hello"]) as H
    by (repeat constructor).
  split; [exact H |]. split; [reflexivity |].
  apply (watcher_pass_idempotent "2024-01-01T00:00:05Z" "2024-01-01T00:00:09Z"
           Scenario.two_turns ["2024-01-01T00:00:00Z|Hello"] H).
  reflexivity.
Defined.

Section WatcherThenMerge.

Lemma fresh_ledger_lookup ts md s :
  is_utc_timestamp ts = true →
  s ∈ watcher_snippets (read_lines_text md) →
  timestamp_map (existing_entries (watcher_pass ts md "")) !! s = Some ts.
Proof.
  intros Hts Hs. pose proof (watcher_snippets_shape md) as Hshape.
  rewrite watcher_pass_fresh, existing_entries_records.
  2: by apply utc_timestamp_one_line.
  2:{ eapply Forall_impl; [exact Hshape |]. by intros ? [? _]. }
  set (entries := (λ s, strip (ledger_line ts s)) <$> watcher_snippets (read_lines_text md)).
  assert (∀ s', s' ∈ watcher_snippets (read_lines_text md) →
                parse_entry (strip (ledger_line ts s')) = Some (ts, s')) as Hparse.
  { intros s' Hs'. rewrite parse_entry_strip_ledger_line
      by (by apply utc_timestamp_no_bar).
    rewrite utc_timestamp_stripped by done.
    apply (proj1 (Forall_forall _ _) Hshape) in Hs' as (_ & -> & _). done. }
  destruct (timestamp_map_lookup_is_Some entries (strip (ledger_line ts s)) ts s)
    as [ts' Hts'].
  { apply list_elem_of_fmap. eauto. }
  { by apply Hparse. }
  rewrite Hts'. f_equal.
  apply timestamp_map_lookup_Some in Hts' as (e & He & Hpe).
  apply list_elem_of_fmap in He as (s' & -> & Hs').
  rewrite (Hparse s' Hs') in Hpe. congruence.
Qed.

End WatcherThenMerge.

(** X10. From an empty ledger, one watcher pass followed by the merge of
    the same eligible log: the merge finds every snippet recorded, appends
    nothing to the ledger, and rewrites every unstamped header that has a
    snippet with the time of the watcher pass, not with its own. *)
Theorem watcher_then_merge (ts now_ts md : string) :
  has_user_content md = true →
  is_utc_timestamp ts = true →
  (merge_timestamps now_ts md (watcher_pass ts md "")).2 = watcher_pass ts md "" ∧
  ∀ i line snippet,
    read_lines_text md !! i = Some line →
    is_conversation_header line = true →
    header_has_timestamp line = false →
    snippet_for (read_lines_text md) i = Some snippet →
    merged_lines now_ts md (watcher_pass ts md "") !! i
    = Some ("_**" +:+ extract_base_role line +:+ " (" +:+ ts +:+ ")**_").
Proof.
  intros Hel Hts.
  assert (missing_timestamps (header_snippet_map (read_lines_text md))
            (timestamp_map (existing_entries (watcher_pass ts md ""))) = []) as Hnone.
  { apply filter_none. intros [i s] Hin. simpl.
    rewrite (fresh_ledger_lookup ts md s Hts); [done |].
    rewrite watcher_snippets_values. apply list_elem_of_fmap. by exists (i, s). }
  split.
  - rewrite merge_eligible by done. simpl. unfold merged_ledger.
    rewrite Hnone. apply app_empty_r.
  - intros i line snippet Hline Hhdr Hunst Hsn.
    rewrite merged_lines_lookup, Hline, Hnone. simpl. f_equal.
    apply rewrite_line_embeds with snippet; [done | done | |].
    + apply snippet_lookup_header_snippet_map. eauto.
    + apply fresh_ledger_lookup; [done |].
      rewrite watcher_snippets_values. apply list_elem_of_fmap.
      exists (i, snippet). split; [done |].
      apply elem_of_header_snippet_map. eauto.
Qed.

Lemma watcher_then_merge_witness :
  has_user_content Scenario.two_turns = true ∧
  is_utc_timestamp "2024-01-01T00:00:05Z" = true ∧
  (merge_timestamps Scenario.later Scenario.two_turns
     (watcher_pass "2024-01-01T00:00:05Z" Scenario.two_turns "")).2
  = watcher_pass "2024-01-01T00:00:05Z" Scenario.two_turns "" ∧
  ∀ i line snippet,
    read_lines_text Scenario.two_turns !! i = Some line →
    is_conversation_header line = true →
    header_has_timestamp line = false →
    snippet_for (read_lines_text Scenario.two_turns) i = Some snippet →
    merged_lines Scenario.later Scenario.two_turns
      (watcher_pass "2024-01-01T00:00:05Z" Scenario.two_turns "") !! i
    = Some ("_**" +:+ extract_base_role line +:+ " ("
            +:+ "2024-01-01T00:00:05Z" +:+ ")**_").
Proof.
  split; [reflexivity |]. split; [reflexivity |].
  apply (watcher_then_merge "2024-01-01T00:00:05Z" Scenario.later Scenario.two_turns);
    reflexivity.
Defined.

(** X11. The backfill settles: after an eligible merge has extended a
    whole-line ledger, merging the same log text against the new ledger
    appends nothing more, so a merge that is repeated before the log file
    is replaced does not duplicate its backfill records. *)
Theorem backfill_settles (now1 now2 md : string) (old : list string) :
  has_user_content md = true →
  Forall (λ l, one_line l = true) old →
  one_line now1 = true →
  all_chars (λ c, negb (Ascii.eqb c "|")) now1 = true →
  (merge_timestamps now2 md (merge_timestamps now1 md (write_lines old)).2).2
  = (merge_timestamps now1 md (write_lines old)).2.
Proof.
  intros Hel Hold Hnow Hbar. rewrite !merge_eligible by done. simpl.
  set (hsm := header_snippet_map (read_lines_text md)).
  set (missing := missing_timestamps hsm (timestamp_map (existing_entries (write_lines old)))).
  assert (Forall (λ s, one_line s = true) missing.*2) as Hsn.
  { apply Forall_fmap, Forall_forall. intros p [_ Hp]%list_elem_of_filter.
    by apply header_snippet_map_shape in Hp as [? _]. }
  assert (merged_ledger now1 md (write_lines old)
          = write_lines (old ++ (ledger_line now1 <$> missing.*2))) as HL1.
  { unfold merged_ledger, backfill_text. fold hsm missing.
    by rewrite write_lines_app, <- list_fmap_compose. }
  rewrite HL1. unfold merged_ledger at 1. fold hsm.
  assert (missing_timestamps hsm
            (timestamp_map (existing_entries
               (write_lines (old ++ (ledger_line now1 <$> missing.*2))))) = [])
    as ->; [|apply app_empty_r].
  apply filter_none. intros [i s] Hin. simpl. intros Hnone.
  assert (is_Some (timestamp_map
            (existing_entries (write_lines (old ++ (ledger_line now1 <$> missing.*2))))
            !! s)) as [ts Hts]; [|congruence].
  rewrite existing_entries_app, (existing_entries_records now1 _ Hnow Hsn); try done.
  2:{ apply Forall_fmap. eapply Forall_impl; [exact Hsn |].
      intros x Hx. by apply one_line_ledger_line. }
  destruct (timestamp_map (existing_entries (write_lines old)) !! s) as [ts0|] eqn:Hold_s.
  - apply timestamp_map_lookup_Some in Hold_s as (e & He & Hpe).
    apply (timestamp_map_lookup_is_Some _ e ts0 s); [|done].
    apply elem_of_app. by left.
  - apply (timestamp_map_lookup_is_Some _ (strip (ledger_line now1 s)) (strip now1) s).
    + apply elem_of_app. right. apply list_elem_of_fmap. exists s. split; [done |].
      apply list_elem_of_fmap. exists (i, s). split; [done |].
      apply list_elem_of_filter. done.
    + rewrite parse_entry_strip_ledger_line by done.
      apply header_snippet_map_shape in Hin as [_ Hs]. simpl in Hs. by rewrite Hs.
Qed.

Lemma backfill_settles_witness :
  has_user_content Scenario.two_turns = true ∧
  Forall (λ l, one_line l = true) ["2024-01-01T00:00:00Z|Hello"] ∧
  one_line Scenario.later = true ∧
  all_chars (λ c, negb (Ascii.eqb c "|")) Scenario.later = true ∧
  (merge_timestamps "2024-01-03T00:00:00Z" Scenario.two_turns
     (merge_timestamps Scenario.later Scenario.two_turns
        (write_lines ["2024-01-01T00:00:00Z|Hello"])).2).2
  = (merge_timestamps Scenario.later Scenario.two_turns
       (write_lines ["2024-01-01T00:00:00Z|Hello"])).2.
Proof.
  assert (Forall (λ l, one_line l = true) ["2024-01-01T00:00:00Z|Hello"]) as H
    by (repeat constructor).
  split; [reflexivity |]. split; [exact H |]. split; [reflexivity |].
  split; [reflexivity |].
  apply (backfill_settles Scenario.later "2024-01-03T00:00:00Z" Scenario.two_turns
           ["2024-01-01T00:00:00Z|Hello"]); first [reflexivity | exact H].
Defined.

(** ** What a merge writes *)

Section MergeFrame.

Lemma backfill_map_lookup_cases now_ts missing (m : gmap string string) s ts :
  backfill_map now_ts missing m !! s = Some ts → ts = now_ts ∨ m !! s = Some ts.
Proof.
  induction missing as [|p missing IH] using rev_ind; [by right |].
  rewrite backfill_map_snoc, lookup_insert.
  destruct (decide (p.2 = s)); [intros [= <-]; by left | exact IH].
Qed.

End MergeFrame.

(** X12. What an eligible merge writes: as many lines as it read; each line
    is written through unchanged, or it is a header without a timestamp
    that has a snippet and is replaced by its stamped form, and the
    timestamp embedded is either the current time or the timestamp field of
    a ledger entry recorded for that snippet. *)
Theorem merged_lines_frame (now_ts md ledger : string) :
  length (merged_lines now_ts md ledger) = length (read_lines_text md) ∧
  ∀ i line,
    read_lines_text md !! i = Some line →
    merged_lines now_ts md ledger !! i = Some line ∨
    (is_conversation_header line = true ∧
     header_has_timestamp line = false ∧
     ∃ snippet ts,
       snippet_for (read_lines_text md) i = Some snippet ∧
       (ts = now_ts ∨
        ∃ e, e ∈ existing_entries ledger ∧ parse_entry e = Some (ts, snippet)) ∧
       merged_lines now_ts md ledger !! i
       = Some ("_**" +:+ extract_base_role line +:+ " (" +:+ ts +:+ ")**_")).
Proof.
  split; [unfold merged_lines; apply length_imap |].
  intros i line Hline. rewrite merged_lines_lookup, Hline. simpl.
  unfold rewrite_line. rewrite is_rewrite_header_eq.
  destruct (is_conversation_header line) eqn:Hhdr; [|by left].
  destruct (header_has_timestamp line) eqn:Hts; [by left |].
  destruct (snippet_lookup i (header_snippet_map (read_lines_text md)))
    as [snippet|] eqn:Hsn; [|by left].
  destruct (backfill_map now_ts _ _ !! snippet) as [ts|] eqn:Hm; [|by left].
  right. split; [done |]. split; [done |]. exists snippet, ts.
  apply snippet_lookup_header_snippet_map in Hsn as (l & Hl & _ & Hsf).
  split; [done |]. split; [|done].
  apply backfill_map_lookup_cases in Hm as [->|Hm]; [by left | right].
  by apply timestamp_map_lookup_Some.
Qed.

(** ** Outcomes of [stop_watcher] *)

Section StopOutcomes.

Import Supervisor.


Lemma stop_watcher_parsed json_loads os observations pid_text pid :
  poll None observations = Some pid_text →
  pid_text ≠ "" →
  parse_pid json_loads pid_text = inl pid →
  stop_watcher json_loads os observations
  = match _try_kill_process (term_group os) (term_direct os) with
    | Raised e => Raised e
    | Returned =>
        match probe os with
        | ProcessLookupError => Returned
        | OsPermissionError => Raised PermissionError
        | Delivered => _try_kill_process (kill_group os) (kill_direct os)
        end
    end.
Proof.
  intros Hpoll Hne%String.eqb_neq Hparse. unfold stop_watcher.
  by rewrite Hpoll, Hne, Hparse.
Qed.

End StopOutcomes.



(** X14. A refused signal is not caught: when signalling the process group
    fails and the direct [SIGTERM] is refused with [PermissionError], the
    exception escapes [stop_watcher]. *)
Theorem stop_watcher_permission_error_escapes
    (json_loads : string → option Supervisor.json) (os : Supervisor.os_answers)
    (observations : list (option string)) (pid_text : string)
    (fields : list (string * Supervisor.json)) (pid : Z) :
  Supervisor.poll None observations = Some pid_text →
  pid_text ≠ "" →
  json_loads pid_text = Some (Supervisor.JObject fields) →
  Supervisor.dict_get "pid" fields = Some (Supervisor.JInt pid) →
  Supervisor.term_group os ≠ Supervisor.Delivered →
  Supervisor.term_direct os = Supervisor.OsPermissionError →
  Supervisor.stop_watcher json_loads os observations
  = Supervisor.Raised Supervisor.PermissionError.
Proof.
  intros Hpoll Hne Hjson Hpid Hg Hd.
  rewrite (stop_watcher_parsed json_loads os _ pid_text pid); try done.
  - unfold Supervisor._try_kill_process. rewrite Hd.
    by destruct (Supervisor.term_group os).
  - unfold Supervisor.parse_pid. by rewrite Hjson, Hpid.
Qed.

Lemma stop_watcher_permission_error_escapes_witness :
  Supervisor.poll None [Some Handoff.record_text]
  = Some Handoff.record_text ∧
  Handoff.record_text ≠ "" ∧
  Handoff.decode Handoff.record_text
  = Some (Supervisor.JObject
            [("pid", Supervisor.JInt 4242);
             ("target", Supervisor.JString "/p/.specstory/history/a.md")]) ∧
  Supervisor.dict_get "pid"
    [("pid", Supervisor.JInt 4242);
     ("target", Supervisor.JString "/p/.specstory/history/a.md")]
  = Some (Supervisor.JInt 4242) ∧
  Supervisor.term_group Handoff.refused ≠ Supervisor.Delivered ∧
  Supervisor.term_direct Handoff.refused = Supervisor.OsPermissionError ∧
  Supervisor.stop_watcher Handoff.decode Handoff.refused [Some Handoff.record_text]
  = Supervisor.Raised Supervisor.PermissionError.
Proof.
  assert (Handoff.record_text ≠ "") as Hne by (vm_compute; discriminate).
  assert (Supervisor.term_group Handoff.refused ≠ Supervisor.Delivered) as Hg
    by discriminate.
  split; [reflexivity |]. split; [exact Hne |]. split; [reflexivity |].
  split; [reflexivity |]. split; [exact Hg |]. split; [reflexivity |].
  apply (stop_watcher_permission_error_escapes Handoff.decode Handoff.refused
           [Some Handoff.record_text] Handoff.record_text
           [("pid", Supervisor.JInt 4242);
            ("target", Supervisor.JString "/p/.specstory/history/a.md")] 4242%Z);
    first [reflexivity | exact Hne | exact Hg].
Defined.

(** X15. A pidfile whose text is valid JSON but not an object, such as a
    bare process number, never reaches the plain-text fallback:
    [meta.get] raises [AttributeError], which [stop_watcher] does not
    catch. *)
Theorem stop_watcher_rejects_bare_number
    (json_loads : string → option Supervisor.json) (os : Supervisor.os_answers)
    (observations : list (option string)) (pid_text : string)
    (value : Supervisor.json) :
  Supervisor.poll None observations = Some pid_text →
  pid_text ≠ "" →
  json_loads pid_text = Some value →
  (∀ fields, value ≠ Supervisor.JObject fields) →
  Supervisor.stop_watcher json_loads os observations
  = Supervisor.Raised Supervisor.AttributeError.
Proof.
  intros Hpoll Hne%String.eqb_neq Hjson Hobj. unfold Supervisor.stop_watcher.
  rewrite Hpoll, Hne. unfold Supervisor.parse_pid. rewrite Hjson.
  destruct value; try done. by destruct (Hobj fields).
Qed.

Lemma stop_watcher_rejects_bare_number_witness :
  Supervisor.poll None [Some "4242"] = Some "4242" ∧
  "4242" ≠ "" ∧
  Handoff.decode "4242" = Some (Supervisor.JInt 4242) ∧
  (∀ fields, Supervisor.JInt 4242 ≠ Supervisor.JObject fields) ∧
  Supervisor.stop_watcher Handoff.decode Scenario.no_signal_needed [Some "4242"]
  = Supervisor.Raised Supervisor.AttributeError.
Proof.
  assert ("4242" ≠ "") as Hne by discriminate.
  assert (∀ fields, Supervisor.JInt 4242 ≠ Supervisor.JObject fields) as Hobj
    by discriminate.
  split; [reflexivity |]. split; [exact Hne |]. split; [reflexivity |].
  split; [exact Hobj |].
  apply (stop_watcher_rejects_bare_number Handoff.decode Scenario.no_signal_needed
           [Some "4242"] "4242" (Supervisor.JInt 4242));
    first [reflexivity | exact Hne | exact Hobj].
Defined.

(** X16. A handoff record that is a JSON object without a [pid] key, or
    with a null [pid], makes [int(meta.get("pid"))] raise [TypeError],
    which [stop_watcher] does not catch. *)
Theorem stop_watcher_needs_pid_key
    (json_loads : string → option Supervisor.json) (os : Supervisor.os_answers)
    (observations : list (option string)) (pid_text : string)
    (fields : list (string * Supervisor.json)) :
  Supervisor.poll None observations = Some pid_text →
  pid_text ≠ "" →
  json_loads pid_text = Some (Supervisor.JObject fields) →
  Supervisor.dict_get "pid" fields = None
  ∨ Supervisor.dict_get "pid" fields = Some Supervisor.JNull →
  Supervisor.stop_watcher json_loads os observations
  = Supervisor.Raised Supervisor.TypeError.
Proof.
  intros Hpoll Hne%String.eqb_neq Hjson Hpid. unfold Supervisor.stop_watcher.
  rewrite Hpoll, Hne. unfold Supervisor.parse_pid. rewrite Hjson.
  by destruct Hpid as [-> | ->].
Qed.

Lemma stop_watcher_needs_pid_key_witness :
  Supervisor.poll None [Some Handoff.no_pid_text] = Some Handoff.no_pid_text ∧
  Handoff.no_pid_text ≠ "" ∧
  Handoff.decode Handoff.no_pid_text
  = Some (Supervisor.JObject
            [("target", Supervisor.JString "/p/.specstory/history/a.md")]) ∧
  (Supervisor.dict_get "pid"
     [("target", Supervisor.JString "/p/.specstory/history/a.md")] = None
   ∨ Supervisor.dict_get "pid"
       [("target", Supervisor.JString "/p/.specstory/history/a.md")]
     = Some Supervisor.JNull) ∧
  Supervisor.stop_watcher Handoff.decode Scenario.no_signal_needed
    [Some Handoff.no_pid_text]
  = Supervisor.Raised Supervisor.TypeError.
Proof.
  assert (Handoff.no_pid_text ≠ "") as Hne by (vm_compute; discriminate).
  split; [reflexivity |]. split; [exact Hne |]. split; [reflexivity |].
  split; [left; reflexivity |].
  apply (stop_watcher_needs_pid_key Handoff.decode Scenario.no_signal_needed
           [Some Handoff.no_pid_text] Handoff.no_pid_text
           [("target", Supervisor.JString "/p/.specstory/history/a.md")]);
    first [reflexivity | exact Hne | left; reflexivity].
Defined.

(** ** Which session log is chosen *)

Section SelectionFacts.

Context {A K : Type} (key : A → K) (ltb : K → K → bool).

Lemma first_maximal_unique (items : list A) (m m' : A) :
  first_maximal key ltb items m → first_maximal key ltb items m' → m = m'.
Proof.
  intros (pre & post & -> & Hpre & Hpost) (pre' & post' & Heq & Hpre' & Hpost').
  revert pre' Heq Hpre'. induction pre as [|x pre IH]; intros pre' Heq Hpre'.
  - destruct pre' as [|y pre']; simpl in Heq.
    + by injection Heq.
    + injection Heq as <- ->.
      assert (ltb (key m) (key m') = true) as Hlt
        by (apply Hpre'; apply list_elem_of_here).
      rewrite Hpost in Hlt; [done |].
      apply elem_of_app. right. apply list_elem_of_here.
  - destruct pre' as [|y pre']; simpl in Heq.
    + injection Heq as -> <-.
      assert (ltb (key m') (key m) = true) as Hlt
        by (apply Hpre; apply list_elem_of_here).
      rewrite Hpost' in Hlt; [done |].
      apply elem_of_app. right. apply list_elem_of_here.
    + injection Heq as -> Heq. apply (IH (λ z Hz, Hpre z (list_elem_of_further _ _ _ Hz)) pre' Heq).
      intros z Hz. apply Hpre'. by apply list_elem_of_further.
Qed.

Hypothesis ltb_trans : ∀ a b c, ltb a b = true → ltb b c = true → ltb a c = true.
Hypothesis ltb_between : ∀ a b c, ltb a c = true → ltb a b = true ∨ ltb b c = true.

Lemma first_maximal_singleton (x : A) : first_maximal key ltb [x] x.
Proof.
  exists [], []. split; [done |]. split; intros z Hz; by apply elem_of_nil in Hz.
Qed.

Lemma first_maximal_cons (x : A) (rest : list A) (m : A) :
  first_maximal key ltb rest m →
  first_maximal key ltb (x :: rest) (if ltb (key x) (key m) then m else x).
Proof.
  intros (pre & post & -> & Hpre & Hpost).
  destruct (ltb (key x) (key m)) eqn:Hx.
  - exists (x :: pre), post. split; [done |]. split; [|done].
    intros z [->|Hz]%elem_of_cons; [done | by apply Hpre].
  - exists [], (pre ++ m :: post). split; [done |].
    split; [intros z Hz; by apply elem_of_nil in Hz |].
    intros z [Hz|[->|Hz]%elem_of_cons]%elem_of_app.
    + destruct (ltb (key x) (key z)) eqn:Hxz; [|done].
      by rewrite (ltb_trans _ _ _ Hxz (Hpre z Hz)) in Hx.
    + done.
    + destruct (ltb (key x) (key z)) eqn:Hxz; [|done].
      destruct (ltb_between _ (key m) _ Hxz) as [H1|H1]; [congruence |].
      by rewrite (Hpost z Hz) in H1.
Qed.

Lemma max_from_first_maximal (best : A) (rest : list A) :
  first_maximal key ltb (best :: rest) (max_from key ltb best rest).
Proof.
  revert best. induction rest as [|x rest IH]; intros best;
    [apply first_maximal_singleton |].
  simpl. destruct (ltb (key best) (key x)) eqn:Hbx.
  - specialize (IH x). revert IH. generalize (max_from key ltb x rest) as m.
    intros m (pre & post & Heq & Hpre & Hpost).
    exists (best :: pre), post. rewrite Heq. split; [done |]. split; [|done].
    intros z [->|Hz]%elem_of_cons; [|by apply Hpre].
    destruct pre as [|y pre]; simpl in Heq.
    + by injection Heq as <- _.
    + injection Heq as <- _. apply (ltb_trans _ _ _ Hbx).
      apply Hpre, list_elem_of_here.
  - specialize (IH best). revert IH. generalize (max_from key ltb best rest) as m.
    intros m (pre & post & Heq & Hpre & Hpost).
    destruct pre as [|y pre]; simpl in Heq.
    + injection Heq as <- <-. exists [], (x :: rest).
      split; [done |]. split; [intros z Hz; by apply elem_of_nil in Hz |].
      intros z [->|Hz]%elem_of_cons; [done | by apply Hpost].
    + injection Heq as <- ->. exists (best :: x :: pre), post.
      split; [done |]. split; [|done].
      intros z [->|[->|Hz]%elem_of_cons]%elem_of_cons.
      * apply Hpre, list_elem_of_here.
      * destruct (ltb_between _ (key x) _ (Hpre best (list_elem_of_here _ _)))
          as [H1|H1]; [congruence | done].
      * apply Hpre. by apply list_elem_of_further.
Qed.

Lemma py_max_first_maximal (items : list A) (m : A) :
  py_max key ltb items = Some m → first_maximal key ltb items m.
Proof.
  destruct items as [|x rest]; [done |]. intros [= <-].
  apply max_from_first_maximal.
Qed.

Lemma insert_desc_head (x : A) (sorted : list A) :
  head (insert_desc key ltb x sorted)
  = Some (match head sorted with
          | Some y => if ltb (key x) (key y) then y else x
          | None => x
          end).
Proof. destruct sorted as [|y rest]; [done |]. simpl. by destruct (ltb _ _). Qed.

Lemma sort_desc_head (items : list A) :
  head (sort_desc key ltb items) = py_max key ltb items.
Proof.
  induction items as [|x rest IH]; [done |].
  change (sort_desc key ltb (x :: rest))
    with (insert_desc key ltb x (sort_desc key ltb rest)).
  rewrite insert_desc_head, IH.
  destruct (py_max key ltb rest) as [m|] eqn:Hm.
  - simpl. f_equal. apply (first_maximal_unique (x :: rest)).
    + apply first_maximal_cons. by apply py_max_first_maximal.
    + apply max_from_first_maximal.
  - by destruct rest.
Qed.

End SelectionFacts.

(** X17. [get_most_recent_md_file] returns nothing exactly when the history
    directory lists no log; otherwise it returns the normalised form of the
    first listed log, as an absolute path, whose modification time no
    listed log exceeds: among logs modified at the same time the earliest
    in listing order wins. Modification times are only compared; the
    comparison is assumed to be a strict weak order, as it is on the times
    the file system reports. *)
Theorem get_most_recent_md_file_first_latest {K : Type} (ltb : K → K → bool)
    (abspath normpath : string → string) (getmtime : string → K)
    (md_files : list string) :
  (∀ a b c, ltb a b = true → ltb b c = true → ltb a c = true) →
  (∀ a b c, ltb a c = true → ltb a b = true ∨ ltb b c = true) →
  (get_most_recent_md_file ltb abspath normpath getmtime md_files = None
   ↔ md_files = []) ∧
  ∀ p,
    get_most_recent_md_file ltb abspath normpath getmtime md_files = Some p ↔
    ∃ m,
      first_maximal getmtime ltb ((λ f, abspath (normpath f)) <$> md_files) m ∧
      p = normpath m.
Proof.
  intros Htrans Hbetween. split.
  - destruct md_files as [|f rest]; [done |]. by split.
  - intros p. destruct md_files as [|f rest].
    + split; [done |]. intros (m & (pre & post & Heq & _) & _).
      by destruct pre.
    + unfold get_most_recent_md_file.
      destruct (py_max getmtime ltb
                  ((λ f, abspath (normpath f)) <$> f :: rest)) as [m|] eqn:Hm;
        [|done].
      apply (py_max_first_maximal _ _ Htrans Hbetween) in Hm. simpl. split.
      * intros [= <-]. by exists m.
      * intros (m' & Hm' & ->).
        by rewrite (first_maximal_unique _ _ _ _ _ Hm Hm').
Qed.

Lemma get_most_recent_md_file_first_latest_witness :
  (∀ a b c, Z.ltb a b = true → Z.ltb b c = true → Z.ltb a c = true) ∧
  (∀ a b c, Z.ltb a c = true → Z.ltb a b = true ∨ Z.ltb b c = true) ∧
  (get_most_recent_md_file Z.ltb (String.append "/p/") id
     (λ f, if String.eqb f "/p/h/a.md" then 5 else 9)%Z
     ["h/a.md"; "h/b.md"; "h/c.md"] = None
   ↔ ["h/a.md"; "h/b.md"; "h/c.md"] = []) ∧
  ∀ p,
    get_most_recent_md_file Z.ltb (String.append "/p/") id
      (λ f, if String.eqb f "/p/h/a.md" then 5 else 9)%Z
      ["h/a.md"; "h/b.md"; "h/c.md"] = Some p ↔
    ∃ m,
      first_maximal (λ f, if String.eqb f "/p/h/a.md" then 5 else 9)%Z Z.ltb
        ((λ f, String.append "/p/" (id f)) <$> ["h/a.md"; "h/b.md"; "h/c.md"]) m ∧
      p = id m.
Proof.
  assert (∀ a b c, Z.ltb a b = true → Z.ltb b c = true → Z.ltb a c = true)
    as Htrans by (intros a b c; rewrite !Z.ltb_lt; lia).
  assert (∀ a b c, Z.ltb a c = true → Z.ltb a b = true ∨ Z.ltb b c = true)
    as Hbetween by (intros a b c; rewrite !Z.ltb_lt; lia).
  split; [exact Htrans |]. split; [exact Hbetween |].
  exact (get_most_recent_md_file_first_latest Z.ltb (String.append "/p/") id
           (λ f, if String.eqb f "/p/h/a.md" then 5 else 9)%Z
           ["h/a.md"; "h/b.md"; "h/c.md"] Htrans Hbetween).
Defined.

(** X18. The log the watcher follows: among the candidates of one poll,
    sorting by modification time in reverse and taking the first picks the
    first candidate in listing order whose modification time no candidate
    exceeds, which is also what [max] with the same key picks. Nothing is
    chosen only when there is no candidate. *)
Theorem choose_target_first_latest {K : Type} (ltb : K → K → bool)
    (candidates : list (string * K)) :
  (∀ a b c, ltb a b = true → ltb b c = true → ltb a c = true) →
  (∀ a b c, ltb a c = true → ltb a b = true ∨ ltb b c = true) →
  choose_target ltb candidates = fst <$> py_max snd ltb candidates ∧
  ∀ p,
    choose_target ltb candidates = Some p ↔
    ∃ c, first_maximal snd ltb candidates c ∧ c.1 = p.
Proof.
  intros Htrans Hbetween.
  assert (choose_target ltb candidates = fst <$> py_max snd ltb candidates)
    as Heq.
  { unfold choose_target.
    rewrite <- (sort_desc_head _ _ Htrans Hbetween).
    by destruct (sort_desc snd ltb candidates). }
  split; [exact Heq |]. intros p. rewrite Heq.
  destruct (py_max snd ltb candidates) as [m|] eqn:Hm; simpl.
  - apply (py_max_first_maximal _ _ Htrans Hbetween) in Hm. split.
    + intros [= <-]. by exists m.
    + intros (c & Hc & <-). by rewrite (first_maximal_unique _ _ _ _ _ Hm Hc).
  - split; [done |]. intros (c & (pre & post & -> & _) & _). by destruct pre.
Qed.

Lemma choose_target_first_latest_witness :
  (∀ a b c, Z.ltb a b = true → Z.ltb b c = true → Z.ltb a c = true) ∧
  (∀ a b c, Z.ltb a c = true → Z.ltb a b = true ∨ Z.ltb b c = true) ∧
  choose_target Z.ltb [("/p/h/a.md", 5); ("/p/h/b.md", 9); ("/p/h/c.md", 9)]%Z
  = fst <$> py_max snd Z.ltb
              [("/p/h/a.md", 5); ("/p/h/b.md", 9); ("/p/h/c.md", 9)]%Z ∧
  ∀ p,
    choose_target Z.ltb
      [("/p/h/a.md", 5); ("/p/h/b.md", 9); ("/p/h/c.md", 9)]%Z = Some p ↔
    ∃ c,
      first_maximal snd Z.ltb
        [("/p/h/a.md", 5); ("/p/h/b.md", 9); ("/p/h/c.md", 9)]%Z c ∧
      c.1 = p.
Proof.
  assert (∀ a b c, Z.ltb a b = true → Z.ltb b c = true → Z.ltb a c = true)
    as Htrans by (intros a b c; rewrite !Z.ltb_lt; lia).
  assert (∀ a b c, Z.ltb a c = true → Z.ltb a b = true ∨ Z.ltb b c = true)
    as Hbetween by (intros a b c; rewrite !Z.ltb_lt; lia).
  split; [exact Htrans |]. split; [exact Hbetween |].
  exact (choose_target_first_latest Z.ltb
           [("/p/h/a.md", 5); ("/p/h/b.md", 9); ("/p/h/c.md", 9)]%Z
           Htrans Hbetween).
Defined.

(** The later of two logs modified at different times is followed, and of
    two modified at the same time the one listed first. *)
Example choose_target_tie :
  choose_target Z.ltb [("/p/h/a.md", 5); ("/p/h/b.md", 9); ("/p/h/c.md", 9)]%Z
  = Some "/p/h/b.md".
Proof. reflexivity. Qed.

(** ** The verifier's matcher *)

Section RegexFacts.

Import Verifier.

#[local] Arguments String.append : simpl nomatch.

Lemma app_eq_empty a b : a +:+ b = "" → a = "" ∧ b = "".
Proof. destruct a; simpl; [by intros -> | discriminate]. Qed.

Lemma lang_Seq' r1 r2 s1 s2 s :
  s = s1 +:+ s2 → lang r1 s1 → lang r2 s2 → lang (Seq r1 r2) s.
Proof. intros ->. apply lang_Seq. Qed.

Lemma lang_Seq_inv r1 r2 s :
  lang (Seq r1 r2) s → ∃ s1 s2, s = s1 +:+ s2 ∧ lang r1 s1 ∧ lang r2 s2.
Proof. inversion 1; subst; eauto. Qed.

Lemma lang_Alt_inv r1 r2 s : lang (Alt r1 r2) s → lang r1 s ∨ lang r2 s.
Proof. inversion 1; subst; eauto. Qed.

Lemma lang_Class_inv p s : lang (Class p) s → ∃ c, s = String c "" ∧ p c = true.
Proof. inversion 1; subst; eauto. Qed.

Lemma lang_Empty_inv s : lang Empty s → s = "".
Proof. by inversion 1. Qed.

Lemma lang_Never s : ¬ lang Never s.
Proof. inversion 1. Qed.

Lemma nullable_lang r : nullable r = true ↔ lang r "".
Proof.
  split.
  - induction r; simpl; try done.
    + intros _. constructor.
    + intros [H1 H2]%andb_true_iff. apply (lang_Seq' _ _ "" ""); auto.
    + intros [H|H]%orb_true_iff; [apply lang_Alt_l | apply lang_Alt_r]; auto.
    + intros _. constructor.
  - intros H. remember "" as s eqn:Hs. induction H; simpl; try done.
    + apply app_eq_empty in Hs as [-> ->]. by rewrite IHlang1, IHlang2.
    + by rewrite IHlang.
    + rewrite IHlang by done. apply orb_true_r.
Qed.

Lemma lang_deriv c r s : lang (deriv c r) s → lang r (String c s).
Proof.
  revert s. induction r as [| |p|r1 IH1 r2 IH2|r1 IH1 r2 IH2|r IH]; intros s; simpl.
  - by intros ?%lang_Never.
  - by intros ?%lang_Never.
  - destruct (p c) eqn:Hp; [|by intros ?%lang_Never].
    intros ->%lang_Empty_inv. by constructor.
  - assert (lang (Seq (deriv c r1) r2) s → lang (Seq r1 r2) (String c s)) as Hl.
    { intros (s1 & s2 & -> & H1 & H2)%lang_Seq_inv.
      apply (lang_Seq' _ _ (String c s1) s2); auto. }
    destruct (nullable r1) eqn:Hn; [|exact Hl].
    intros [H|H]%lang_Alt_inv; [by apply Hl |].
    apply (lang_Seq' _ _ "" (String c s)); [done | by apply nullable_lang | auto].
  - intros [H|H]%lang_Alt_inv; [apply lang_Alt_l | apply lang_Alt_r]; auto.
  - intros (s1 & s2 & -> & H1 & H2)%lang_Seq_inv.
    change (String c (s1 +:+ s2)) with (String c s1 +:+ s2).
    apply lang_Star_cons; auto.
Qed.

Lemma deriv_lang c r s : lang r (String c s) → lang (deriv c r) s.
Proof.
  intros H. remember (String c s) as t eqn:Ht. revert s Ht.
  induction H as [|p d Hp|r1 r2 s1 s2 H1 IH1 H2 IH2|r1 r2 t H IH|r1 r2 t H IH
                 |r|r s1 s2 H1 IH1 H2 IH2]; intros s Ht; simpl.
  - discriminate.
  - injection Ht as -> <-. rewrite Hp. constructor.
  - assert (∀ s1', s1 = String c s1' → s = s1' +:+ s2 →
                   lang (Seq (deriv c r1) r2) s) as Hl.
    { intros s1' Hs1 ->. apply lang_Seq; auto. }
    destruct s1 as [|d s1'].
    + apply nullable_lang in H1. rewrite H1. apply lang_Alt_r. auto.
    + injection Ht as -> <-.
      destruct (nullable r1); [apply lang_Alt_l |]; by apply (Hl s1').
  - apply lang_Alt_l. auto.
  - apply lang_Alt_r. auto.
  - discriminate.
  - destruct s1 as [|d s1'].
    + by apply IH2.
    + injection Ht as -> <-. apply lang_Seq; auto.
Qed.

Lemma fullmatch_lang r s : fullmatch r s = true ↔ lang r s.
Proof.
  revert r. induction s as [|c s IH]; intros r; simpl.
  - apply nullable_lang.
  - rewrite IH. split; [apply lang_deriv | apply deriv_lang].
Qed.

Lemma lang_anything s : lang anything s.
Proof.
  induction s as [|c s IH]; [constructor |].
  change (String c s) with (String c "" +:+ s).
  apply lang_Star_cons; [by constructor | exact IH].
Qed.

(** [search] finds a match exactly when some part of the text is in the
    language of the pattern. *)
Lemma search_spec r s :
  search r s = true ↔ ∃ pre mid post, s = pre +:+ mid +:+ post ∧ lang r mid.
Proof.
  unfold search. rewrite fullmatch_lang. split.
  - intros (pre & t & -> & _ & (mid & post & -> & H & _)%lang_Seq_inv)%lang_Seq_inv.
    eauto.
  - intros (pre & mid & post & -> & H).
    apply lang_Seq; [apply lang_anything |].
    apply lang_Seq; [exact H | apply lang_anything].
Qed.

Lemma search_part r a s b : search r s = true → search r (a +:+ s +:+ b) = true.
Proof.
  rewrite !search_spec. intros (pre & mid & post & -> & H).
  exists (a +:+ pre), mid, (post +:+ b). split; [|done].
  by rewrite !app_assoc'.
Qed.

Lemma lang_lit s t : lang (lit s) t ↔ t = s.
Proof.
  revert t. induction s as [|c s IH]; intros t; simpl.
  - split; [apply lang_Empty_inv | intros ->; constructor].
  - split.
    + intros (s1 & s2 & -> & (d & -> & Hd)%lang_Class_inv & H2%IH)%lang_Seq_inv.
      apply Ascii.eqb_eq in Hd. by subst.
    + intros ->. apply (lang_Seq' _ _ (String c "") s); [done | |by apply IH].
      constructor. apply Ascii.eqb_refl.
Qed.

Lemma lang_Star_class p s : lang (Star (Class p)) s ↔ all_chars p s = true.
Proof.
  split.
  - intros H. remember (Star (Class p)) as r eqn:Hr.
    induction H as [| | | | | |r s1 s2 H1 _ H2 IH2]; try discriminate; [done |].
    injection Hr as ->. apply lang_Class_inv in H1 as (c & -> & Hc).
    simpl. by rewrite Hc, IH2.
  - induction s as [|c s IH]; simpl; [constructor |].
    intros [Hc Hs]%andb_true_iff.
    change (String c s) with (String c "" +:+ s).
    apply lang_Star_cons; [by constructor | auto].
Qed.

End RegexFacts.

Section PatternFacts.

Import Verifier.

#[local] Arguments String.append : simpl nomatch.

Lemma lang_cons p c r s :
  p c = true → lang r s → lang (Seq (Class p) r) (String c s).
Proof.
  intros Hp Hr. apply (lang_Seq' _ _ (String c "") s); [done | by constructor | done].
Qed.

Lemma lang_cons_inv p r s :
  lang (Seq (Class p) r) s → ∃ c s', s = String c s' ∧ p c = true ∧ lang r s'.
Proof.
  intros (s1 & s2 & -> & (c & -> & Hc)%lang_Class_inv & H2)%lang_Seq_inv. eauto.
Qed.

Lemma lang_assoc a b r s : lang (Seq a (Seq b r)) s → lang (Seq (Seq a b) r) s.
Proof.
  intros (s1 & t & -> & H1 & (s2 & s3 & -> & H2 & H3)%lang_Seq_inv)%lang_Seq_inv.
  rewrite <- app_assoc'. by repeat apply lang_Seq.
Qed.

Lemma lang_skip r s : lang r s → lang (Seq Empty r) s.
Proof. intros H. apply (lang_Seq' _ _ "" s); [done | constructor | done]. Qed.

Lemma lang_opt_take a r s : lang (Seq a r) s → lang (Seq (opt a) r) s.
Proof.
  intros (s1 & s2 & -> & H1 & H2)%lang_Seq_inv.
  apply lang_Seq; [by apply lang_Alt_l | done].
Qed.

Lemma lang_opt_skip a r s : lang r s → lang (Seq (opt a) r) s.
Proof.
  intros H. apply (lang_Seq' _ _ "" s); [done | | done].
  apply lang_Alt_r. constructor.
Qed.

(** The wrapper's matcher agrees with the general one. *)
Lemma match_here_lang pat s :
  match_here pat s = true ↔ ∃ mid post, s = mid +:+ post ∧ lang (pat_regex pat) mid.
Proof.
  revert s. induction pat as [|it pat IH]; intros s.
  - split; [intros _; exists "", s; split; [done | constructor] | by destruct s].
  - change (pat_regex (it :: pat))
      with (Seq (match it with PChar c => chr c | PDigit => digit end) (pat_regex pat)).
    split.
    + destruct s as [|d s]; [by destruct it |].
      destruct it as [c|]; simpl;
        intros [Hc (mid & post & -> & Hm)%IH]%andb_true_iff;
        exists (String d mid), post; (split; [done |]); by apply lang_cons.
    + intros (mid & post & -> & H).
      destruct it as [c|]; apply lang_cons_inv in H as (d & mid' & -> & Hd & Hm);
        simpl; rewrite Hd; simpl; apply IH; eauto.
Qed.

Lemma re_search_spec pat s :
  re_search pat s = true ↔ ∃ pre rest, s = pre +:+ rest ∧ match_here pat rest = true.
Proof.
  induction s as [|c s IH]; simpl.
  - destruct (match_here pat "") eqn:Hm.
    + split; [intros _; by exists "", "" | done].
    + split; [done |]. intros (pre & rest & Heq & Hr).
      symmetry in Heq. apply app_eq_empty in Heq as [-> ->]. congruence.
  - destruct (match_here pat (String c s)) eqn:Hm.
    + split; [intros _; by exists "", (String c s) | done].
    + rewrite IH. split.
      * intros (pre & rest & -> & Hr). by exists (String c pre), rest.
      * intros (pre & rest & Heq & Hr). destruct pre as [|d pre]; simpl in Heq.
        -- subst. congruence.
        -- injection Heq as -> ->. eauto.
Qed.

Lemma re_search_search pat s : re_search pat s = search (pat_regex pat) s.
Proof.
  apply eq_true_iff_eq. rewrite re_search_spec, search_spec. split.
  - intros (pre & rest & -> & (mid & post & -> & H)%match_here_lang). eauto.
  - intros (pre & mid & post & -> & H). exists pre, (mid +:+ post).
    split; [done |]. apply match_here_lang. eauto.
Qed.

(** Every text the wrapper's timestamp pattern matches, the verifier's
    matches too. *)
Lemma timestamp_pattern_included mid :
  lang (pat_regex timestamp_pattern) mid → lang TIMESTAMP_PATTERN mid.
Proof.
  unfold pat_regex, timestamp_pattern, seq. simpl fmap. simpl foldr.
  unfold chr, digit. intros H.
  repeat (apply lang_cons_inv in H as (? & ? & -> & ? & H)).
  apply lang_Empty_inv in H as ->.
  repeat match goal with E : Ascii.eqb _ _ = true |- _ =>
    apply Ascii.eqb_eq in E; subst end.
  unfold TIMESTAMP_PATTERN, seq, times. simpl foldr. unfold chr, digit.
  repeat first [ apply lang_skip | apply lang_assoc
               | apply lang_cons; [first [assumption | reflexivity] |] ].
  apply lang_opt_take.
  repeat first [ apply lang_skip | apply lang_assoc
               | apply lang_cons; [first [assumption | reflexivity] |] ].
  apply lang_opt_take.
  repeat first [ apply lang_skip | apply lang_assoc
               | apply lang_cons; [first [assumption | reflexivity] |] ].
  apply lang_opt_skip.
  repeat first [ apply lang_skip | apply lang_assoc
               | apply lang_cons; [first [assumption | reflexivity] |] ].
  constructor.
Qed.

Lemma substring_0_prefix m s : ∃ b, s = String.substring 0 m s +:+ b.
Proof.
  revert m. induction s as [|c s IH]; intros m.
  - exists "". by destruct m.
  - destruct m as [|m]; [by exists (String c s) |].
    destruct (IH m) as (b & Heq). exists b. simpl. by rewrite <- Heq.
Qed.

Lemma substring_part n m s : ∃ a b, s = a +:+ String.substring n m s +:+ b.
Proof.
  revert n. induction s as [|c s IH]; intros n.
  - exists "", "". by destruct n, m.
  - destruct n as [|n].
    + destruct (substring_0_prefix m (String c s)) as (b & Heq). by exists "", b.
    + destruct (IH n) as (a & b & Heq). exists (String c a), b. simpl.
      by rewrite <- Heq.
Qed.

End PatternFacts.

Section VerifierFacts.

#[local] Arguments String.append : simpl nomatch.

(** A timestamp the wrapper recognises, the verifier recognises. *)
Lemma header_has_timestamp_search line :
  header_has_timestamp line = true →
  Verifier.search Verifier.TIMESTAMP_PATTERN line = true.
Proof.
  unfold header_has_timestamp.
  assert (∀ content, re_search timestamp_pattern content = true →
                     Verifier.search Verifier.TIMESTAMP_PATTERN content = true)
    as Hpart.
  { intros content (pre & rest & -> & Hm)%re_search_spec.
    apply match_here_lang in Hm as (mid & post & -> & Hmid).
    apply search_spec. exists pre, mid, post. split; [done |].
    by apply timestamp_pattern_included. }
  destruct (startswith "_**" line && endswith "**_" line); [|apply Hpart].
  intros H%Hpart. unfold slice_3_m3 in H.
  destruct (substring_part 3 (String.length line - 6) line) as (a & b & Heq).
  rewrite Heq. by apply search_part.
Qed.

Lemma elem_of_headers_from k lines j b :
  (j, b) ∈ Verifier.headers_from k lines ↔
  k ≤ j ∧ ∃ line, lines !! (j - k) = Some line
                  ∧ Verifier.search Verifier.HEADER_PATTERN line = true
                  ∧ b = Verifier.search Verifier.TIMESTAMP_PATTERN line.
Proof.
  revert k. induction lines as [|line rest IH]; intros k; simpl.
  - split; [by intros ?%elem_of_nil | by intros [_ (l & ? & _)]].
  - assert ((j, b) ∈ Verifier.headers_from (S k) rest ↔
            k < j ∧ ∃ l, (line :: rest) !! (j - k) = Some l
                         ∧ Verifier.search Verifier.HEADER_PATTERN l = true
                         ∧ b = Verifier.search Verifier.TIMESTAMP_PATTERN l)
      as Hrest.
    { rewrite IH. split.
      - intros [Hle (l & Hl & Hh)]. split; [lia |]. exists l. split; [|done].
        replace (j - k) with (S (j - S k)) by lia. done.
      - intros [Hlt (l & Hl & Hh)]. split; [lia |]. exists l. split; [|done].
        replace (j - k) with (S (j - S k)) in Hl by lia. done. }
    destruct (Verifier.search Verifier.HEADER_PATTERN line) eqn:Hline.
    + rewrite elem_of_cons, Hrest. split.
      * intros [[= -> ->]|[Hlt H]]; [|split; [lia | done]].
        split; [done |]. exists line. by rewrite Nat.sub_diag.
      * intros [Hle H]. destruct (decide (j = k)) as [->|]; [left | right].
        -- destruct H as (l & Hl & _ & ->). rewrite Nat.sub_diag in Hl.
           by injection Hl as ->.
        -- split; [lia | done].
    + rewrite Hrest. split.
      * intros [Hlt H]. split; [lia | done].
      * intros [Hle (l & Hl & Hh & Hb)]. split; [|eauto].
        destruct (decide (j = k)) as [->|]; [|lia].
        rewrite Nat.sub_diag in Hl. simpl in Hl. congruence.
Qed.

Lemma elem_of_verifier_missing lines n :
  n ∈ Verifier.missing_timestamps lines ↔
  ∃ i line, n = S i ∧ lines !! i = Some line
            ∧ Verifier.search Verifier.HEADER_PATTERN line = true
            ∧ Verifier.search Verifier.TIMESTAMP_PATTERN line = false.
Proof.
  unfold Verifier.missing_timestamps, Verifier.find_conversation_headers.
  rewrite list_elem_of_omap. split.
  - intros ([i b] & Hin & Hb). simpl in Hb. destruct b; [done |].
    injection Hb as <-.
    apply elem_of_headers_from in Hin as (_ & line & Hl & Hh & Ht).
    rewrite Nat.sub_0_r in Hl. by exists i, line.
  - intros (i & line & -> & Hl & Hh & Ht). exists (i, false). split; [|done].
    apply elem_of_headers_from. split; [lia |]. exists line.
    by rewrite Nat.sub_0_r.
Qed.

Lemma all_chars_substring p n m s :
  all_chars p s = true → all_chars p (String.substring n m s) = true.
Proof.
  destruct (substring_part n m s) as (a & b & Heq). rewrite Heq at 1.
  rewrite !all_chars_app. by intros [_ [? _]%andb_true_iff]%andb_true_iff.
Qed.

Lemma all_chars_extract_base_role p line :
  all_chars p line = true → all_chars p (extract_base_role line) = true.
Proof.
  intros H. unfold extract_base_role, slice_3_m3.
  pose proof (all_chars_substring p 3 (String.length line - 6) line H) as Hc.
  destruct (contains "(" _ && contains ")" _); apply all_chars_strip; [|done].
  pose proof (split_pieces p "(" _ Hc) as Hs.
  destruct (split "(" _) as [|h t]; [done |]. simpl.
  by inversion Hs as [|? ? [? _] _].
Qed.

Lemma one_line_extract_base_role line :
  one_line line = true → one_line (extract_base_role line) = true.
Proof.
  unfold one_line, lf_free, cr_free. intros [H1 H2]%andb_true_iff.
  by rewrite !all_chars_extract_base_role.
Qed.

Lemma backfill_map_covers now_ts hsm (m : gmap string string) p :
  p ∈ hsm → is_Some (backfill_map now_ts (missing_timestamps hsm m) m !! p.2).
Proof.
  intros Hp. destruct (m !! p.2) as [ts|] eqn:Hm.
  - exists ts. by apply backfill_map_recorded.
  - exists now_ts. apply backfill_map_in. by apply list_elem_of_filter.
Qed.

(** What the rewriting loop does with one line of the log. *)
Lemma merged_line_cases now_ts md ledger i line :
  read_lines_text md !! i = Some line →
  (merged_lines now_ts md ledger !! i = Some line ∧
   (is_conversation_header line = false ∨ header_has_timestamp line = true
    ∨ snippet_for (read_lines_text md) i = None))
  ∨ (is_conversation_header line = true ∧
     header_has_timestamp line = false ∧
     ∃ snippet ts,
       snippet_for (read_lines_text md) i = Some snippet ∧
       (ts = now_ts ∨
        ∃ e, e ∈ existing_entries ledger ∧ parse_entry e = Some (ts, snippet)) ∧
       merged_lines now_ts md ledger !! i
       = Some ("_**" +:+ extract_base_role line +:+ " (" +:+ ts +:+ ")**_")).
Proof.
  intros Hline. rewrite merged_lines_lookup, Hline. simpl.
  unfold rewrite_line. rewrite is_rewrite_header_eq.
  destruct (is_conversation_header line) eqn:Hhdr; [|left; auto].
  destruct (header_has_timestamp line) eqn:Hts; [left; auto |].
  destruct (snippet_lookup i (header_snippet_map (read_lines_text md)))
    as [snippet|] eqn:Hsn.
  - pose proof Hsn as Hin.
    apply snippet_lookup_Some in Hin; [|apply NoDup_header_snippet_map_keys].
    apply snippet_lookup_header_snippet_map in Hsn as (l & Hl & _ & Hsf).
    destruct (backfill_map_covers now_ts _
                (timestamp_map (existing_entries ledger)) _ Hin) as [ts Hm].
    simpl in Hm. rewrite Hm. right. split; [done |]. split; [done |].
    exists snippet, ts. split; [done |]. split; [|done].
    apply backfill_map_lookup_cases in Hm as [->|Hm]; [by left | right].
    by apply timestamp_map_lookup_Some.
  - left. split; [done |]. right. right.
    destruct (snippet_for (read_lines_text md) i) as [s|] eqn:Hsf; [|done].
    assert (snippet_lookup i (header_snippet_map (read_lines_text md)) = Some s)
      as Hs by (apply snippet_lookup_header_snippet_map; eauto).
    congruence.
Qed.

Lemma one_line_stamped role ts :
  one_line role = true → one_line ts = true →
  one_line ("_**" +:+ role +:+ " (" +:+ ts +:+ ")**_") = true.
Proof.
  unfold one_line, lf_free, cr_free.
  intros [H1 H2]%andb_true_iff [H3 H4]%andb_true_iff.
  by rewrite !all_chars_app, H1, H2, H3, H4.
Qed.

(** The lines the verifier reads from a log after an eligible merge. *)
Lemma verifier_reads_merged now_ts md ledger :
  has_user_content md = true →
  is_utc_timestamp now_ts = true →
  (∀ e ts s, e ∈ existing_entries ledger → parse_entry e = Some (ts, s) →
             is_utc_timestamp ts = true) →
  Verifier.read_lines_text (Some (merge_timestamps now_ts md ledger).1)
  = merged_lines now_ts md ledger ++ [""].
Proof.
  intros Hel Hnow Hledger. rewrite merge_eligible by done. simpl.
  assert (Forall (λ l, one_line l = true) (merged_lines now_ts md ledger)) as Hls.
  { apply Forall_lookup. intros i l' Hl'.
    assert (is_Some (read_lines_text md !! i)) as [line Hline].
    { apply lookup_lt_is_Some. apply lookup_lt_Some in Hl'.
      unfold merged_lines in Hl'. by rewrite length_imap in Hl'. }
    pose proof (proj1 (Forall_lookup _ _) (read_lines_text_one_line md) i line Hline)
      as Hone.
    destruct (merged_line_cases now_ts md ledger i line Hline)
      as [[Hm _]|(_ & _ & snippet & ts & _ & Hts & Hm)]; [congruence |].
    rewrite Hm in Hl'. injection Hl' as <-.
    apply one_line_stamped; [by apply one_line_extract_base_role |].
    apply utc_timestamp_one_line.
    destruct Hts as [->|(e & He & Hp)]; [done | by apply (Hledger e ts snippet)]. }
  assert (Forall (λ l, lf_free l = true) (merged_lines now_ts md ledger)) as Hlf.
  { eapply Forall_impl; [exact Hls |]. by intros l [? _]%andb_true_iff. }
  assert (cr_free (write_lines (merged_lines now_ts md ledger)) = true) as Hcr.
  { apply cr_free_write_lines. eapply Forall_impl; [exact Hls |].
    by intros l [_ ?]%andb_true_iff. }
  rewrite (read_text_id _ Hcr), (replace_crlf_id _ Hcr), (replace_cr_id _ Hcr).
  by apply split_lf_write_lines.
Qed.

Lemma verify_file_missing content :
  (Verifier.verify_file content).1
  = Verifier.missing_timestamps (Verifier.read_lines_text content).
Proof.
  unfold Verifier.verify_file. by destruct (Verifier.read_lines_text content).
Qed.

End VerifierFacts.

(** X19. Every line number [verify_file] collects is the one-based number
    of a line on which the verifier's header pattern matches and on which
    the wrapper, too, finds no timestamp: a header the wrapper regards as
    stamped is never reported. *)
Theorem verifier_reports_unstamped_headers (lines : list string) (n : nat) :
  n ∈ Verifier.missing_timestamps lines →
  ∃ i line,
    n = S i ∧ lines !! i = Some line ∧
    Verifier.search Verifier.HEADER_PATTERN line = true ∧
    header_has_timestamp line = false.
Proof.
  intros (i & line & -> & Hl & Hh & Ht)%elem_of_verifier_missing.
  exists i, line. split; [done |]. split; [done |]. split; [done |].
  destruct (header_has_timestamp line) eqn:Hw; [|done].
  apply header_has_timestamp_search in Hw. congruence.
Qed.

Lemma verifier_reports_unstamped_headers_witness :
  2 ∈ Verifier.missing_timestamps ["# Session"; "_**User**_"; "Hello"] ∧
  ∃ i line,
    2 = S i ∧ ["# Session"; "_**User**_"; "Hello"] !! i = Some line ∧
    Verifier.search Verifier.HEADER_PATTERN line = true ∧
    header_has_timestamp line = false.
Proof.
  assert (2 ∈ Verifier.missing_timestamps ["# Session"; "_**User**_"; "Hello"])
    as H by (vm_compute; constructor).
  split; [exact H |].
  exact (verifier_reports_unstamped_headers _ 2 H).
Defined.

(** X20. What the verifier reports after an eligible merge with well-formed
    timestamps: exactly the lines of the log that the verifier takes for a
    header without a timestamp and that the wrapper either does not take
    for a header or finds without content after them. Every other header
    passes. *)
Theorem verifier_after_merge (now_ts md ledger : string) (n : nat) :
  has_user_content md = true →
  is_utc_timestamp now_ts = true →
  (∀ e ts s, e ∈ existing_entries ledger → parse_entry e = Some (ts, s) →
             is_utc_timestamp ts = true) →
  n ∈ (Verifier.verify_file (Some (merge_timestamps now_ts md ledger).1)).1 ↔
  ∃ i line,
    n = S i ∧ read_lines_text md !! i = Some line ∧
    Verifier.search Verifier.HEADER_PATTERN line = true ∧
    Verifier.search Verifier.TIMESTAMP_PATTERN line = false ∧
    (is_conversation_header line = false
     ∨ snippet_for (read_lines_text md) i = None).
Proof.
  intros Hel Hnow Hledger.
  rewrite verify_file_missing, verifier_reads_merged by done.
  rewrite elem_of_verifier_missing. split.
  - intros (i & line' & -> & Hl' & Hh & Ht).
    apply lookup_app_Some in Hl' as [Hl'|[_ Hl']].
    2:{ destruct (i - length (merged_lines now_ts md ledger)); simpl in Hl';
          [injection Hl' as <-; by vm_compute in Hh | done]. }
    assert (is_Some (read_lines_text md !! i)) as [line Hline].
    { apply lookup_lt_is_Some. apply lookup_lt_Some in Hl'.
      unfold merged_lines in Hl'. by rewrite length_imap in Hl'. }
    exists i, line. split; [done |]. split; [done |].
    destruct (merged_line_cases now_ts md ledger i line Hline)
      as [[Hm Hwhy]|(_ & _ & snippet & ts & _ & Hts & Hm)].
    + rewrite Hm in Hl'. injection Hl' as <-. split; [done |]. split; [done |].
      destruct Hwhy as [?|[Hw%header_has_timestamp_search|?]]; auto. congruence.
    + rewrite Hm in Hl'. injection Hl' as <-.
      assert (is_utc_timestamp ts = true) as Hutc.
      { destruct Hts as [->|(e & He & Hp)]; [done | by apply (Hledger e ts snippet)]. }
      pose proof (header_has_timestamp_search _
                    (header_has_timestamp_stamped (extract_base_role line) ts Hutc)).
      congruence.
  - intros (i & line & -> & Hline & Hh & Ht & Hwhy).
    exists i, line. split; [done |]. split; [|done].
    apply lookup_app_l_Some.
    destruct (merged_line_cases now_ts md ledger i line Hline)
      as [[Hm _]|(Hhdr & _ & snippet & ts & Hsf & _)]; [done |].
    destruct Hwhy; congruence.
Qed.

Lemma verifier_after_merge_witness :
  has_user_content Transcript.with_assistant = true ∧
  is_utc_timestamp Scenario.later = true ∧
  (∀ e ts s, e ∈ existing_entries Scenario.one_record →
             parse_entry e = Some (ts, s) → is_utc_timestamp ts = true) ∧
  (3 ∈ (Verifier.verify_file
          (Some (merge_timestamps Scenario.later Transcript.with_assistant
                   Scenario.one_record).1)).1 ↔
   ∃ i line,
     3 = S i ∧ read_lines_text Transcript.with_assistant !! i = Some line ∧
     Verifier.search Verifier.HEADER_PATTERN line = true ∧
     Verifier.search Verifier.TIMESTAMP_PATTERN line = false ∧
     (is_conversation_header line = false
      ∨ snippet_for (read_lines_text Transcript.with_assistant) i = None)).
Proof.
  assert (∀ e ts s, e ∈ existing_entries Scenario.one_record →
                    parse_entry e = Some (ts, s) → is_utc_timestamp ts = true)
    as Hledger.
  { intros e ts s He Hp.
    change (existing_entries Scenario.one_record)
      with ["2024-01-01T00:00:00Z|Hello"] in He.
    apply list_elem_of_singleton in He. rewrite He in Hp.
    vm_compute in Hp. injection Hp as <- _. reflexivity. }
  split; [reflexivity |]. split; [reflexivity |]. split; [exact Hledger |].
  exact (verifier_after_merge Scenario.later Transcript.with_assistant
           Scenario.one_record 3 eq_refl eq_refl Hledger).
Defined.

Section HeaderFacts.

#[local] Arguments String.append : simpl nomatch.

Lemma lang_header role rest :
  role = "User" ∨ role = "Agent" ∨ role = "Assistant" →
  lf_free rest = true →
  Verifier.lang Verifier.HEADER_PATTERN ("_**" +:+ role +:+ rest +:+ "**_").
Proof.
  intros Hrole Hrest. unfold Verifier.HEADER_PATTERN, Verifier.seq. cbn [foldr].
  apply Verifier.lang_Seq; [by apply lang_lit |].
  apply Verifier.lang_Seq.
  { destruct Hrole as [-> | [-> | ->]].
    - apply Verifier.lang_Alt_l. by apply lang_lit.
    - apply Verifier.lang_Alt_r, Verifier.lang_Alt_l. by apply lang_lit.
    - apply Verifier.lang_Alt_r, Verifier.lang_Alt_r. by apply lang_lit. }
  apply Verifier.lang_Seq; [by apply lang_Star_class |].
  apply (lang_Seq' _ _ "**_" ""); [done | by apply lang_lit | constructor].
Qed.

(** A line that opens with the marker and a role word and closes with the
    marker is a header for the verifier. *)
Lemma search_header_line role line :
  role = "User" ∨ role = "Agent" ∨ role = "Assistant" →
  lf_free line = true →
  startswith ("_**" +:+ role) line = true →
  endswith "**_" line = true →
  Verifier.search Verifier.HEADER_PATTERN line = true.
Proof.
  intros Hrole Hlf [r ->]%startswith_spec Hend.
  assert (endswith "**_" r = true) as [rest ->]%endswith_spec.
  { destruct Hrole as [-> | [-> | ->]]; exact Hend. }
  apply search_spec. exists "", ("_**" +:+ role +:+ rest +:+ "**_"), "".
  split; [by rewrite app_empty_r, !app_assoc' |].
  apply lang_header; [done |].
  unfold lf_free in *. rewrite !all_chars_app in Hlf.
  by apply andb_true_iff in Hlf as [_ [? _]%andb_true_iff].
Qed.

Lemma elem_of_find_conversation_headers lines i line :
  lines !! i = Some line →
  Verifier.search Verifier.HEADER_PATTERN line = true →
  ∃ b, (i, b) ∈ Verifier.find_conversation_headers lines.
Proof.
  intros Hl Hh. eexists. apply elem_of_headers_from. split; [lia |].
  exists line. by rewrite Nat.sub_0_r.
Qed.

End HeaderFacts.

(** X21. A header of the wrapper that opens with the role word, [_**User]
    or [_**Agent], is found by the verifier as well, at the same index. *)
Theorem role_first_header_is_found (md : string) (i : nat) :
  i ∈ find_conversation_header_indices (read_lines_text md) →
  (∀ line, read_lines_text md !! i = Some line →
           startswith "_**User" line || startswith "_**Agent" line = true) →
  ∃ b, (i, b) ∈ Verifier.find_conversation_headers (read_lines_text md).
Proof.
  intros [_ (line & Hline & Hhdr)]%elem_of_header_indices_from Hrole.
  rewrite Nat.sub_0_r in Hline. specialize (Hrole line Hline).
  apply (elem_of_find_conversation_headers _ _ line Hline).
  pose proof (proj1 (Forall_lookup _ _) (read_lines_text_one_line md) i line Hline)
    as [Hlf _]%andb_true_iff.
  unfold is_conversation_header in Hhdr.
  apply andb_true_iff in Hhdr as [[_ Hend]%andb_true_iff _].
  apply orb_true_iff in Hrole as [Hu|Ha].
  - by apply (search_header_line "User"); auto.
  - by apply (search_header_line "Agent"); auto.
Qed.

Lemma role_first_header_is_found_witness :
  2 ∈ find_conversation_header_indices (read_lines_text Scenario.two_turns) ∧
  (∀ line, read_lines_text Scenario.two_turns !! 2 = Some line →
           startswith "_**User" line || startswith "_**Agent" line = true) ∧
  ∃ b, (2, b) ∈ Verifier.find_conversation_headers
                  (read_lines_text Scenario.two_turns).
Proof.
  assert (2 ∈ find_conversation_header_indices (read_lines_text Scenario.two_turns))
    as Hin by (vm_compute; repeat constructor).
  assert (∀ line, read_lines_text Scenario.two_turns !! 2 = Some line →
                  startswith "_**User" line || startswith "_**Agent" line = true)
    as Hrole by (intros line Hline; vm_compute in Hline; by injection Hline as <-).
  split; [exact Hin |]. split; [exact Hrole |].
  exact (role_first_header_is_found Scenario.two_turns 2 Hin Hrole).
Defined.

(** X22. An [Assistant] header that names neither [User] nor [Agent] is a
    header for the verifier but not for the wrapper: no merge ever rewrites
    its line. *)
Theorem assistant_header_is_never_stamped (md : string) (i : nat) (line : string) :
  read_lines_text md !! i = Some line →
  startswith "_**Assistant" line = true →
  endswith "**_" line = true →
  contains "User" line = false →
  contains "Agent" line = false →
  (∃ b, (i, b) ∈ Verifier.find_conversation_headers (read_lines_text md)) ∧
  (i ∉ find_conversation_header_indices (read_lines_text md)) ∧
  ∀ now_ts ledger, merged_lines now_ts md ledger !! i = Some line.
Proof.
  intros Hline Hstart Hend Hu Ha.
  assert (is_conversation_header line = false) as Hhdr.
  { unfold is_conversation_header. by rewrite Hu, Ha, andb_false_r. }
  split; [|split].
  - apply (elem_of_find_conversation_headers _ _ line Hline).
    pose proof (proj1 (Forall_lookup _ _) (read_lines_text_one_line md) i line Hline)
      as [Hlf _]%andb_true_iff.
    by apply (search_header_line "Assistant"); auto.
  - intros [_ (l & Hl & Hh)]%elem_of_header_indices_from.
    rewrite Nat.sub_0_r in Hl. congruence.
  - intros now_ts ledger. rewrite merged_lines_lookup, Hline. simpl.
    unfold rewrite_line. by rewrite is_rewrite_header_eq, Hhdr.
Qed.

Lemma assistant_header_is_never_stamped_witness :
  read_lines_text Transcript.with_assistant !! 2 = Some "_**Assistant**_" ∧
  startswith "_**Assistant" "_**Assistant**_" = true ∧
  endswith "**_" "_**Assistant**_" = true ∧
  contains "User" "_**Assistant**_" = false ∧
  contains "Agent" "_**Assistant**_" = false ∧
  (∃ b, (2, b) ∈ Verifier.find_conversation_headers
                  (read_lines_text Transcript.with_assistant)) ∧
  (2 ∉ find_conversation_header_indices
         (read_lines_text Transcript.with_assistant)) ∧
  ∀ now_ts ledger,
    merged_lines now_ts Transcript.with_assistant ledger !! 2
    = Some "_**Assistant**_".
Proof.
  split; [reflexivity |]. split; [reflexivity |]. split; [reflexivity |].
  split; [reflexivity |]. split; [reflexivity |].
  exact (assistant_header_is_never_stamped Transcript.with_assistant 2
           "_**Assistant**_" eq_refl eq_refl eq_refl eq_refl eq_refl).
Defined.

(** ** The source of a session *)

Section SourceFacts.

Lemma comment_source_app pre rest :
  (∀ l, l ∈ pre →
        Verifier.search Verifier.CURSOR_PATTERN l = false ∧
        Verifier.search Verifier.CLAUDE_PATTERN l = false) →
  Verifier.comment_source (pre ++ rest) = Verifier.comment_source rest.
Proof.
  induction pre as [|l pre IH]; intros Hpre; [done |]. simpl.
  destruct (Hpre l (list_elem_of_here _ _)) as [-> ->].
  apply IH. intros l' Hl'. apply Hpre. by apply list_elem_of_further.
Qed.

Lemma header_counts (headers : list (nat * bool)) :
  length (filter (λ h, h.2 = true) headers)
  + length (filter (λ h, h.2 = false) headers) = length headers.
Proof.
  induction headers as [|[i [|]] headers IH]; [done | |].
  - rewrite filter_cons_True, filter_cons_False by done. simpl. lia.
  - rewrite filter_cons_False, filter_cons_True by done. simpl. lia.
Qed.

Lemma all_stamped_counts (headers : list (nat * bool)) :
  (∀ h, h ∈ headers → h.2 = true) →
  length (filter (λ h, h.2 = true) headers) = length headers ∧
  length (filter (λ h, h.2 = false) headers) = 0.
Proof.
  intros Hall. pose proof (header_counts headers) as Hsum.
  assert (filter (λ h : nat * bool, h.2 = false) headers = []) as Hnone.
  { apply filter_none. intros h Hh. by rewrite (Hall h Hh). }
  rewrite Hnone in *. simpl in *. lia.
Qed.

End SourceFacts.

(** X23. A session comment in one of the first ten lines decides the
    source, whatever the ledger, the file name and the headers say: the
    first line with a comment counts, and a line with both comments counts
    as Cursor's. *)
Theorem session_comment_decides (mostly : nat → nat → bool)
    (has_timestamp_file : bool) (filename : string)
    (pre : list string) (line : string) (post : list string) :
  length pre < 10 →
  (∀ l, l ∈ pre →
        Verifier.search Verifier.CURSOR_PATTERN l = false ∧
        Verifier.search Verifier.CLAUDE_PATTERN l = false) →
  Verifier.search Verifier.CURSOR_PATTERN line
  || Verifier.search Verifier.CLAUDE_PATTERN line = true →
  Verifier.identify_session_source mostly has_timestamp_file filename
    (pre ++ line :: post)
  = Some (if Verifier.search Verifier.CURSOR_PATTERN line
          then Verifier.cursor else Verifier.claude).
Proof.
  intros Hlen Hpre Hline. unfold Verifier.identify_session_source.
  rewrite take_app. replace (10 - length pre) with (S (9 - length pre)) by lia.
  rewrite firstn_cons, comment_source_app.
  - simpl. destruct (Verifier.search Verifier.CURSOR_PATTERN line); [done |].
    simpl in Hline. by rewrite Hline.
  - intros l Hl. apply Hpre. by apply (subseteq_take 10 pre).
Qed.

Lemma session_comment_decides_witness :
  length ["# Notes"] < 10 ∧
  (∀ l, l ∈ ["# Notes"] →
        Verifier.search Verifier.CURSOR_PATTERN l = false ∧
        Verifier.search Verifier.CLAUDE_PATTERN l = false) ∧
  Verifier.search Verifier.CURSOR_PATTERN "<!-- Claude  session 7 -->"
  || Verifier.search Verifier.CLAUDE_PATTERN "<!-- Claude  session 7 -->" = true ∧
  Verifier.identify_session_source (λ a b, 4 * b <? 5 * a) false "cursor.md"
    (["# Notes"] ++ "<!-- Claude  session 7 -->" :: ["_**User**_"; "Hello"])
  = Some (if Verifier.search Verifier.CURSOR_PATTERN "<!-- Claude  session 7 -->"
          then Verifier.cursor else Verifier.claude).
Proof.
  assert (length ["# Notes"] < 10) as Hlen by (simpl; lia).
  assert (∀ l, l ∈ ["# Notes"] →
               Verifier.search Verifier.CURSOR_PATTERN l = false ∧
               Verifier.search Verifier.CLAUDE_PATTERN l = false) as Hpre
    by (intros l ->%list_elem_of_singleton; split; reflexivity).
  split; [exact Hlen |]. split; [exact Hpre |]. split; [reflexivity |].
  exact (session_comment_decides (λ a b, 4 * b <? 5 * a) false "cursor.md"
           ["# Notes"] "<!-- Claude  session 7 -->" ["_**User**_"; "Hello"]
           Hlen Hpre eq_refl).
Defined.

(** X24. The source stays unknown only for a log without a session comment
    in its first ten lines, without a ledger that holds anything, without a
    single header, and with a name that mentions neither tool. *)
Theorem source_unknown_only_for_bare_logs (mostly : nat → nat → bool)
    (has_timestamp_file : bool) (filename : string) (lines : list string) :
  Verifier.identify_session_source mostly has_timestamp_file filename lines = None
  ↔ Verifier.comment_source (take 10 lines) = None ∧
    has_timestamp_file = false ∧
    Verifier.find_conversation_headers lines = [] ∧
    contains "cursor" filename = false ∧
    contains "claude" filename = false.
Proof.
  unfold Verifier.identify_session_source.
  destruct (Verifier.comment_source (take 10 lines)) as [s|];
    [split; [done | by intros [? _]] |].
  pose proof (header_counts (Verifier.find_conversation_headers lines)) as Hsum.
  destruct (Verifier.find_conversation_headers lines) as [|h headers] eqn:Hh.
  - rewrite !filter_nil. simpl. rewrite !andb_false_r. simpl.
    destruct has_timestamp_file, (contains "cursor" filename),
      (contains "claude" filename); simpl; split; try done; by intros (? & ? & ? & ? & ?).
  - set (w := length (filter (λ h0 : nat * bool, h0.2 = true) (h :: headers))) in *.
    set (wo := length (filter (λ h0 : nat * bool, h0.2 = false) (h :: headers))) in *.
    simpl in Hsum.
    split; [|by intros (_ & _ & ? & _)].
    destruct has_timestamp_file; simpl.
    + destruct ((0 <? w) && (0 <? w + wo) && mostly w (w + wo)); [done |].
      by destruct (contains "cursor" filename), (contains "claude" filename).
    + destruct (0 <? w) eqn:Hw; [done |]. simpl.
      destruct (contains "cursor" filename); [done |].
      destruct (contains "claude" filename); [done |].
      destruct (0 <? wo) eqn:Hwo; [done |].
      apply Nat.ltb_ge in Hw, Hwo. lia.
Qed.

(** X25. A log with a ledger in which the verifier finds at least one
    header, and a timestamp on every header it finds, is taken for a Claude
    session unless a session comment says otherwise, also when its name
    mentions Cursor. The ratio test is only assumed to accept a ratio of
    one. *)
Theorem stamped_log_with_ledger_is_claude (mostly : nat → nat → bool)
    (filename : string) (lines : list string) :
  (∀ n, 0 < n → mostly n n = true) →
  Verifier.comment_source (take 10 lines) = None →
  Verifier.find_conversation_headers lines ≠ [] →
  (∀ h, h ∈ Verifier.find_conversation_headers lines → h.2 = true) →
  Verifier.identify_session_source mostly true filename lines
  = Some Verifier.claude.
Proof.
  intros Hmostly Hnone Hsome Hall. unfold Verifier.identify_session_source.
  rewrite Hnone. cbv zeta.
  destruct (all_stamped_counts _ Hall) as [-> ->].
  assert (0 < length (Verifier.find_conversation_headers lines)) as Hpos.
  { destruct (Verifier.find_conversation_headers lines); [done | simpl; lia]. }
  rewrite Nat.add_0_r. rewrite (Hmostly _ Hpos).
  apply Nat.ltb_lt in Hpos. by rewrite Hpos.
Qed.

Lemma stamped_log_with_ledger_is_claude_witness :
  (∀ n, 0 < n → (4 * n <? 5 * n) = true) ∧
  Verifier.comment_source
    (take 10 ["_**User (2024-01-01T00:00:00Z)**_"; "Hello"]) = None ∧
  Verifier.find_conversation_headers
    ["_**User (2024-01-01T00:00:00Z)**_"; "Hello"] ≠ [] ∧
  (∀ h, h ∈ Verifier.find_conversation_headers
              ["_**User (2024-01-01T00:00:00Z)**_"; "Hello"] → h.2 = true) ∧
  Verifier.identify_session_source (λ a b, 4 * b <? 5 * a) true "cursor.md"
    ["_**User (2024-01-01T00:00:00Z)**_"; "Hello"]
  = Some Verifier.claude.
Proof.
  assert (∀ n, 0 < n → (4 * n <? 5 * n) = true) as Hmostly
    by (intros n Hn; apply Nat.ltb_lt; lia).
  assert (Verifier.find_conversation_headers
            ["_**User (2024-01-01T00:00:00Z)**_"; "Hello"] = [(0, true)]) as Hh
    by reflexivity.
  assert (Verifier.find_conversation_headers
            ["_**User (2024-01-01T00:00:00Z)**_"; "Hello"] ≠ []) as Hsome
    by (rewrite Hh; discriminate).
  assert (∀ h, h ∈ Verifier.find_conversation_headers
                     ["_**User (2024-01-01T00:00:00Z)**_"; "Hello"] → h.2 = true)
    as Hall by (rewrite Hh; by intros h ->%list_elem_of_singleton).
  split; [exact Hmostly |]. split; [reflexivity |]. split; [exact Hsome |].
  split; [exact Hall |].
  exact (stamped_log_with_ledger_is_claude (λ a b, 4 * b <? 5 * a) "cursor.md"
           ["_**User (2024-01-01T00:00:00Z)**_"; "Hello"]
           Hmostly eq_refl Hsome Hall).
Defined.

(** X26. Without a session comment, a source that contradicts the ledger
    comes from the file name: a log with a ledger is taken for a Cursor
    session only if its name contains [cursor], and a log without one for a
    Claude session only if its name contains [claude]. *)
Theorem source_against_ledger_is_by_name (mostly : nat → nat → bool)
    (has_timestamp_file : bool) (filename : string) (lines : list string) :
  Verifier.comment_source (take 10 lines) = None →
  Verifier.identify_session_source mostly has_timestamp_file filename lines
  = Some (if has_timestamp_file then Verifier.cursor else Verifier.claude) →
  contains (if has_timestamp_file then "cursor" else "claude") filename = true.
Proof.
  intros Hnone. unfold Verifier.identify_session_source. rewrite Hnone.
  cbv zeta.
  destruct has_timestamp_file; simpl;
    repeat match goal with
           | |- context [if ?b then _ else _] => destruct b; try done
           end.
Qed.

Lemma source_against_ledger_is_by_name_witness :
  Verifier.comment_source (take 10 ["_**User**_"; "Hello"]) = None ∧
  Verifier.identify_session_source (λ a b, 4 * b <? 5 * a) true
    "2024-01-01-cursor-notes.md" ["_**User**_"; "Hello"]
  = Some (if true then Verifier.cursor else Verifier.claude) ∧
  contains (if true then "cursor" else "claude") "2024-01-01-cursor-notes.md"
  = true.
Proof.
  split; [reflexivity |]. split; [reflexivity |].
  exact (source_against_ledger_is_by_name (λ a b, 4 * b <? 5 * a) true
           "2024-01-01-cursor-notes.md" ["_**User**_"; "Hello"] eq_refl eq_refl).
Defined.
